(** * Price / lead-time benchmarking: the data pipeline of [dataService.ts],
    the combination enumeration of [App.tsx] and the request guard of
    [geminiService.ts], embedded in Rocq.

    Numbers are JavaScript numbers, that is IEEE 754 binary64 values: they are
    modelled by Rocq's primitive floats, whose operations are the same
    round-to-nearest-even operations.  Strings are sequences of code units;
    the model keeps the code units U+0000 to U+00FF (one [ascii] each).
    [undefined] is [None]. *)

From Stdlib Require Import ZArith String Ascii List Floats Sorted Permutation.
From stdpp Require Import base gmap list strings sorting.

Local Open Scope Z_scope.

(** ** The ECMAScript built-ins the code calls *)

Module JS.

(** *** Strings *)

(** White space and line terminators among the code units kept: TAB, LF, VT,
    FF, CR, SPACE and NBSP.  This is the set [String.prototype.trim] and the
    numeric parsers skip. *)
Definition is_whitespace (c : ascii) : bool :=
  let n := nat_of_ascii c in
  ((9 <=? n)%nat && (n <=? 13)%nat) || (n =? 32)%nat || (n =? 160)%nat.

Definition is_empty (s : string) : bool :=
  match s with EmptyString => true | String _ _ => false end.

Fixpoint trimStart (s : string) : string :=
  match s with
  | EmptyString => EmptyString
  | String c s' => if is_whitespace c then trimStart s' else s
  end.

Fixpoint trimEnd (s : string) : string :=
  match s with
  | EmptyString => EmptyString
  | String c s' =>
      let r := trimEnd s' in
      if is_whitespace c && is_empty r then EmptyString else String c r
  end.

(** [s.trim()] *)
Definition trim (s : string) : string := trimEnd (trimStart s).

Definition lower_char (c : ascii) : ascii :=
  let n := nat_of_ascii c in
  if ((65 <=? n)%nat && (n <=? 90)%nat)
     || ((192 <=? n)%nat && (n <=? 222)%nat && negb (n =? 215)%nat)
  then ascii_of_nat (n + 32) else c.

(** [s.toLowerCase()] *)
Fixpoint toLowerCase (s : string) : string :=
  match s with
  | EmptyString => EmptyString
  | String c s' => String (lower_char c) (toLowerCase s')
  end.

(** [s.split(sep)] for a separator of one code unit: never an empty array,
    [''.split(',')] is [['']]. *)
Fixpoint split (sep : ascii) (s : string) : list string :=
  match s with
  | EmptyString => [EmptyString]
  | String c s' =>
      if Ascii.eqb c sep then EmptyString :: split sep s'
      else match split sep s' with
           | h :: t => String c h :: t
           | [] => [String c EmptyString]
           end
  end.

(** [a.join(sep)] on an array of strings *)
Fixpoint join (sep : string) (l : list string) : string :=
  match l with
  | [] => EmptyString
  | [x] => x
  | x :: l' => x +:+ sep +:+ join sep l'
  end.

Definition dquote : ascii := ascii_of_nat 34.

Definition drop_leading_quote (s : string) : string :=
  match s with
  | String c s' => if Ascii.eqb c dquote then s' else s
  | EmptyString => EmptyString
  end.

Fixpoint drop_trailing_quote (s : string) : string :=
  match s with
  | EmptyString => EmptyString
  | String c s' =>
      if Ascii.eqb c dquote && is_empty s' then EmptyString
      else String c (drop_trailing_quote s')
  end.

(** [s.replace(/^"|"$/g, '')]: one quote at the start and one at the end go,
    a lone quote goes once. *)
Definition strip_quotes (s : string) : string :=
  drop_trailing_quote (drop_leading_quote s).

(** [s.replace(/[()]/g, '')] *)
Fixpoint strip_parens (s : string) : string :=
  match s with
  | EmptyString => EmptyString
  | String c s' =>
      if Ascii.eqb c "("%char || Ascii.eqb c ")"%char then strip_parens s'
      else String c (strip_parens s')
  end.

(** The template literal [`${v}`] of a value that is a string or [undefined]. *)
Definition template (v : option string) : string :=
  match v with Some s => s | None => "undefined" end.

(** [a || b] on values that are strings or [undefined]: the empty string and
    [undefined] are falsy. *)
Definition or_else (a b : option string) : option string :=
  match a with
  | Some s => if is_empty s then b else a
  | None => b
  end.

(** [a || d] where [d] is a truthy string. *)
Definition or_default (a : option string) (d : string) : string :=
  match a with
  | Some s => if is_empty s then d else s
  | None => d
  end.

(** *** Numbers *)

Local Open Scope float_scope.

(** The Number nearest to [num / den] for positive integers, ties to even:
    the quotient is taken with 65 bits or more and a sticky bit, and rounded
    once by [binary_normalize]. *)
Definition round_ratio (num den : Z) : float :=
  let s := Z.max 0 (Z.log2 den + 66 - Z.log2 num) in
  let n := (num * 2 ^ s)%Z in
  let q := (n / den)%Z in
  let sticky := if (n mod den =? 0)%Z then 0%Z else 1%Z in
  SF2Prim (binary_normalize prec emax (2 * q + sticky) (- s - 1) false).

(** The Number for the decimal [M * 10^E], where [M >= 0] was read from
    [cnt] digits.  Exponents far outside the range of the format are cut
    short: the value is above every finite Number, or below half the least
    one. *)
Definition decimal_value (M cnt E : Z) : float :=
  if (M =? 0)%Z then zero
  else if (400 <? E)%Z then infinity
  else if (E + cnt <? -400)%Z then zero
  else if (0 <=? E)%Z then round_ratio (M * 10 ^ E) 1
  else round_ratio M (10 ^ (- E)).

(** An integer as a Number. *)
Definition of_Z (n : Z) : float :=
  SF2Prim (binary_normalize prec emax n 0 false).

(** An array length as a Number. *)
Definition of_nat (n : nat) : float := of_Z (Z.of_nat n).

Definition digit_of (c : ascii) : option Z :=
  let n := nat_of_ascii c in
  if ((48 <=? n)%nat && (n <=? 57)%nat) then Some (Z.of_nat (n - 48)) else None.

Definition hex_digit_of (c : ascii) : option Z :=
  let n := nat_of_ascii c in
  if ((48 <=? n)%nat && (n <=? 57)%nat) then Some (Z.of_nat (n - 48))
  else if ((97 <=? n)%nat && (n <=? 102)%nat) then Some (Z.of_nat (n - 87))
  else if ((65 <=? n)%nat && (n <=? 70)%nat) then Some (Z.of_nat (n - 55))
  else None.

(** The longest prefix of digits in the given radix: its value on top of
    [acc], the number of digits read on top of [cnt], and the rest. *)
Fixpoint read_digits (digit : ascii -> option Z) (radix : Z)
  (s : string) (acc cnt : Z) : Z * Z * string :=
  match s with
  | String c s' =>
      match digit c with
      | Some d => read_digits digit radix s' (radix * acc + d)%Z (cnt + 1)%Z
      | None => (acc, cnt, s)
      end
  | EmptyString => (acc, cnt, s)
  end.

Definition read_sign (s : string) : bool * string :=
  match s with
  | String c s' =>
      if Ascii.eqb c "-"%char then (true, s')
      else if Ascii.eqb c "+"%char then (false, s')
      else (false, s)
  | EmptyString => (false, s)
  end.

(** An exponent part [e+12], taken only when a digit follows. *)
Definition read_exponent (s : string) : Z :=
  match s with
  | String c s' =>
      if Ascii.eqb c "e"%char || Ascii.eqb c "E"%char then
        let '(neg, s'') := read_sign s' in
        let '(v, cnt, _) := read_digits digit_of 10 s'' 0%Z 0%Z in
        if (cnt =? 0)%Z then 0%Z else if neg then (- v)%Z else v
      else 0%Z
  | EmptyString => 0%Z
  end.

Definition with_sign (neg : bool) (x : float) : float :=
  if neg then - x else x.

(** [parseFloat(s)]: leading white space is skipped, the longest prefix that
    is a decimal literal is read, [NaN] when there is none. *)
Definition parseFloat (input : string) : float :=
  let '(neg, s1) := read_sign (trimStart input) in
  if String.prefix "Infinity" s1 then with_sign neg infinity
  else
    let '(ip, ic, s2) := read_digits digit_of 10 s1 0%Z 0%Z in
    let '(m, fc, s3) :=
      match s2 with
      | String c t =>
          if Ascii.eqb c "."%char then read_digits digit_of 10 t ip 0%Z
          else (ip, 0%Z, s2)
      | EmptyString => (ip, 0%Z, s2)
      end in
    if ((ic =? 0) && (fc =? 0))%Z then nan
    else
      (* "1.e5" reads the exponent, "1.x" stops after the point *)
      with_sign neg (decimal_value m (ic + fc) (read_exponent s3 - fc)).

(** [parseInt(s)] with no radix: leading white space is skipped, a [0x]
    prefix selects radix 16, the longest prefix of digits is read, [NaN]
    when there is none. *)
Definition parseInt (input : string) : float :=
  let '(neg, s1) := read_sign (trimStart input) in
  let '(hex, s2) :=
    match s1 with
    | String c0 (String c1 t) =>
        if Ascii.eqb c0 "0"%char && (Ascii.eqb c1 "x"%char || Ascii.eqb c1 "X"%char)
        then (true, t) else (false, s1)
    | _ => (false, s1)
    end in
  let '(v, cnt, _) :=
    if hex then read_digits hex_digit_of 16 s2 0%Z 0%Z
    else read_digits digit_of 10 s2 0%Z 0%Z in
  if (cnt =? 0)%Z then nan else with_sign neg (of_Z v).

Definition digit_char (d : Z) : ascii := ascii_of_nat (48 + Z.to_nat d).

Fixpoint digits_go (fuel : nat) (n : Z) (acc : string) : string :=
  match fuel with
  | O => acc
  | S f =>
      let acc' := String (digit_char (n mod 10)) acc in
      if (n <? 10)%Z then acc' else digits_go f (n / 10)%Z acc'
  end.

(** The decimal digits of an integer [n >= 0]. *)
Definition digits (n : Z) : string :=
  digits_go (S (Z.to_nat (Z.log2 n))) n EmptyString.

Fixpoint zeros (n : nat) : string :=
  match n with O => EmptyString | S n' => String "0"%char (zeros n') end.

Fixpoint scale_up (fuel : nat) (num den j : Z) : Z :=
  match fuel with
  | O => j
  | S f => if (den <=? num)%Z then j else scale_up f (10 * num)%Z den (j + 1)%Z
  end.

(** The [n] with [10^(n-1) <= num/den < 10^n], for a positive finite Number
    [num/den]. *)
Definition decimal_exponent (num den : Z) : Z :=
  if (den <=? num)%Z then Z.of_nat (String.length (digits (num / den)))
  else (1 - scale_up 400 num den 0)%Z.

(** [num/den * 10^(k-n)] as a fraction. *)
Definition scaled (num den n k : Z) : Z * Z :=
  if (0 <=? k - n)%Z then (num * 10 ^ (k - n), den)%Z
  else (num, den * 10 ^ (n - k))%Z.

Definition reads_back (x : float) (s n k : Z) : bool :=
  (decimal_value s k (n - k) =? x)%float.

(** The [s], [n] and [k] of [Number::toString]: the fewest digits [k] for
    which some [s] of [k] digits has [s * 10^(n-k)] read back as [x], and
    among those [s] the one nearest to [x] (the even one on a tie).  Only the
    two integers around [x * 10^(k-n)] can qualify. *)
Fixpoint shortest (fuel : nat) (x : float) (num den n k : Z) : Z * Z * Z :=
  match fuel with
  | O => (0, n, k)%Z
  | S f =>
      let '(a, b) := scaled num den n k in
      let lo := (a / b)%Z in
      let '(hi, hn) :=
        if (lo + 1 =? 10 ^ k)%Z then (10 ^ (k - 1), n + 1)%Z else (lo + 1, n)%Z in
      let lo_ok := reads_back x lo n k in
      let hi_ok := reads_back x hi hn k in
      if lo_ok && hi_ok then
        match (2 * a ?= (2 * lo + 1) * b)%Z with
        | Lt => (lo, n, k)
        | Gt => (hi, hn, k)
        | Eq => if Z.even lo then (lo, n, k) else (hi, hn, k)
        end
      else if lo_ok then (lo, n, k)
      else if hi_ok then (hi, hn, k)
      else shortest f x num den n (k + 1)%Z
  end.

(** The layout of the digits: plain up to 21 integer digits and down to six
    leading zeros, exponent form beyond. *)
Definition format (s n k : Z) : string :=
  let ds := digits s in
  if ((k <=? n) && (n <=? 21))%Z then ds +:+ zeros (Z.to_nat (n - k))
  else if ((0 <? n) && (n <=? 21))%Z then
    substring 0 (Z.to_nat n) ds +:+ "." +:+
    substring (Z.to_nat n) (Z.to_nat (k - n)) ds
  else if ((-6 <? n) && (n <=? 0))%Z then
    "0." +:+ zeros (Z.to_nat (- n)) +:+ ds
  else
    let e := (n - 1)%Z in
    let es := (if (e <? 0)%Z then "-" else "+") +:+ digits (Z.abs e) in
    if (k =? 1)%Z then ds +:+ "e" +:+ es
    else substring 0 1 ds +:+ "." +:+ substring 1 (Z.to_nat (k - 1)) ds
         +:+ "e" +:+ es.

(** [String(x)] of a Number, as [Array.prototype.join] applies it. *)
Definition NumberToString (x : float) : string :=
  match Prim2SF x with
  | S754_nan => "NaN"
  | S754_zero _ => "0"
  | S754_infinity sg => if sg then "-Infinity" else "Infinity"
  | S754_finite sg m e =>
      let '(num, den) :=
        if (0 <=? e)%Z then (Zpos m * 2 ^ e, 1)%Z else (Zpos m, 2 ^ (- e))%Z in
      let '(s, n, k) := shortest 17 (abs x) num den (decimal_exponent num den) 1 in
      (if sg then "-" else "") +:+ format s n k
  end.

End JS.

(** *** Arrays, [Set] and [Map] *)

Module JSArray.

Local Open Scope float_scope.

Section Sort.
Context {A : Type} (comparefn : A -> A -> float).

(** [x] was before every element of [l]; it moves right past the elements it
    compares greater than ([NaN] counts as equal, like zero). *)
Fixpoint insert (x : A) (l : list A) : list A :=
  match l with
  | [] => [x]
  | y :: l' => if 0 <? comparefn x y then y :: insert x l' else x :: l
  end.

(** [a.sort(comparefn)]: a stable sort.  Every stable sort agrees with this
    one when [comparefn] is a consistent comparator; for other comparators
    (an [a - b] meeting [NaN]) ECMAScript leaves the order to the engine, and
    this model is one such order: it inserts from the right, and an engine
    that inserts from the left orders such an array differently.  What is
    proved of an array with [NaN] is therefore stated for every order, or
    about this order only. *)
Fixpoint sort (l : list A) : list A :=
  match l with
  | [] => []
  | x :: l' => insert x (sort l')
  end.

End Sort.

(** [a[i]] of an array of Numbers where the result goes into arithmetic or a
    comparison: out of range it is [undefined], which reads as [NaN] there. *)
Definition get (a : list float) (i : nat) : float := nth i a nan.

(** [a.reduce((a, b) => a + b, 0)] *)
Definition sum (a : list float) : float := fold_left PrimFloat.add a 0.

Section SetOf.
Context {A : Type} `{EqDecision A}.

Definition Set_add (s : list A) (x : A) : list A :=
  if decide (x ∈ s) then s else s ++ [x].

(** [Array.from(new Set(a))]: the distinct values of [a] in the order of
    their first occurrence. *)
Definition from_Set (a : list A) : list A := fold_left Set_add a [].

End SetOf.

(** A [Map] with string keys, as the list of its entries in insertion
    order. *)
Section MapOf.
Context {V : Type}.

Definition Map_has (k : string) (m : list (string * V)) : bool :=
  existsb (fun e => String.eqb (fst e) k) m.

(** [m.set(k, v)] for a key that [m] does not hold. *)
Definition Map_set_new (k : string) (v : V) (m : list (string * V)) :
  list (string * V) := m ++ [(k, v)].

(** The object [m.get(k)] is changed in place by [f]. *)
Fixpoint Map_update (k : string) (f : V -> V) (m : list (string * V)) :
  list (string * V) :=
  match m with
  | [] => []
  | (k', v) :: m' =>
      if String.eqb k' k then (k', f v) :: m' else (k', v) :: Map_update k f m'
  end.

(** [Array.from(m.values())] *)
Definition Map_values (m : list (string * V)) : list V := map snd m.

End MapOf.

End JSArray.

(** ** [types.ts]

    The interfaces, one module each so that the fields keep their names.
    A field that the interface declares a [string] and that a decoder can
    leave [undefined] (its object literal is cast to the interface) is an
    [option string]; a [number] is a [float]. *)

Module HistoricalData.
Record t : Type := mk {
  id : string;
  partNumber : option string;
  country : option string;
  usdPrice : float;
  quantity : float;
  leadTimeDays : float;
  vendor : option string;
  date : string;
  isOutlier : option bool
}.
End HistoricalData.

Module NegotiatedRate.
Record t : Type := mk {
  partNumber : option string;
  vendor : option string;
  country : option string;
  proposedPrice : float;
  proposedLeadTime : float
}.
End NegotiatedRate.

Module ForecastPoint.
Record t : Type := mk {
  date : option string;
  predictedPrice : float;
  predictedLeadTime : float;
  confidenceIntervalUpper : float;
  confidenceIntervalLower : float
}.
End ForecastPoint.

Inductive Trend : Type := up | down | stable.

Module Summary.
Record t : Type := mk {
  avgPredictedPrice : float;
  avgPredictedLeadTime : float;
  priceTrend : Trend;
  leadTimeTrend : Trend;
  optimizedOrderQuantity : float
}.
End Summary.

Module ForecastResult.
Record t : Type := mk {
  partNumber : option string;
  vendor : option string;
  country : option string;
  forecast : list ForecastPoint.t;
  summary : Summary.t
}.
End ForecastResult.

Module FilterState.
Record t : Type := mk {
  partNumber : option string;
  vendor : option string;
  country : option string
}.
End FilterState.

(** ** [services/dataService.ts] *)

Import JS JSArray.

Local Open Scope float_scope.

Module Cleansed.
Record t : Type := mk {
  cleansed : list HistoricalData.t;
  outlierCount : nat
}.
End Cleansed.

(** The band test of the filter callback,
    [d.usdPrice >= minBound && d.usdPrice <= maxBound]. *)
Definition within (minBound maxBound : float) (d : HistoricalData.t) : bool :=
  (minBound <=? HistoricalData.usdPrice d) && (HistoricalData.usdPrice d <=? maxBound).

(** Array lengths stay below [2^32], so [Math.floor(n / 4)] and
    [Math.floor(n * (3 / 4))] are the integer quotients: [3 / 4] is the
    Number 0.75 and the product is exact. *)
Definition cleanseOutliers (data : list HistoricalData.t) : Cleansed.t :=
  if (length data <? 4)%nat then Cleansed.mk data 0
  else
    let values := sort (fun a b => a - b) (map HistoricalData.usdPrice data) in
    let q1 := get values (length values / 4) in
    let q3 := get values (length values * 3 / 4) in
    let iqr := q3 - q1 in
    let minBound := q1 - 1.5 * iqr in
    let maxBound := q3 + 1.5 * iqr in
    let cleansed := List.filter (within minBound maxBound) data in
    Cleansed.mk cleansed (length data - length cleansed).

Definition newline : ascii := ascii_of_nat 10.
Definition comma : ascii := ","%char.

Definition quoted (s : string) : string :=
  String dquote (s +:+ String dquote EmptyString).

(** The body of [generateSampleCSV] after its first line: [data] is what
    [generateSampleData(100)] returned.  [r.join(',')] turns the Numbers of
    a row into strings. *)
Definition generateSampleCSV (data : list HistoricalData.t) : string :=
  let headers :=
    ["Part Number"; "Country"; "USD Pricing"; "Quantity"; "Lead Time (Days)";
     "Vendor"; "Date"] in
  let rows := map (fun d =>
    [quoted (template (HistoricalData.partNumber d));
     quoted (template (HistoricalData.country d));
     NumberToString (HistoricalData.usdPrice d);
     NumberToString (HistoricalData.quantity d);
     NumberToString (HistoricalData.leadTimeDays d);
     quoted (template (HistoricalData.vendor d));
     HistoricalData.date d]) data in
  join (String newline EmptyString)
       (join "," headers :: map (join ",") rows).

(** [headers.forEach((header, i) => obj[header] = values[i])] on the object
    [obj]: a value missing at position [i] stores [undefined], which reads
    like an absent property. *)
Fixpoint assign (headers values : list string) (obj : gmap string string) :
  gmap string string :=
  match headers with
  | [] => obj
  | h :: hs =>
      assign hs (tail values)
        (match values with
         | v :: _ => <[h := v]> obj
         | [] => delete h obj
         end)
  end.

(** The object built for one data line. *)
Definition row_object (headers : list string) (line : string) :
  gmap string string :=
  assign headers (map (fun v => strip_quotes (trim v)) (split comma line)) ∅.

(** [lines.slice(1).filter(l => l.trim())] *)
Definition data_lines (lines : list string) : list string :=
  List.filter (fun l => negb (is_empty (trim l))) (tail lines).

(** [lines[0].split(',').map(h => h.trim().toLowerCase())], the header
    tokens of the negotiation and forecast files. *)
Definition plain_headers (lines : list string) : list string :=
  map (fun h => toLowerCase (trim h)) (split comma (hd EmptyString lines)).

(** The object literal that the [map] callback of [parseNegotiationCSV]
    returns for the row object [obj]. *)
Definition negotiatedRate_of (obj : gmap string string) : NegotiatedRate.t :=
  {| NegotiatedRate.partNumber := or_else (obj !! "part number") (obj !! "partnumber");
     NegotiatedRate.vendor := obj !! "vendor";
     NegotiatedRate.country := obj !! "country";
     NegotiatedRate.proposedPrice :=
       parseFloat (or_default (or_else (obj !! "proposed price") (obj !! "price")) "0");
     NegotiatedRate.proposedLeadTime :=
       parseInt (or_default (or_else (obj !! "proposed lead time") (obj !! "lead time")) "0")
  |}.

Definition parseNegotiationCSV (csvText : string) : list NegotiatedRate.t :=
  let lines := split newline csvText in
  if (length lines <? 2)%nat then []
  else
    map (fun line => negotiatedRate_of (row_object (plain_headers lines) line))
        (data_lines lines).

Module RawPoint.
Record t : Type := mk {
  partNumber : option string;
  vendor : option string;
  country : option string;
  date : option string;
  predictedPrice : float;
  predictedLeadTime : float;
  confidenceIntervalUpper : float;
  confidenceIntervalLower : float
}.
End RawPoint.

(** The object literal that the first [map] callback of [parseForecastCSV]
    returns for the row object [obj]. *)
Definition rawPoint_of (obj : gmap string string) : RawPoint.t :=
  {| RawPoint.partNumber := or_else (obj !! "part number") (obj !! "partnumber");
     RawPoint.vendor := obj !! "vendor";
     RawPoint.country := obj !! "country";
     RawPoint.date := obj !! "date";
     RawPoint.predictedPrice := parseFloat (or_default (obj !! "predicted price") "0");
     RawPoint.predictedLeadTime := parseInt (or_default (obj !! "predicted lead time") "0");
     RawPoint.confidenceIntervalUpper := parseFloat (or_default (obj !! "confidence upper") "0");
     RawPoint.confidenceIntervalLower := parseFloat (or_default (obj !! "confidence lower") "0")
  |}.

Definition rawPoints (csvText : string) : list RawPoint.t :=
  let lines := split newline csvText in
  map (fun line => rawPoint_of (row_object (plain_headers lines) line)) (data_lines lines).

(** [`${p.partNumber}|${p.vendor}|${p.country}`] *)
Definition group_key (p : RawPoint.t) : string :=
  template (RawPoint.partNumber p) +:+ "|" +:+ template (RawPoint.vendor p)
  +:+ "|" +:+ template (RawPoint.country p).

Definition new_group (p : RawPoint.t) : ForecastResult.t :=
  {| ForecastResult.partNumber := RawPoint.partNumber p;
     ForecastResult.vendor := RawPoint.vendor p;
     ForecastResult.country := RawPoint.country p;
     ForecastResult.forecast := [];
     ForecastResult.summary :=
       {| Summary.avgPredictedPrice := 0;
          Summary.avgPredictedLeadTime := 0;
          Summary.priceTrend := stable;
          Summary.leadTimeTrend := stable;
          Summary.optimizedOrderQuantity := 0 |} |}.

Definition point_of (p : RawPoint.t) : ForecastPoint.t :=
  {| ForecastPoint.date := RawPoint.date p;
     ForecastPoint.predictedPrice := RawPoint.predictedPrice p;
     ForecastPoint.predictedLeadTime := RawPoint.predictedLeadTime p;
     ForecastPoint.confidenceIntervalUpper := RawPoint.confidenceIntervalUpper p;
     ForecastPoint.confidenceIntervalLower := RawPoint.confidenceIntervalLower p |}.

(** [res.forecast.push(point)] *)
Definition push_point (pt : ForecastPoint.t) (res : ForecastResult.t) :
  ForecastResult.t :=
  {| ForecastResult.partNumber := ForecastResult.partNumber res;
     ForecastResult.vendor := ForecastResult.vendor res;
     ForecastResult.country := ForecastResult.country res;
     ForecastResult.forecast := ForecastResult.forecast res ++ [pt];
     ForecastResult.summary := ForecastResult.summary res |}.

(** One turn of [rawPoints.forEach]: the group of the key is made when the
    map has none, then the point is pushed onto it. *)
Definition add_point (groups : list (string * ForecastResult.t)) (p : RawPoint.t) :
  list (string * ForecastResult.t) :=
  let key := group_key p in
  let groups' :=
    if Map_has key groups then groups else Map_set_new key (new_group p) groups in
  Map_update key (push_point (point_of p)) groups'.

(** One turn of [groups.forEach]: the summary of a group is filled in. *)
Definition summarize (res : ForecastResult.t) : ForecastResult.t :=
  let prices := map ForecastPoint.predictedPrice (ForecastResult.forecast res) in
  let leadTimes := map ForecastPoint.predictedLeadTime (ForecastResult.forecast res) in
  let s := ForecastResult.summary res in
  {| ForecastResult.partNumber := ForecastResult.partNumber res;
     ForecastResult.vendor := ForecastResult.vendor res;
     ForecastResult.country := ForecastResult.country res;
     ForecastResult.forecast := ForecastResult.forecast res;
     ForecastResult.summary :=
       {| Summary.avgPredictedPrice := sum prices / of_nat (length prices);
          Summary.avgPredictedLeadTime := sum leadTimes / of_nat (length leadTimes);
          Summary.priceTrend :=
            if (1 <? length prices)%nat then
              let diff := get prices (length prices - 1) - get prices 0 in
              if 0 <? diff then up else if diff <? 0 then down else stable
            else Summary.priceTrend s;
          Summary.leadTimeTrend := Summary.leadTimeTrend s;
          Summary.optimizedOrderQuantity := Summary.optimizedOrderQuantity s |} |}.

Definition parseForecastCSV (csvText : string) : list ForecastResult.t :=
  if (length (split newline csvText) <? 2)%nat then []
  else
    let groups := fold_left add_point (rawPoints csvText) [] in
    Map_values (map (fun e => (fst e, summarize (snd e))) groups).

(** What [parseCSV] reads from its surroundings: the identifier that the
    [i]-th call of [crypto.randomUUID()] returns and the time stamp that
    [new Date().toISOString()] returns at row [i]. *)
Record Env : Type := { randomUUID : nat -> string; now : nat -> string }.

(** The object literal that the [map] callback of [parseCSV] returns for
    the row object [obj] of row [i]. *)
Definition historicalData_of (env : Env) (i : nat) (obj : gmap string string) :
  HistoricalData.t :=
  {| HistoricalData.id := randomUUID env i;
     HistoricalData.partNumber :=
       or_else (or_else (obj !! "part number") (obj !! "partnumber")) (obj !! "sku");
     HistoricalData.country := obj !! "country";
     HistoricalData.usdPrice :=
       parseFloat (or_default (or_else (or_else (obj !! "usd pricing") (obj !! "usd price"))
                                       (obj !! "price")) "0");
     HistoricalData.quantity :=
       parseInt (or_default (or_else (obj !! "quantity") (obj !! "qty")) "0");
     HistoricalData.leadTimeDays :=
       parseInt (or_default (or_else (or_else (obj !! "lead time days") (obj !! "lead time"))
                                     (obj !! "leadtime")) "0");
     HistoricalData.vendor := obj !! "vendor";
     HistoricalData.date := or_default (obj !! "date") (now env i);
     HistoricalData.isOutlier := None
  |}.

(** The header tokens of the historical file, parentheses removed. *)
Definition historical_headers (lines : list string) : list string :=
  map (fun h => strip_parens (toLowerCase (trim h))) (split comma (hd EmptyString lines)).

Definition parseCSV (env : Env) (csvText : string) : list HistoricalData.t :=
  let lines := split newline csvText in
  if (length lines <? 2)%nat then []
  else
    imap (fun i line => historicalData_of env i (row_object (historical_headers lines) line))
         (data_lines lines).

(** ** [App.tsx]: the combinations of [handleGenerateAllForecasts] *)

(** [a === b] on values that are strings or [undefined]. *)
Definition strict_eq (a b : option string) : bool := bool_decide (a = b).

(** The array [combinations] that the handler builds from [activeData] and
    hands to [getBulkForecastsFromAI]. *)
Definition combinations (activeData : list HistoricalData.t) : list FilterState.t :=
  let parts := from_Set (map HistoricalData.partNumber activeData) in
  flat_map (fun p =>
    let filteredByP :=
      List.filter (fun d => strict_eq (HistoricalData.partNumber d) p) activeData in
    let vendorsByP := from_Set (map HistoricalData.vendor filteredByP) in
    flat_map (fun v =>
      let countriesByPV :=
        from_Set (map HistoricalData.country
          (List.filter (fun d => strict_eq (HistoricalData.vendor d) v) filteredByP)) in
      map (fun c => FilterState.mk p v c) countriesByPV) vendorsByP) parts.

(** ** [services/geminiService.ts]: the single-forecast request *)

(** An asynchronous computation that may call the external engine: it ends
    with a value, ends with [throw new Error(message)], or awaits
    [ai.models.generateContent(request)] and goes on with what comes back. *)
Inductive Async (Request Reply A : Type) : Type :=
| Return (a : A)
| Throw (message : string)
| GenerateContent (request : Request) (k : Reply -> Async Request Reply A).
Arguments Return {Request Reply A} a.
Arguments Throw {Request Reply A} message.
Arguments GenerateContent {Request Reply A} request k.

(** What the call is given, beside the fixed instruction and schema: the
    model, the statistics written into the prompt (second version of the
    service only) and the records serialised into it. *)
Module Request.
Record t : Type := mk {
  model : string;
  statistics : option (float * float * float);
  context : list HistoricalData.t
}.
End Request.

(** What comes back: a response with its [text], or an exception with its
    [message] that may be a [SyntaxError]. *)
Module Failure.
Record t : Type := mk { message : option string; isSyntaxError : bool }.
End Failure.

Inductive Reply : Type :=
| Response (text : option string)
| Rejected (error : Failure.t).

Fixpoint includes (needle s : string) : bool :=
  String.prefix needle s ||
  match s with
  | EmptyString => false
  | String _ s' => includes needle s'
  end.

(** [handleAIError]: every exception leaves as one of five errors. *)
Definition handleAIError {Rq Rp A : Type} (error : Failure.t) : Async Rq Rp A :=
  let msg := or_default (option_map toLowerCase (Failure.message error)) EmptyString in
  if includes "429" msg || includes "quota" msg || includes "rate limit" msg then
    Throw "AI Rate Limit Exceeded: The system is currently busy. Please wait a moment before trying again."
  else if includes "503" msg || includes "unavailable" msg || includes "overloaded" msg then
    Throw "AI Service Unavailable: The prediction engine is temporarily offline. Please try again in a few minutes."
  else if includes "api key" msg || includes "401" msg || includes "403" msg then
    Throw "Authentication Error: The AI service could not verify your credentials. Please check your configuration."
  else if Failure.isSyntaxError error then
    Throw "Data Interpretation Error: The AI returned an invalid response format. This may happen with highly unusual data patterns."
  else
    Throw ("AI System Error: " +:+
           or_default (Failure.message error)
             "An unexpected error occurred while processing your request.").

(** [a.slice(-n)] *)
Definition slice_last {A : Type} (n : nat) (a : list A) : list A :=
  skipn (length a - n) a.

Section Gemini.

(** [new Date(s).getTime()] *)
Variable getTime : string -> float.

(** [JSON.parse(text)] read at the response schema: the object, or the
    message of the [SyntaxError] thrown. *)
Variable JSON_parse : string -> ForecastResult.t + string.

Definition matches (filters : FilterState.t) (d : HistoricalData.t) : bool :=
  strict_eq (HistoricalData.partNumber d) (FilterState.partNumber filters)
  && strict_eq (HistoricalData.vendor d) (FilterState.vendor filters)
  && strict_eq (HistoricalData.country d) (FilterState.country filters).

Definition contextData (historicalData : list HistoricalData.t)
  (filters : FilterState.t) : list HistoricalData.t :=
  sort (fun a b => getTime (HistoricalData.date a) - getTime (HistoricalData.date b))
       (List.filter (matches filters) historicalData).

(** The body of the [try] after the call: an empty text and a parse error
    are thrown inside the [try], so they leave through [handleAIError]. *)
Definition on_reply (emptyMessage : string) (filters : FilterState.t)
  (reply : Reply) : Async Request.t Reply ForecastResult.t :=
  match reply with
  | Rejected err => handleAIError err
  | Response text =>
      match text with
      | None => handleAIError (Failure.mk (Some emptyMessage) false)
      | Some txt =>
          if is_empty txt then handleAIError (Failure.mk (Some emptyMessage) false)
          else match JSON_parse txt with
               | inr syntaxError => handleAIError (Failure.mk (Some syntaxError) true)
               | inl parsed =>
                   Return {| ForecastResult.partNumber := FilterState.partNumber filters;
                             ForecastResult.vendor := FilterState.vendor filters;
                             ForecastResult.country := FilterState.country filters;
                             ForecastResult.forecast := ForecastResult.forecast parsed;
                             ForecastResult.summary := ForecastResult.summary parsed |}
               end
      end
  end.

(** The two guards that both versions of the function run before the
    [try].  Before them the function only builds the client object and the
    filtered, sorted context; neither calls the engine. *)
Definition guarded (context : list HistoricalData.t)
  (body : Async Request.t Reply ForecastResult.t) :
  Async Request.t Reply ForecastResult.t :=
  if (length context =? 0)%nat then
    Throw "Missing Historical Data: No records found matching the selected filters."
  else if (length context <? 3)%nat then
    Throw "Insufficient Data: At least 3 historical points are required for a reliable AI forecast."
  else body.

(** First version (24 records of context). *)
Definition getForecastFromAI (historicalData : list HistoricalData.t)
  (filters : FilterState.t) (model : string) :
  Async Request.t Reply ForecastResult.t :=
  let context := contextData historicalData filters in
  guarded context
    (GenerateContent (Request.mk model None (slice_last 24 context))
       (on_reply "Empty AI Response: The engine failed to generate content." filters)).

(** Second version: the prompt also carries the mean price, the relative
    volatility and the last price, and 36 records of context. *)
Definition getForecastFromAI_grounded (historicalData : list HistoricalData.t)
  (filters : FilterState.t) (model : string) :
  Async Request.t Reply ForecastResult.t :=
  let context := contextData historicalData filters in
  guarded context
    (let prices := map HistoricalData.usdPrice context in
     let avgPrice := sum prices / of_nat (length prices) in
     let lastPrice := get prices (length prices - 1) in
     let squares := map (fun x => (x - avgPrice) * (x - avgPrice)) prices in
     let volatility :=
       sqrt (fold_left PrimFloat.add (tail squares) (hd nan squares)
             / of_nat (length prices)) / avgPrice in
     GenerateContent
       (Request.mk model (Some (avgPrice, volatility, lastPrice)) (slice_last 36 context))
       (on_reply "Empty AI Response." filters)).

End Gemini.


(** ** [services/dataService.ts]: [cleanseOutliers] after its sort

    The function from its second statement on, for the array [values] as
    the sort left it.  ECMAScript fixes that order only for a consistent
    comparator; when a price is [NaN] the order is the engine's, and a
    property stated for every [values] holds whatever the engine does. *)
Definition cleanseOutliers_on (values : list float) (data : list HistoricalData.t) :
  Cleansed.t :=
  if (length data <? 4)%nat then Cleansed.mk data 0
  else
    let q1 := get values (length values / 4) in
    let q3 := get values (length values * 3 / 4) in
    let iqr := q3 - q1 in
    let minBound := q1 - 1.5 * iqr in
    let maxBound := q3 + 1.5 * iqr in
    let cleansed := List.filter (within minBound maxBound) data in
    Cleansed.mk cleansed (length data - length cleansed).

(** ** [types.ts]: the benchmark records *)

Module BenchmarkResult.
Record t : Type := mk {
  partNumber : option string;
  vendor : option string;
  country : option string;
  proposedPrice : float;
  proposedLeadTime : float;
  priceStatus : string;
  leadTimeStatus : string;
  confidenceMatch : bool;
  comment : string
}.
End BenchmarkResult.

(** [90 | 95 | 99] *)
Inductive ConfidenceLevel : Type := level90 | level95 | level99.

(** ** [services/geminiService.ts]: the bulk request and the benchmark *)

(** [if (v)] on a value that is a string or [undefined]. *)
Definition truthy (v : option string) : bool :=
  match v with
  | Some s => negb (is_empty s)
  | None => false
  end.

(** [a.slice(i, j)] for [i <= j] *)
Definition slice {A : Type} (i j : nat) (a : list A) : list A :=
  firstn (j - i) (skipn i a).

(** One entry of [batchData]. *)
Module BatchItem.
Record t : Type := mk {
  combo : FilterState.t;
  history : list HistoricalData.t
}.
End BatchItem.

Module BulkRequest.
Record t : Type := mk {
  model : string;
  batchData : list BatchItem.t
}.
End BulkRequest.

(** The bulk function also reports its progress through the callback
    [onProgress] and pauses between two batches.  What it writes to the
    console is left out. *)
Inductive Bulk (A : Type) : Type :=
| Resolve (a : A)
| Reject (message : string)
| Generate (request : BulkRequest.t) (k : Reply -> Bulk A)
| OnProgress (index : nat) (k : Bulk A)
| SetTimeout (ms : nat) (k : Bulk A).
Arguments Resolve {A} a.
Arguments Reject {A} message.
Arguments Generate {A} request k.
Arguments OnProgress {A} index k.
Arguments SetTimeout {A} ms k.

(** [return handleAIError(err)] inside the bulk function. *)
Fixpoint rejected {A : Type} (p : Async BulkRequest.t Reply A) : Bulk A :=
  match p with
  | Return a => Resolve a
  | Throw message => Reject message
  | GenerateContent request k => Generate request (fun reply => rejected (k reply))
  end.

(** The test in the [catch] of the first version: the failures that end the
    whole run. *)
Definition fatal (err : Failure.t) : bool :=
  let msg := or_default (option_map toLowerCase (Failure.message err)) EmptyString in
  includes "429" msg || includes "401" msg || includes "api key" msg.

Section Bulk.

Variable getTime : string -> float.

(** [JSON.parse(text)] and the spread of its value into [results.push]: the
    array read at the response schema, or the exception thrown by either. *)
Variable JSON_parse : string -> list ForecastResult.t + Failure.t.

(** What the two versions differ in: the batch size, the number of records
    of history per combination, the failures that end the run, and what
    follows the loop. *)
Variable BATCH_SIZE : nat.
Variable history_length : nat.
Variable ends_run : Failure.t -> bool.
Variable after_loop : list ForecastResult.t -> Bulk (list ForecastResult.t).

Variable historicalData : list HistoricalData.t.
Variable combinations : list FilterState.t.
Variable model : string.

Definition batchData (batch : list FilterState.t) : list BatchItem.t :=
  map (fun combo =>
         BatchItem.mk combo
           (slice_last history_length (contextData getTime historicalData combo)))
      batch.

(** The [for] loop from index [i] on, with [results] as collected so far.
    [fuel] bounds the number of turns; the loop is run with as many as there
    are combinations, which is never too few since [i] grows each turn. *)
Fixpoint bulk_loop (fuel i : nat) (results : list ForecastResult.t) :
  Bulk (list ForecastResult.t) :=
  match fuel with
  | O => after_loop results
  | S fuel' =>
      if (i <? length combinations)%nat then
        let batch := slice i (i + BATCH_SIZE) combinations in
        let continue results' :=
          OnProgress (Nat.min (i + BATCH_SIZE) (length combinations))
            (SetTimeout 100 (bulk_loop fuel' (i + BATCH_SIZE) results')) in
        let caught err :=
          if ends_run err then rejected (handleAIError err) else continue results in
        Generate (BulkRequest.mk model (batchData batch))
          (fun reply =>
             match reply with
             | Rejected err => caught err
             | Response text =>
                 if truthy text then
                   match JSON_parse (or_default text EmptyString) with
                   | inl batchResults => continue (results ++ batchResults)
                   | inr err => caught err
                   end
                 else continue results
             end)
      else after_loop results
  end.

End Bulk.

(** First version: batches of 10, 6 records of history, a rate-limit or
    credential failure ends the run, and a run that collected nothing
    fails. *)
Definition getBulkForecastsFromAI (getTime : string -> float)
  (JSON_parse : string -> list ForecastResult.t + Failure.t)
  (historicalData : list HistoricalData.t) (combinations : list FilterState.t)
  (model : string) : Bulk (list ForecastResult.t) :=
  bulk_loop getTime JSON_parse 10 6 fatal
    (fun results =>
       if (length results =? 0)%nat && (0 <? length combinations)%nat then
         Reject "Bulk Analysis Failed: The AI engine was unable to process any of the requested data batches."
       else Resolve results)
    historicalData combinations model (length combinations) 0 [].

(** Second version: batches of 8, 12 records of history, every failure of a
    batch is passed over. *)
Definition getBulkForecastsFromAI_ensemble (getTime : string -> float)
  (JSON_parse : string -> list ForecastResult.t + Failure.t)
  (historicalData : list HistoricalData.t) (combinations : list FilterState.t)
  (model : string) : Bulk (list ForecastResult.t) :=
  bulk_loop getTime JSON_parse 8 12 (fun _ => false) Resolve
    historicalData combinations model (length combinations) 0 [].

(** One entry of [baselineContext]; [f.forecast[0]?.x] is [undefined] for a
    forecast without points. *)
Module Baseline.
Record t : Type := mk {
  part : option string;
  vendor : option string;
  country : option string;
  pricing_avg : float;
  pricing_range : option float * option float;
  logistics_avgLeadTime : float;
  logistics_range : float * float;
  logistics_trend : Trend
}.
End Baseline.

Module BenchmarkRequest.
Record t : Type := mk {
  model : string;
  negotiated : list NegotiatedRate.t;
  baselines : list Baseline.t;
  confidenceLevel : ConfidenceLevel
}.
End BenchmarkRequest.

Definition baselineContext (low high : float) (forecasts : list ForecastResult.t) :
  list Baseline.t :=
  map (fun f =>
    let s := ForecastResult.summary f in
    let first := head (ForecastResult.forecast f) in
    {| Baseline.part := ForecastResult.partNumber f;
       Baseline.vendor := ForecastResult.vendor f;
       Baseline.country := ForecastResult.country f;
       Baseline.pricing_avg := Summary.avgPredictedPrice s;
       Baseline.pricing_range :=
         (option_map ForecastPoint.confidenceIntervalLower first,
          option_map ForecastPoint.confidenceIntervalUpper first);
       Baseline.logistics_avgLeadTime := Summary.avgPredictedLeadTime s;
       Baseline.logistics_range :=
         (Summary.avgPredictedLeadTime s * low, Summary.avgPredictedLeadTime s * high);
       Baseline.logistics_trend := Summary.leadTimeTrend s |}) forecasts.

Section Benchmark.

(** [JSON.parse(text)] read at the response schema of the benchmark. *)
Variable JSON_parse : string -> list BenchmarkResult.t + string.

(** First version.  The factors 0.6 and 1.4 are written as the Numbers that
    these literals denote. *)
Definition getBenchmarkAnalysis (negotiated : list NegotiatedRate.t)
  (forecasts : list ForecastResult.t) (confidenceLevel : ConfidenceLevel) :
  Async BenchmarkRequest.t Reply (list BenchmarkResult.t) :=
  if (length negotiated =? 0)%nat then
    Throw "Invalid Input: No negotiated rates provided for benchmarking."
  else
    GenerateContent
      (BenchmarkRequest.mk "gemini-3-pro-preview" negotiated
         (baselineContext 0x1.3333333333333p-1 0x1.6666666666666p+0 forecasts) confidenceLevel)
      (fun reply =>
         match reply with
         | Rejected err => handleAIError err
         | Response text =>
             if truthy text then
               match JSON_parse (or_default text EmptyString) with
               | inl results => Return results
               | inr syntaxError => handleAIError (Failure.mk (Some syntaxError) true)
               end
             else
               handleAIError
                 (Failure.mk
                    (Some "Empty AI Response: The benchmarking engine returned no content.")
                    false)
         end).

(** Second version: no guard, the factors 0.8 and 1.2, and an empty text
    read as ['[]']. *)
Definition getBenchmarkAnalysis_boundary (negotiated : list NegotiatedRate.t)
  (forecasts : list ForecastResult.t) (confidenceLevel : ConfidenceLevel) :
  Async BenchmarkRequest.t Reply (list BenchmarkResult.t) :=
  GenerateContent
    (BenchmarkRequest.mk "gemini-3-pro-preview" negotiated
       (baselineContext 0x1.999999999999ap-1 0x1.3333333333333p+0 forecasts) confidenceLevel)
    (fun reply =>
       match reply with
       | Rejected err => handleAIError err
       | Response text =>
           match JSON_parse (or_default text "[]") with
           | inl results => Return results
           | inr syntaxError => handleAIError (Failure.mk (Some syntaxError) true)
           end
       end).

End Benchmark.

(** ** [App.tsx]: what the component derives from its state *)

(** [uploadedForecasts.reduce((acc, f) => acc + f.forecast.length, 0)]: a sum
    of array lengths, which is exact. *)
Definition totalUploadedPoints (uploadedForecasts : list ForecastResult.t) : nat :=
  fold_left (fun acc f => (acc + length (ForecastResult.forecast f))%nat)
            uploadedForecasts 0%nat.

(** The comparison that [a.sort()] applies without a [comparefn], on strings
    and [undefined]: the order of the code units, [undefined] after every
    string. *)
Definition SortCompare (x y : option string) : float :=
  match x, y with
  | None, None => 0
  | None, Some _ => 1
  | Some _, None => -1
  | Some a, Some b =>
      match String.compare a b with
      | Lt => -1
      | Eq => 0
      | Gt => 1
      end
  end.

(** The three option lists of the filter bar. *)
Definition availableParts (activeData : list HistoricalData.t)
  (filters : FilterState.t) : list (option string) :=
  let filtered := activeData in
  let filtered :=
    if truthy (FilterState.vendor filters) then
      List.filter (fun d => strict_eq (HistoricalData.vendor d) (FilterState.vendor filters))
                  filtered
    else filtered in
  let filtered :=
    if truthy (FilterState.country filters) then
      List.filter (fun d => strict_eq (HistoricalData.country d) (FilterState.country filters))
                  filtered
    else filtered in
  sort SortCompare (from_Set (map HistoricalData.partNumber filtered)).

Definition availableVendors (activeData : list HistoricalData.t)
  (filters : FilterState.t) : list (option string) :=
  let filtered := activeData in
  let filtered :=
    if truthy (FilterState.partNumber filters) then
      List.filter
        (fun d => strict_eq (HistoricalData.partNumber d) (FilterState.partNumber filters))
        filtered
    else filtered in
  let filtered :=
    if truthy (FilterState.country filters) then
      List.filter (fun d => strict_eq (HistoricalData.country d) (FilterState.country filters))
                  filtered
    else filtered in
  sort SortCompare (from_Set (map HistoricalData.vendor filtered)).

Definition availableCountries (activeData : list HistoricalData.t)
  (filters : FilterState.t) : list (option string) :=
  let filtered := activeData in
  let filtered :=
    if truthy (FilterState.partNumber filters) then
      List.filter
        (fun d => strict_eq (HistoricalData.partNumber d) (FilterState.partNumber filters))
        filtered
    else filtered in
  let filtered :=
    if truthy (FilterState.vendor filters) then
      List.filter (fun d => strict_eq (HistoricalData.vendor d) (FilterState.vendor filters))
                  filtered
    else filtered in
  sort SortCompare (from_Set (map HistoricalData.country filtered)).

(** The callback of [allForecasts.find] in the display effect. *)
Definition same_key (filters : FilterState.t) (f : ForecastResult.t) : bool :=
  strict_eq (ForecastResult.partNumber f) (FilterState.partNumber filters)
  && strict_eq (ForecastResult.vendor f) (FilterState.vendor filters)
  && strict_eq (ForecastResult.country f) (FilterState.country filters).

(** The effect on [[filters, allForecasts]]: what [forecast] is after it. *)
Definition display_effect (filters : FilterState.t)
  (allForecasts : list ForecastResult.t) (forecast : option ForecastResult.t) :
  option ForecastResult.t :=
  if truthy (FilterState.partNumber filters) && truthy (FilterState.vendor filters)
     && truthy (FilterState.country filters)
  then List.find (same_key filters) allForecasts
  else forecast.

(** The updater that [handleRunForecast] gives to [setAllForecasts]. *)
Definition upsert (result : ForecastResult.t) (prev : list ForecastResult.t) :
  list ForecastResult.t :=
  let other :=
    List.filter (fun p =>
      negb (strict_eq (ForecastResult.partNumber p) (ForecastResult.partNumber result)
            && strict_eq (ForecastResult.vendor p) (ForecastResult.vendor result)
            && strict_eq (ForecastResult.country p) (ForecastResult.country result)))
      prev in
  other ++ [result].

(** The state that the handlers below write, and their calls of its
    setters. *)
Inductive Tab : Type := trends | benchmark.

Inductive ForecastSource : Type := system | upload.

Module AppState.
Record t : Type := mk {
  activeTab : Tab;
  isAiConnected : bool;
  forecast : option ForecastResult.t;
  allForecasts : list ForecastResult.t;
  loading : bool;
  error : option string;
  benchmarks : list BenchmarkResult.t
}.
End AppState.

Inductive Update : Type :=
| setActiveTab (tab : Tab)
| setIsAiConnected (connected : bool)
| setForecast (forecast : option ForecastResult.t)
| setAllForecasts (updater : list ForecastResult.t -> list ForecastResult.t)
| setLoading (loading : bool)
| setError (error : option string)
| setBenchmarks (benchmarks : list BenchmarkResult.t).

Definition apply_update (s : AppState.t) (u : Update) : AppState.t :=
  match u with
  | setActiveTab tab =>
      AppState.mk tab (AppState.isAiConnected s) (AppState.forecast s)
        (AppState.allForecasts s) (AppState.loading s) (AppState.error s)
        (AppState.benchmarks s)
  | setIsAiConnected connected =>
      AppState.mk (AppState.activeTab s) connected (AppState.forecast s)
        (AppState.allForecasts s) (AppState.loading s) (AppState.error s)
        (AppState.benchmarks s)
  | setForecast forecast =>
      AppState.mk (AppState.activeTab s) (AppState.isAiConnected s) forecast
        (AppState.allForecasts s) (AppState.loading s) (AppState.error s)
        (AppState.benchmarks s)
  | setAllForecasts updater =>
      AppState.mk (AppState.activeTab s) (AppState.isAiConnected s) (AppState.forecast s)
        (updater (AppState.allForecasts s)) (AppState.loading s) (AppState.error s)
        (AppState.benchmarks s)
  | setLoading loading =>
      AppState.mk (AppState.activeTab s) (AppState.isAiConnected s) (AppState.forecast s)
        (AppState.allForecasts s) loading (AppState.error s) (AppState.benchmarks s)
  | setError error =>
      AppState.mk (AppState.activeTab s) (AppState.isAiConnected s) (AppState.forecast s)
        (AppState.allForecasts s) (AppState.loading s) error (AppState.benchmarks s)
  | setBenchmarks benchmarks =>
      AppState.mk (AppState.activeTab s) (AppState.isAiConnected s) (AppState.forecast s)
        (AppState.allForecasts s) (AppState.loading s) (AppState.error s) benchmarks
  end.

(** [try { x = await p; ... } catch (err) { ... }] around a service call:
    what the handler does with the value, and with [err.message]. *)
Fixpoint try_catch {Rq Rp A B : Type} (p : Async Rq Rp A)
  (body : A -> B) (handler : string -> B) : Async Rq Rp B :=
  match p with
  | Return a => Return (body a)
  | Throw message => Return (handler message)
  | GenerateContent request k =>
      GenerateContent request (fun reply => try_catch (k reply) body handler)
  end.

(** A handler: the setters it calls at once, and the setters it calls when
    the service has answered. *)
Definition Handler (Rq : Type) : Type :=
  list Update * Async Rq Reply (list Update).

Section Handlers.

(** [getForecastFromAI] as imported from the service (either version). *)
Variable getForecastFromAI :
  list HistoricalData.t -> FilterState.t -> string ->
  Async Request.t Reply ForecastResult.t.

Definition handleRunForecast (activeData : list HistoricalData.t)
  (filters : FilterState.t) (selectedModel : string) : Handler Request.t :=
  if negb (truthy (FilterState.partNumber filters))
     || negb (truthy (FilterState.vendor filters))
     || negb (truthy (FilterState.country filters))
  then ([], Return [])
  else
    ([setLoading true; setError None; setActiveTab trends],
     try_catch (getForecastFromAI activeData filters selectedModel)
       (fun result =>
          [setIsAiConnected true; setAllForecasts (upsert result);
           setForecast (Some result); setLoading false])
       (fun msg =>
          (if includes "API Key" msg || includes "401" msg || includes "403" msg then
             [setIsAiConnected false;
              setError (Some "AI Connection Failed: The provided API Key is invalid or has expired.")]
           else
             [setError (Some (if is_empty msg
                              then "An unexpected error occurred during forecasting."
                              else msg))])
          ++ [setLoading false])).

(** [getBenchmarkAnalysis] as imported from the service (either version). *)
Variable getBenchmarkAnalysis :
  list NegotiatedRate.t -> list ForecastResult.t -> ConfidenceLevel ->
  Async BenchmarkRequest.t Reply (list BenchmarkResult.t).

Definition runBenchmark (proposedRates : list NegotiatedRate.t)
  (forecastSource : ForecastSource)
  (allForecasts uploadedForecasts : list ForecastResult.t)
  (confidenceLevel : ConfidenceLevel) : Handler BenchmarkRequest.t :=
  if (length proposedRates =? 0)%nat then
    ([setError (Some "Input Required: Please upload negotiated rates first.")], Return [])
  else
    let activeForecasts :=
      match forecastSource with
      | system => allForecasts
      | upload => uploadedForecasts
      end in
    if (length activeForecasts =? 0)%nat then
      ([setError (Some "Baseline Missing: Please ensure you have forecast data available.")],
       Return [])
    else
      ([setLoading true; setError None],
       try_catch (getBenchmarkAnalysis proposedRates activeForecasts confidenceLevel)
         (fun results =>
            [setIsAiConnected true; setBenchmarks results; setLoading false])
         (fun msg =>
            [setError (Some (if is_empty msg then "Benchmark analysis failed." else msg));
             setLoading false])).

End Handlers.

(** ** The second [App]: the effect that clears stale filters *)

(** [a.includes(v)] on an array of strings and [undefined]. *)
Definition Array_includes (a : list (option string)) (v : option string) : bool :=
  existsb (fun x => strict_eq x v) a.

(** The updater that the effect gives to [setFilters]; the three lists are
    those of the render that ran the effect. *)
Definition clear_stale (availableParts availableVendors availableCountries :
                          list (option string)) (prev : FilterState.t) : FilterState.t :=
  let next := prev in
  let next :=
    if truthy (FilterState.partNumber next)
       && negb (Array_includes availableParts (FilterState.partNumber next))
    then FilterState.mk (Some EmptyString) (FilterState.vendor next)
                        (FilterState.country next)
    else next in
  let next :=
    if truthy (FilterState.vendor next)
       && negb (Array_includes availableVendors (FilterState.vendor next))
    then FilterState.mk (FilterState.partNumber next) (Some EmptyString)
                        (FilterState.country next)
    else next in
  let next :=
    if truthy (FilterState.country next)
       && negb (Array_includes availableCountries (FilterState.country next))
    then FilterState.mk (FilterState.partNumber next) (FilterState.vendor next)
                        (Some EmptyString)
    else next in
  next.

(** The filters after the effect, when they are those of the render that ran
    it. *)
Definition stale_filter_effect (activeData : list HistoricalData.t)
  (filters : FilterState.t) : FilterState.t :=
  if (length activeData =? 0)%nat then filters
  else
    clear_stale (availableParts activeData filters) (availableVendors activeData filters)
                (availableCountries activeData filters) filters.

(** ** The second [App]: the export of the forecasts *)

(** An element of a row in [r.join(',')]: [undefined] is written as the
    empty string. *)
Definition join_cell (v : option string) : string :=
  match v with
  | Some s => s
  | None => EmptyString
  end.

(** The text that [exportForecasts] offers for download, if any. *)
Definition exportForecasts (allForecasts : list ForecastResult.t) : option string :=
  if (length allForecasts =? 0)%nat then None
  else
    let headers :=
      ["Part Number"; "Vendor"; "Country"; "Date"; "Predicted Price";
       "Predicted Lead Time"; "Confidence Upper"; "Confidence Lower"] in
    let rows :=
      flat_map (fun f =>
        map (fun pt =>
          [quoted (template (ForecastResult.partNumber f));
           quoted (template (ForecastResult.vendor f));
           quoted (template (ForecastResult.country f));
           join_cell (ForecastPoint.date pt);
           NumberToString (ForecastPoint.predictedPrice pt);
           NumberToString (ForecastPoint.predictedLeadTime pt);
           NumberToString (ForecastPoint.confidenceIntervalUpper pt);
           NumberToString (ForecastPoint.confidenceIntervalLower pt)])
          (ForecastResult.forecast f)) allForecasts in
    Some (join (String newline EmptyString)
               (join "," headers :: map (join ",") rows)).

(** ** Vocabulary of the properties *)

(** A result that is finite and not zero, or infinite, with sign [sx]. *)
Definition signed (sx : bool) (f : spec_float) : Prop :=
  match f with
  | S754_finite s _ _ | S754_infinity s => s = sx
  | _ => False
  end.

(** A list of Numbers in ascending order. *)
Definition ascending (l : list float) : Prop :=
  Sorted (fun a b => (a <=? b) = true) l.

(** The first and third quartile by the index rule of the code: the elements
    at [floor(n/4)] and [floor(3n/4)] of the sorted prices. *)
Definition quartiles (data : list HistoricalData.t) : float * float :=
  let sorted := sort (fun a b => a - b) (map HistoricalData.usdPrice data) in
  (get sorted (length sorted / 4), get sorted (length sorted * 3 / 4)).

(** The closed band [[Q1 - 1.5 IQR, Q3 + 1.5 IQR]]. *)
Definition in_band (q : float * float) (d : HistoricalData.t) : bool :=
  let IQR := snd q - fst q in
  (fst q - 1.5 * IQR <=? HistoricalData.usdPrice d)
  && (HistoricalData.usdPrice d <=? snd q + 1.5 * IQR).


(** A record with a given price, for the examples. *)
Definition priced (p : float) : HistoricalData.t :=
  HistoricalData.mk "id" (Some "A") (Some "US") p 1 1 (Some "V") "2024-01-01" None.

(** The dataset of the specification with one extreme price. *)
Definition one_outlier : list HistoricalData.t :=
  map priced [10; 11; 12; 13; 1000].

(** Five prices with a low tail. *)
Definition low_tail : list HistoricalData.t := map priced [0; 2; 3; 3; 3].

(** A header line followed by a blank line and an empty last line. *)
Definition header_only : string :=
  "Part Number,Vendor,Country" +:+ String newline ("   " +:+ String newline EmptyString).

(** The computation reaches the external engine: it awaits a call.  A
    computation that ends with [Throw] or [Return] has made none. *)
Definition calls_engine {Rq Rp A : Type} (p : Async Rq Rp A) : bool :=
  match p with
  | GenerateContent _ _ => true
  | _ => false
  end.

(** The key of a record. *)
Definition triple_of (d : HistoricalData.t) : FilterState.t :=
  FilterState.mk (HistoricalData.partNumber d) (HistoricalData.vendor d)
                 (HistoricalData.country d).

(** The position at which [x] is first seen in [l] (the length of [l] when
    it never is). *)
Fixpoint first_index {A : Type} `{EqDecision A} (x : A) (l : list A) : nat :=
  match l with
  | [] => 0
  | y :: l' => if decide (y = x) then 0 else S (first_index x l')
  end.

(** The distinct values of a list in the order of their first occurrence,
    by recursion on the list. *)
Fixpoint first_occurrences {A : Type} `{EqDecision A} (l : list A) : list A :=
  match l with
  | [] => []
  | x :: l' =>
      x :: List.filter (fun y => negb (bool_decide (y = x))) (first_occurrences l')
  end.

(** The records of a part, and those of a part and a vendor, in the order of
    the data. *)
Definition records_of_part (p : option string) (data : list HistoricalData.t) :
  list HistoricalData.t :=
  List.filter (fun d => strict_eq (HistoricalData.partNumber d) p) data.

Definition records_of_part_vendor (p v : option string)
  (data : list HistoricalData.t) : list HistoricalData.t :=
  List.filter (fun d => strict_eq (HistoricalData.vendor d) v) (records_of_part p data).

(** Where the part of a triple is first seen in the data, where its vendor
    is first seen among the records of its part, and where its country is
    first seen among the records of its part and vendor. *)
Definition seen_part (data : list HistoricalData.t) (t : FilterState.t) : nat :=
  first_index (FilterState.partNumber t) (map HistoricalData.partNumber data).

Definition seen_vendor (data : list HistoricalData.t) (t : FilterState.t) : nat :=
  first_index (FilterState.vendor t)
    (map HistoricalData.vendor (records_of_part (FilterState.partNumber t) data)).

Definition seen_country (data : list HistoricalData.t) (t : FilterState.t) : nat :=
  first_index (FilterState.country t)
    (map HistoricalData.country
       (records_of_part_vendor (FilterState.partNumber t) (FilterState.vendor t) data)).

(** The order of the enumeration: by first-seen part, then by first-seen
    vendor within the part, then by first-seen country within part and
    vendor. *)
Definition first_seen_before (data : list HistoricalData.t)
  (t1 t2 : FilterState.t) : Prop :=
  (seen_part data t1 < seen_part data t2)%nat
  \/ (FilterState.partNumber t1 = FilterState.partNumber t2
      /\ ((seen_vendor data t1 < seen_vendor data t2)%nat
          \/ (FilterState.vendor t1 = FilterState.vendor t2
              /\ (seen_country data t1 < seen_country data t2)%nat))).

(** The dataset of the specification: part A with vendor V1 in US and vendor
    V2 in DE, part B with vendor V1 in US. *)
Definition keyed (p v c : string) : HistoricalData.t :=
  HistoricalData.mk "id" (Some p) (Some c) 1 1 1 (Some v) "2024-01-01" None.

Definition two_parts : list HistoricalData.t :=
  [keyed "A" "V1" "US"; keyed "A" "V2" "DE"; keyed "B" "V1" "US"].

(** The rows of a forecast file whose key string is [k], in input order. *)
Definition rows_of_key (k : string) (pts : list RawPoint.t) : list RawPoint.t :=
  List.filter (fun p => String.eqb (group_key p) k) pts.

(** The part, vendor and country of the first of some rows. *)
Definition first_fields (rows : list RawPoint.t) :
  option string * option string * option string :=
  match rows with
  | p :: _ => (RawPoint.partNumber p, RawPoint.vendor p, RawPoint.country p)
  | [] => (None, None, None)
  end.

(** The group of a key string before its summary is filled in: the fields
    of its first row, the points of its rows in input order, the summary as
    initialised. *)
Definition group_of (k : string) (pts : list RawPoint.t) : ForecastResult.t :=
  let rows := rows_of_key k pts in
  {| ForecastResult.partNumber := fst (fst (first_fields rows));
     ForecastResult.vendor := snd (fst (first_fields rows));
     ForecastResult.country := snd (first_fields rows);
     ForecastResult.forecast := map point_of rows;
     ForecastResult.summary :=
       {| Summary.avgPredictedPrice := 0;
          Summary.avgPredictedLeadTime := 0;
          Summary.priceTrend := stable;
          Summary.leadTimeTrend := stable;
          Summary.optimizedOrderQuantity := 0 |} |}.

(** The trend the specification reads off a forecast sequence: the price of
    the last point against the price of the first. *)
Definition trend_first_last (forecast : list ForecastPoint.t) : Trend :=
  match forecast with
  | [] => stable
  | first :: _ =>
      let last := List.last forecast first in
      if ForecastPoint.predictedPrice first <? ForecastPoint.predictedPrice last then up
      else if ForecastPoint.predictedPrice last <? ForecastPoint.predictedPrice first then down
      else stable
  end.

(** Two rows of one key with different dates, and two rows whose keys differ
    but whose key strings are both [a|b|c|d]. *)
Definition forecast_header : string :=
  "Part Number,Vendor,Country,Date,Predicted Price,Predicted Lead Time".

Definition same_key_csv : string :=
  forecast_header +:+ String newline
    ("SKU-1,VendorA,USA,2024-02-01,10,5" +:+ String newline
       "SKU-1,VendorA,USA,2024-01-01,13,8").

Definition colliding_csv : string :=
  forecast_header +:+ String newline
    ("a|b,c,d,2024-01-01,1,5" +:+ String newline "a,b|c,d,2024-02-01,3,7").

(** The key of a row and of a result. *)
Definition row_triple (p : RawPoint.t) :
  option string * option string * option string :=
  (RawPoint.partNumber p, RawPoint.vendor p, RawPoint.country p).

Definition result_triple (r : ForecastResult.t) :
  option string * option string * option string :=
  (ForecastResult.partNumber r, ForecastResult.vendor r, ForecastResult.country r).

(** [c] does not occur in [s]. *)
Fixpoint lacks (c : ascii) (s : string) : bool :=
  match s with
  | EmptyString => true
  | String c' s' => negb (Ascii.eqb c' c) && lacks c s'
  end.

(** A string field that the sample format can carry: no comma, no double
    quote, no newline. *)
Definition csv_safe (s : string) : bool :=
  lacks comma s && lacks dquote s && lacks newline s.

(** The code units that [Number::toString] writes. *)
Definition numeric_char (c : ascii) : bool :=
  let n := nat_of_ascii c in
  ((48 <=? n)%nat && (n <=? 57)%nat) || negb (lacks c ".e+-NaInfity").

Fixpoint numeric (s : string) : bool :=
  match s with
  | EmptyString => true
  | String c s' => numeric_char c && numeric s'
  end.

(** The values that the round trip compares. *)
Definition csv_fields (d : HistoricalData.t) :
  option string * option string * option string * string * float * float * float :=
  (HistoricalData.partNumber d, HistoricalData.country d, HistoricalData.vendor d,
   HistoricalData.date d, HistoricalData.usdPrice d, HistoricalData.quantity d,
   HistoricalData.leadTimeDays d).

(** The records that the sample format carries: the part number, country and
    vendor are strings without comma, quote or newline, the part number is
    not empty, the date is such a string too, not empty and without white
    space at either end, and the three Numbers are read back from what
    [String] made of them (for a quantity and a lead time: [parseInt] reads
    back integers below [1e21]). *)
Definition carried (d : HistoricalData.t) : Prop :=
  exists p c v : string,
    HistoricalData.partNumber d = Some p
    /\ HistoricalData.country d = Some c
    /\ HistoricalData.vendor d = Some v
    /\ p <> EmptyString
    /\ csv_safe p = true /\ csv_safe c = true /\ csv_safe v = true
    /\ csv_safe (HistoricalData.date d) = true
    /\ HistoricalData.date d <> EmptyString
    /\ trim (HistoricalData.date d) = HistoricalData.date d
    /\ parseFloat (NumberToString (HistoricalData.usdPrice d)) = HistoricalData.usdPrice d
    /\ parseInt (NumberToString (HistoricalData.quantity d)) = HistoricalData.quantity d
    /\ parseInt (NumberToString (HistoricalData.leadTimeDays d)) = HistoricalData.leadTimeDays d.

(** The surroundings of the examples. *)
Definition example_env : Env :=
  {| randomUUID := fun _ => "00000000-0000-4000-8000-000000000000";
     now := fun _ => "2026-01-01T00:00:00.000Z" |}.

(** The precondition of the round trip as the specification states it: no
    comma, double quote or newline in the four string fields. *)
Definition plain_strings (d : HistoricalData.t) : bool :=
  csv_safe (template (HistoricalData.partNumber d))
  && csv_safe (template (HistoricalData.country d))
  && csv_safe (template (HistoricalData.vendor d))
  && csv_safe (HistoricalData.date d).

(** Records with such strings that the format does not carry: an empty part
    number (as [parseCSV] makes of an empty [sku] cell), a date with a space
    at its end, a quantity that is not an integer.  Then two records that
    the format carries. *)
Definition unnamed_part : HistoricalData.t :=
  HistoricalData.mk "id" (Some EmptyString) (Some "US") 1 1 1 (Some "V") "2024-01-01" None.

Definition padded_date : HistoricalData.t :=
  HistoricalData.mk "id" (Some "A") (Some "US") 1 1 1 (Some "V") "2024-01-01 " None.

Definition half_quantity : HistoricalData.t :=
  HistoricalData.mk "id" (Some "A") (Some "US") 1 2.5 1 (Some "V") "2024-01-01" None.

Definition two_records : list HistoricalData.t :=
  [HistoricalData.mk "a" (Some "SKU-1001") (Some "USA") 145.25 250 14
     (Some "GlobalLogistics Inc") "2024-01-01" None;
   HistoricalData.mk "b" (Some "CHIP-M2") (Some "Vietnam") 88.5 1000 21
     (Some "TechSupply Co") "2024-02-01" None].

(** Text in the numeric columns of the three files. *)
Definition unparseable_historical : string :=
  "Part Number,USD Pricing,Quantity,Lead Time" +:+ String newline "SKU-1,abc,n/a,soon".

Definition unparseable_negotiation : string :=
  "Part Number,Proposed Price,Proposed Lead Time" +:+ String newline "SKU-1,abc,soon".

Definition unparseable_forecast : string :=
  "Part Number,Predicted Price,Predicted Lead Time,Confidence Upper,Confidence Lower"
  +:+ String newline "SKU-1,abc,soon,high,low".

(** A value that [||] passes over: [undefined] or the empty string. *)
Definition falsy (v : option string) : Prop := v = None \/ v = Some EmptyString.

(** The header line and a data line of the sample format, and the header
    tokens that [parseCSV] makes of the header line. *)
Definition sample_header : string :=
  "Part Number,Country,USD Pricing,Quantity,Lead Time (Days),Vendor,Date".

Definition sample_row (d : HistoricalData.t) : string :=
  join ","
    [quoted (template (HistoricalData.partNumber d));
     quoted (template (HistoricalData.country d));
     NumberToString (HistoricalData.usdPrice d);
     NumberToString (HistoricalData.quantity d);
     NumberToString (HistoricalData.leadTimeDays d);
     quoted (template (HistoricalData.vendor d));
     HistoricalData.date d].

Definition sample_tokens : list string :=
  ["part number"; "country"; "usd pricing"; "quantity"; "lead time days";
   "vendor"; "date"].

(** The first cell of a list of alias cells that holds text. *)
Fixpoint first_cell (cells : list (option string)) : option string :=
  match cells with
  | [] => None
  | Some s :: cells' => if is_empty s then first_cell cells' else Some s
  | None :: cells' => first_cell cells'
  end.

(** The lenient reading of a numeric field from its alias cells: 0 when no
    cell holds text, otherwise what [parse] makes of the first cell that
    does. *)
Definition lenient (parse : string -> float) (cells : list (option string)) : float :=
  match first_cell cells with
  | Some raw => parse raw
  | None => 0
  end.

(** The key strings of some rows tell their keys apart. *)
Definition key_faithful (pts : list RawPoint.t) : Prop :=
  forall p q, In p pts -> In q pts ->
    group_key p = group_key q -> row_triple p = row_triple q.

(** The rows of a key, in input order. *)
Definition rows_of_triple (t : option string * option string * option string)
  (pts : list RawPoint.t) : list RawPoint.t :=
  List.filter (fun p => bool_decide (row_triple p = t)) pts.

(** A row whose part, vendor and country are present and hold no [|]. *)
Definition bar_free (p : RawPoint.t) : Prop :=
  exists a b c : string,
    row_triple p = (Some a, Some b, Some c)
    /\ lacks "|" a = true /\ lacks "|" b = true /\ lacks "|" c = true.

(** A decoded field holds neither the cell separator nor the line
    separator. *)
Definition separator_free (v : option string) : Prop :=
  forall s, v = Some s -> lacks comma s = true /\ lacks newline s = true.

(** A line that the decoders pass over: nothing but white space. *)
Definition blank (line : string) : bool := is_empty (trim line).

(** The text of a file from its lines. *)
Definition text_of_lines (lines : list string) : string :=
  join (String newline EmptyString) lines.

(** The key string of a result, built like the key string of a row. *)
Definition result_key (r : ForecastResult.t) : string :=
  template (ForecastResult.partNumber r) +:+ "|" +:+ template (ForecastResult.vendor r)
  +:+ "|" +:+ template (ForecastResult.country r).

(** A file with blank lines between its rows, and a row with more cells than
    the header has columns. *)
Definition spaced_rows : list string :=
  ["SKU-1,VendorA,USA,10,5"; "   "; EmptyString; "SKU-2,VendorB,DE,12,7"].

Definition negotiation_header : string :=
  "Part Number,Vendor,Country,Proposed Price,Proposed Lead Time".

(** Four records at one price. *)
Definition flat_prices : list HistoricalData.t := map priced [5; 5; 5; 5].

(** The order of [a.sort()] on strings and [undefined]: the code units
    decide, and [undefined] comes after every string. *)
Definition sort_le (x y : option string) : Prop :=
  match x, y with
  | _, None => True
  | None, Some _ => False
  | Some a, Some b => String.leb a b = true
  end.

(** A filter lets a field through: it is not set, or the field is equal to
    it. *)
Definition passes (filter_value field : option string) : Prop :=
  truthy filter_value = true -> field = filter_value.

(** A selection of the examples. *)
Definition A_V1_US : FilterState.t := FilterState.mk (Some "A") (Some "V1") (Some "US").

(** The key of a result as a filter state. *)
Definition key_of (r : ForecastResult.t) : FilterState.t :=
  FilterState.mk (ForecastResult.partNumber r) (ForecastResult.vendor r)
                 (ForecastResult.country r).

(** ** Runs *)

(** A run of an asynchronous computation against an engine that answers the
    [n]-th call with [engine n request]: the requests made, in order, and
    the value returned or the message thrown. *)
Fixpoint run {Rq Rp A : Type} (engine : nat -> Rq -> Rp) (n : nat)
  (p : Async Rq Rp A) : list Rq * (A + string) :=
  match p with
  | Return a => ([], inl a)
  | Throw message => ([], inr message)
  | GenerateContent request k =>
      let r := run engine (S n) (k (engine n request)) in
      (request :: fst r, snd r)
  end.

(** A run of a handler from the state [s], when nothing else writes the
    state meanwhile: the requests made and the state at the end.  A handler
    that would let an exception escape leaves the state as its first setters
    made it. *)
Definition run_handler {Rq : Type} (engine : nat -> Rq -> Reply) (h : Handler Rq)
  (s : AppState.t) : list Rq * AppState.t :=
  let s1 := fold_left apply_update (fst h) s in
  let r := run engine 0 (snd h) in
  (fst r,
   match snd r with
   | inl updates => fold_left apply_update updates s1
   | inr _ => s1
   end).

(** The three filters are set. *)
Definition complete (filters : FilterState.t) : bool :=
  truthy (FilterState.partNumber filters) && truthy (FilterState.vendor filters)
  && truthy (FilterState.country filters).

(** What a run of [handleRunForecast] with the filters [filters] makes of
    the state [s]: with a filter not set, no request and the same state;
    otherwise at most one request, the trends tab, no loading flag, and
    either the new forecast [r] under the key of the filters (shown, cached
    once under that key, what the display effect finds, no error) or an
    error message with the cache and the forecast shown as they were. *)
Definition forecast_run (filters : FilterState.t) (s : AppState.t)
  (r : list Request.t * AppState.t) : Prop :=
  let s' := snd r in
  if complete filters then
    (length (fst r) <= 1)%nat
    /\ AppState.loading s' = false
    /\ AppState.activeTab s' = trends
    /\ ((exists result,
           AppState.forecast s' = Some result
           /\ key_of result = filters
           /\ List.filter (same_key filters) (AppState.allForecasts s') = [result]
           /\ display_effect filters (AppState.allForecasts s') (AppState.forecast s')
              = Some result
           /\ AppState.error s' = None
           /\ AppState.isAiConnected s' = true)
        \/ (exists message,
              AppState.error s' = Some message
              /\ message <> EmptyString
              /\ AppState.allForecasts s' = AppState.allForecasts s
              /\ AppState.forecast s' = AppState.forecast s))
  else fst r = [] /\ s' = s.

(** What a run of [runBenchmark] makes of the state [s]: without negotiated
    rates, or without forecasts of the chosen source, no request and only
    the error message set; otherwise exactly one request that carries the
    rates and one baseline per forecast, no loading flag, and either the
    results with no error, or an error message with the benchmarks as they
    were. *)
Definition benchmark_run (proposedRates : list NegotiatedRate.t)
  (activeForecasts : list ForecastResult.t) (s : AppState.t)
  (r : list BenchmarkRequest.t * AppState.t) : Prop :=
  let s' := snd r in
  match proposedRates, activeForecasts with
  | [], _ =>
      fst r = []
      /\ s' = apply_update s
                (setError (Some "Input Required: Please upload negotiated rates first."))
  | _ :: _, [] =>
      fst r = []
      /\ s' = apply_update s
                (setError
                   (Some "Baseline Missing: Please ensure you have forecast data available."))
  | _ :: _, _ :: _ =>
      (exists request,
         fst r = [request]
         /\ BenchmarkRequest.negotiated request = proposedRates
         /\ map (fun b => (Baseline.part b, Baseline.vendor b, Baseline.country b))
                (BenchmarkRequest.baselines request)
            = map result_triple activeForecasts)
      /\ AppState.loading s' = false
      /\ ((AppState.error s' = None /\ AppState.isAiConnected s' = true)
          \/ (exists message,
                AppState.error s' = Some message
                /\ message <> EmptyString
                /\ AppState.benchmarks s' = AppState.benchmarks s))
  end.

(** A state and an engine for the examples. *)
Definition initial_state : AppState.t :=
  AppState.mk trends false None [] false None [].

Definition silent_engine {Rq : Type} (n : nat) (request : Rq) : Reply :=
  Response None.

(** The forecasts that [runBenchmark] compares against. *)
Definition chosen_forecasts (forecastSource : ForecastSource)
  (allForecasts uploadedForecasts : list ForecastResult.t) : list ForecastResult.t :=
  match forecastSource with
  | system => allForecasts
  | upload => uploadedForecasts
  end.

(** The five messages of [handleAIError]. *)
Definition categorized (message : string) : Prop :=
  message = "AI Rate Limit Exceeded: The system is currently busy. Please wait a moment before trying again."
  \/ message = "AI Service Unavailable: The prediction engine is temporarily offline. Please try again in a few minutes."
  \/ message = "Authentication Error: The AI service could not verify your credentials. Please check your configuration."
  \/ message = "Data Interpretation Error: The AI returned an invalid response format. This may happen with highly unusual data patterns."
  \/ exists raw, message = "AI System Error: " +:+ raw.

(** A run that made a request and failed did so with one of the five
    messages. *)
Definition fails_categorized {Rq A : Type} (r : list Rq * (A + string)) : Prop :=
  forall message, fst r <> [] -> snd r = inr message -> categorized message.

(** ** Runs of the bulk request *)

(** What a run of the bulk function shows: the requests with the engine's
    answers, the indices given to [onProgress], both in order, and the value
    returned or the message thrown. *)
Module Trace.
Record t (A : Type) : Type := mk {
  exchanges : list (BulkRequest.t * Reply);
  progress : list nat;
  outcome : A + string
}.
Arguments mk {A} exchanges progress outcome.
Arguments exchanges {A} t.
Arguments progress {A} t.
Arguments outcome {A} t.
End Trace.

Fixpoint run_bulk {A : Type} (engine : nat -> BulkRequest.t -> Reply) (n : nat)
  (p : Bulk A) : Trace.t A :=
  match p with
  | Resolve a => Trace.mk [] [] (inl a)
  | Reject message => Trace.mk [] [] (inr message)
  | Generate request k =>
      let t := run_bulk engine (S n) (k (engine n request)) in
      Trace.mk ((request, engine n request) :: Trace.exchanges t)
               (Trace.progress t) (Trace.outcome t)
  | OnProgress index k =>
      let t := run_bulk engine n k in
      Trace.mk (Trace.exchanges t) (index :: Trace.progress t) (Trace.outcome t)
  | SetTimeout _ k => run_bulk engine n k
  end.

(** The combinations that the requests of a run carry, batch by batch. *)
Definition batches {A : Type} (t : Trace.t A) : list (list FilterState.t) :=
  map (fun e => map BatchItem.combo (BulkRequest.batchData (fst e))) (Trace.exchanges t).

(** What an answer adds to the results, and the exception that handling it
    raises, if any. *)
Definition collected (JSON_parse : string -> list ForecastResult.t + Failure.t)
  (reply : Reply) : list ForecastResult.t :=
  match reply with
  | Response text =>
      if truthy text then
        match JSON_parse (or_default text EmptyString) with
        | inl batchResults => batchResults
        | inr _ => []
        end
      else []
  | Rejected _ => []
  end.

Definition failure_of (JSON_parse : string -> list ForecastResult.t + Failure.t)
  (reply : Reply) : option Failure.t :=
  match reply with
  | Response text =>
      if truthy text then
        match JSON_parse (or_default text EmptyString) with
        | inl _ => None
        | inr err => Some err
        end
      else None
  | Rejected err => Some err
  end.

(** The results that the answers of a run add up to. *)
Definition results_of (JSON_parse : string -> list ForecastResult.t + Failure.t)
  {A : Type} (t : Trace.t A) : list ForecastResult.t :=
  flat_map (fun e => collected JSON_parse (snd e)) (Trace.exchanges t).

(** An answer whose handling raises an exception that the first version
    takes as the end of the run. *)
Definition ends_bulk (JSON_parse : string -> list ForecastResult.t + Failure.t)
  (reply : Reply) : bool :=
  match failure_of JSON_parse reply with
  | Some err => fatal err
  | None => false
  end.

(** The indices that [onProgress] is given after [m] batches of size [size]
    out of [n] combinations. *)
Definition progress_after (size n m : nat) : list nat :=
  map (fun j => Nat.min (j * size + size) n) (seq 0 m).

(** A computation that only returns or throws. *)
Definition terminal {A : Type} (o : A + string) : Bulk A :=
  match o with
  | inl a => Resolve a
  | inr message => Reject message
  end.

(** ** The export of the forecasts read back *)

(** The header line of the export, its tokens as [parseForecastCSV] reads
    them, and the line of a point of the forecast [f]. *)
Definition export_header : string :=
  "Part Number,Vendor,Country,Date,Predicted Price,Predicted Lead Time,Confidence Upper,Confidence Lower".

Definition export_tokens : list string :=
  ["part number"; "vendor"; "country"; "date"; "predicted price";
   "predicted lead time"; "confidence upper"; "confidence lower"].

Definition export_row (f : ForecastResult.t) (pt : ForecastPoint.t) : string :=
  join ","
    [quoted (template (ForecastResult.partNumber f));
     quoted (template (ForecastResult.vendor f));
     quoted (template (ForecastResult.country f));
     join_cell (ForecastPoint.date pt);
     NumberToString (ForecastPoint.predictedPrice pt);
     NumberToString (ForecastPoint.predictedLeadTime pt);
     NumberToString (ForecastPoint.confidenceIntervalUpper pt);
     NumberToString (ForecastPoint.confidenceIntervalLower pt)].

(** A point that the export format carries: its date is a string without
    comma, quote or newline and without white space at either end, and its
    four Numbers are read back from what [String] made of them (for the
    lead time by [parseInt], so it is an integer). *)
Definition point_carried (pt : ForecastPoint.t) : Prop :=
  exists d : string,
    ForecastPoint.date pt = Some d
    /\ csv_safe d = true
    /\ trim d = d
    /\ parseFloat (NumberToString (ForecastPoint.predictedPrice pt))
       = ForecastPoint.predictedPrice pt
    /\ parseInt (NumberToString (ForecastPoint.predictedLeadTime pt))
       = ForecastPoint.predictedLeadTime pt
    /\ parseFloat (NumberToString (ForecastPoint.confidenceIntervalUpper pt))
       = ForecastPoint.confidenceIntervalUpper pt
    /\ parseFloat (NumberToString (ForecastPoint.confidenceIntervalLower pt))
       = ForecastPoint.confidenceIntervalLower pt.

(** A forecast that the export format carries: its part number, vendor and
    country are strings without comma, quote or newline, the part number is
    not empty, and it has at least one point, all of them carried. *)
Definition exportable (f : ForecastResult.t) : Prop :=
  exists p v c : string,
    ForecastResult.partNumber f = Some p
    /\ ForecastResult.vendor f = Some v
    /\ ForecastResult.country f = Some c
    /\ p <> EmptyString
    /\ csv_safe p = true /\ csv_safe v = true /\ csv_safe c = true
    /\ ForecastResult.forecast f <> []
    /\ List.Forall point_carried (ForecastResult.forecast f).

(** The forecast with its summary computed afresh from its points, as
    [parseForecastCSV] computes it. *)
Definition reimported (f : ForecastResult.t) : ForecastResult.t :=
  summarize
    {| ForecastResult.partNumber := ForecastResult.partNumber f;
       ForecastResult.vendor := ForecastResult.vendor f;
       ForecastResult.country := ForecastResult.country f;
       ForecastResult.forecast := ForecastResult.forecast f;
       ForecastResult.summary :=
         {| Summary.avgPredictedPrice := 0;
            Summary.avgPredictedLeadTime := 0;
            Summary.priceTrend := stable;
            Summary.leadTimeTrend := stable;
            Summary.optimizedOrderQuantity := 0 |} |}.

(** The row of a point of the forecast [f] as [parseForecastCSV] holds it. *)
Definition raw_of (f : ForecastResult.t) (pt : ForecastPoint.t) : RawPoint.t :=
  {| RawPoint.partNumber := ForecastResult.partNumber f;
     RawPoint.vendor := ForecastResult.vendor f;
     RawPoint.country := ForecastResult.country f;
     RawPoint.date := ForecastPoint.date pt;
     RawPoint.predictedPrice := ForecastPoint.predictedPrice pt;
     RawPoint.predictedLeadTime := ForecastPoint.predictedLeadTime pt;
     RawPoint.confidenceIntervalUpper := ForecastPoint.confidenceIntervalUpper pt;
     RawPoint.confidenceIntervalLower := ForecastPoint.confidenceIntervalLower pt |}.

(** Two forecasts for the examples. *)
Definition two_forecasts : list ForecastResult.t :=
  [ForecastResult.mk (Some "SKU-1001") (Some "GlobalLogistics Inc") (Some "USA")
     [ForecastPoint.mk (Some "2024-01-01") 145.25 14 150.5 140;
      ForecastPoint.mk (Some "2024-02-01") 146.5 15 152 141]
     (Summary.mk 0 0 stable stable 0);
   ForecastResult.mk (Some "CHIP-M2") (Some "TechSupply Co") (Some "Vietnam")
     [ForecastPoint.mk (Some "2024-01-01") 88.5 21 92 85]
     (Summary.mk 88.5 21 stable stable 500)].

(** ** What the engine is sent *)

(** Records of the data, at least [least] and at most [most] of them, all
    with the key [key]. *)
Definition history_for (data : list HistoricalData.t) (least most : nat)
  (key : FilterState.t) (history : list HistoricalData.t) : Prop :=
  (least <= length history <= most)%nat
  /\ List.Forall (fun d => In d data /\ triple_of d = key) history.

(** ** The filters and the option lists *)

(** Every filter that is set is an entry of its option list. *)
Definition offered (data : list HistoricalData.t) (filters : FilterState.t) : Prop :=
  (truthy (FilterState.partNumber filters) = true ->
   In (FilterState.partNumber filters) (availableParts data filters))
  /\ (truthy (FilterState.vendor filters) = true ->
      In (FilterState.vendor filters) (availableVendors data filters))
  /\ (truthy (FilterState.country filters) = true ->
      In (FilterState.country filters) (availableCountries data filters)).

(** The filters [after] are the filters [before] with some of them
    cleared. *)
Definition cleared (before after : FilterState.t) : Prop :=
  (FilterState.partNumber after = FilterState.partNumber before
   \/ FilterState.partNumber after = Some EmptyString)
  /\ (FilterState.vendor after = FilterState.vendor before
      \/ FilterState.vendor after = Some EmptyString)
  /\ (FilterState.country after = FilterState.country before
      \/ FilterState.country after = Some EmptyString).

(** The request of turn [j] of the loop of the bulk function when the loop
    starts at index [i], and an exchange whose answer lets the run go on. *)
Definition turn_request (getTime : string -> float) (history_length : nat)
  (historicalData : list HistoricalData.t) (combinations : list FilterState.t)
  (model : string) (BATCH_SIZE i j : nat) : BulkRequest.t :=
  BulkRequest.mk model
    (batchData getTime history_length historicalData
       (slice (i + j * BATCH_SIZE) (i + j * BATCH_SIZE + BATCH_SIZE) combinations)).

Definition goes_on (JSON_parse : string -> list ForecastResult.t + Failure.t)
  (ends_run : Failure.t -> bool) (e : BulkRequest.t * Reply) : Prop :=
  match failure_of JSON_parse (snd e) with
  | Some err => ends_run err
  | None => false
  end = false.

(** ** More records for the examples *)

(** Records with plain strings that the sample format does not carry: a
    price of negative zero, a lead time that is not an integer, an empty
    date. *)
Definition negative_zero_price : HistoricalData.t :=
  HistoricalData.mk "id" (Some "A") (Some "US") neg_zero 1 1 (Some "V") "2024-01-01" None.

Definition half_lead_time : HistoricalData.t :=
  HistoricalData.mk "id" (Some "A") (Some "US") 1 1 2.5 (Some "V") "2024-01-01" None.

Definition undated : HistoricalData.t :=
  HistoricalData.mk "id" (Some "A") (Some "US") 1 1 1 (Some "V") EmptyString None.

(** A historical file with an empty [sku] cell, the price [-0], a quantity
    of 22 digits and a quoted date with a space at its end, and the record
    that [parseCSV] returns from it. *)
Definition odd_upload : string :=
  "SKU,Country,USD Price,Qty,Lead Time,Vendor,Date" +:+ String newline
    (",US,-0,1000000000000000000000,1,V," +:+ quoted "2024-01-01 ").

Definition uploaded_odd : HistoricalData.t :=
  HistoricalData.mk "00000000-0000-4000-8000-000000000000" (Some EmptyString)
    (Some "US") neg_zero 1e21 1 (Some "V") "2024-01-01 " None.

(** Five records, the first with the price [NaN]. *)
Definition nan_first : list HistoricalData.t := map priced [nan; 1; 2; 3; 4].


(** * Properties *)

(** ** IEEE 754 facts about Number arithmetic

    The sign of a difference [a - b] tells how [a] and [b] compare: the
    difference of two finite Numbers is a multiple of the least positive
    Number, so rounding never takes it to zero. *)

Module IEEE.

Local Open Scope Z_scope.

Lemma digits2_lower (p : positive) : 2 ^ (Zpos (digits2_pos p) - 1) <= Zpos p.
Proof.
  induction p as [p IH|p IH|]; simpl digits2_pos;
    rewrite ?Pos2Z.inj_succ; [| |simpl; lia].
  - replace (Z.succ (Zpos (digits2_pos p)) - 1) with (Z.succ (Zpos (digits2_pos p) - 1)) by lia.
    rewrite Z.pow_succ_r by lia. lia.
  - replace (Z.succ (Zpos (digits2_pos p)) - 1) with (Z.succ (Zpos (digits2_pos p) - 1)) by lia.
    rewrite Z.pow_succ_r by lia. lia.
Qed.

Lemma digits2_upper (p : positive) : Zpos p < 2 ^ Zpos (digits2_pos p).
Proof.
  induction p as [p IH|p IH|]; simpl digits2_pos;
    rewrite ?Pos2Z.inj_succ, ?Z.pow_succ_r by lia; lia.
Qed.

Lemma shr_1_div2 (mrs : shr_record) :
  0 <= shr_m mrs -> shr_m (shr_1 mrs) = shr_m mrs / 2.
Proof.
  destruct mrs as [m r s]. simpl. intros H.
  rewrite <- Z.div2_div.
  destruct m as [|[p|p|]|p]; try reflexivity; lia.
Qed.

Lemma iter_shr_1 (n : positive) : forall mrs : shr_record,
  0 <= shr_m mrs -> shr_m (SpecFloat.iter_pos shr_1 n mrs) = shr_m mrs / 2 ^ Zpos n.
Proof.
  induction n as [n IH|n IH|]; intros mrs H; simpl SpecFloat.iter_pos.
  - assert (H1 : 0 <= shr_m (shr_1 mrs)).
    { rewrite shr_1_div2 by assumption. apply Z.div_pos; lia. }
    assert (H2 : 0 <= shr_m (SpecFloat.iter_pos shr_1 n (shr_1 mrs))).
    { rewrite IH by assumption. apply Z.div_pos; lia. }
    rewrite (IH _ H2), (IH _ H1), shr_1_div2 by assumption.
    rewrite !Z.div_div by (try apply Z.mul_pos_pos; lia).
    f_equal. change (Zpos n~1) with (2 * Zpos n + 1).
    replace (2 * Zpos n + 1) with (1 + Zpos n + Zpos n) by lia.
    rewrite !Z.pow_add_r by lia. lia.
  - assert (H2 : 0 <= shr_m (SpecFloat.iter_pos shr_1 n mrs)).
    { rewrite IH by assumption. apply Z.div_pos; lia. }
    rewrite (IH _ H2), (IH _ H).
    rewrite Z.div_div by lia.
    f_equal. change (Zpos n~0) with (2 * Zpos n).
    replace (2 * Zpos n) with (Zpos n + Zpos n) by lia.
    rewrite Z.pow_add_r by lia. lia.
  - now rewrite shr_1_div2.
Qed.

Lemma shr_m_of_loc (m : Z) (l : location) : shr_m (shr_record_of_loc m l) = m.
Proof. destruct l as [|[| |]]; reflexivity. Qed.

Abbreviation emin := (-1074).

Lemma shr_fexp_pos (m e : Z) (l : location) :
  0 < m -> emin <= e ->
  0 < shr_m (fst (shr_fexp prec emax m e l)) /\ emin <= snd (shr_fexp prec emax m e l).
Proof.
  intros Hm He. unfold shr_fexp, shr.
  destruct m as [|p|p]; try lia.
  pose proof (digits2_lower p) as Hlo.
  unfold Zdigits2, fexp, SpecFloat.emin, prec, emax in *.
  destruct (Z.max (Zpos (digits2_pos p) + e - 53) (3 - 1024 - 53) - e) as [|q|q] eqn:En;
    simpl fst; simpl snd; rewrite ?shr_m_of_loc; try lia.
  rewrite iter_shr_1 by (rewrite shr_m_of_loc; lia).
  rewrite shr_m_of_loc. split; [|lia].
  assert (Hq : Zpos q <= Zpos (digits2_pos p) - 1) by lia.
  apply Z.div_str_pos. split; [apply Z.pow_pos_nonneg; lia|].
  etransitivity; [|exact Hlo]. apply Z.pow_le_mono_r; lia.
Qed.

Lemma round_nearest_even_pos (m : Z) (l : location) :
  0 < m -> 0 < round_nearest_even m l.
Proof.
  intros H. destruct l as [|[| |]]; simpl; try assumption; try lia.
  destruct (Z.even m); lia.
Qed.

Lemma binary_round_aux_signed (sx : bool) (m e : Z) (l : location) :
  0 < m -> emin <= e -> signed sx (binary_round_aux prec emax sx m e l).
Proof.
  intros Hm He. unfold binary_round_aux.
  destruct (shr_fexp_pos m e l Hm He) as [H1 H2].
  destruct (shr_fexp prec emax m e l) as [mrs' e']. simpl in H1, H2.
  pose proof (round_nearest_even_pos _ (loc_of_shr_record mrs') H1) as H3.
  destruct (shr_fexp_pos _ _ loc_Exact H3 H2) as [H4 _].
  destruct (shr_fexp prec emax _ e' loc_Exact) as [mrs'' e'']. simpl in H4.
  destruct (shr_m mrs'') as [|p|p]; try lia.
  destruct (e'' <=? emax - prec); reflexivity.
Qed.

Lemma binary_round_signed (sx : bool) (m : positive) (e : Z) :
  emin <= e -> signed sx (binary_round prec emax sx m e).
Proof.
  intros He. unfold binary_round.
  destruct (shl_align m e _) as [mz ez] eqn:E.
  apply binary_round_aux_signed; [lia|].
  unfold shl_align in E.
  destruct (fexp prec emax (Zpos (digits2_pos m) + e) - e) as [|q|q] eqn:En;
    inversion E; subst; try assumption.
  unfold fexp, SpecFloat.emin, prec, emax. lia.
Qed.

(** The sign of a rounded integer multiple of [2^e], [e] not below the least
    exponent. *)
Lemma binary_normalize_compare (d e : Z) :
  emin <= e ->
  SFcompare (binary_normalize prec emax d e false) (S754_zero false) = Some (d ?= 0).
Proof.
  intros He. destruct d as [|p|p]; simpl binary_normalize.
  - reflexivity.
  - pose proof (binary_round_signed false p e He) as H.
    destruct (binary_round prec emax false p e) as [s| s| |s m' e']; simpl in H;
      try contradiction; subst; reflexivity.
  - pose proof (binary_round_signed true p e He) as H.
    destruct (binary_round prec emax true p e) as [s| s| |s m' e']; simpl in H;
      try contradiction; subst; reflexivity.
Qed.

Lemma bounded_canonical (m : positive) (e : Z) :
  bounded prec emax m e = true ->
  emin <= e /\ Zpos (digits2_pos m) <= 53 /\ (emin < e -> Zpos (digits2_pos m) = 53).
Proof.
  unfold bounded, canonical_mantissa, fexp, SpecFloat.emin, prec, emax.
  intros H. apply andb_prop in H as [H _]. apply Z.eqb_eq in H. lia.
Qed.

Lemma iter_xO (d m : positive) : Zpos (Pos.iter xO m d) = Zpos m * 2 ^ Zpos d.
Proof.
  induction d as [|d IH] using Pos.peano_ind.
  - simpl. lia.
  - rewrite Pos.iter_succ, Pos2Z.inj_succ, Z.pow_succ_r by lia.
    rewrite Pos2Z.inj_xO, IH. lia.
Qed.

Lemma shl_align_value (m : positive) (e ez : Z) :
  ez <= e -> Zpos (fst (shl_align m e ez)) = Zpos m * 2 ^ (e - ez).
Proof.
  intros H. unfold shl_align.
  destruct (ez - e) as [|q|q] eqn:E; simpl fst.
  - replace (e - ez) with 0 by lia. lia.
  - lia.
  - rewrite iter_xO. f_equal. f_equal. lia.
Qed.

(** Canonical positive Numbers compare like their exponents, then like
    their mantissas. *)
Lemma aligned_compare (mx my : positive) (ex ey : Z) :
  bounded prec emax mx ex = true -> bounded prec emax my ey = true ->
  (Zpos (fst (shl_align mx ex (Z.min ex ey))) ?= Zpos (fst (shl_align my ey (Z.min ex ey))))
  = match ex ?= ey with
    | Lt => Lt
    | Gt => Gt
    | Eq => Pos.compare_cont Eq mx my
    end.
Proof.
  intros Hx Hy.
  destruct (bounded_canonical _ _ Hx) as (Hex & Hdx & Hnx).
  destruct (bounded_canonical _ _ Hy) as (Hey & Hdy & Hny).
  pose proof (digits2_lower mx) as Lx. pose proof (digits2_upper mx) as Ux.
  pose proof (digits2_lower my) as Ly. pose proof (digits2_upper my) as Uy.
  rewrite !shl_align_value by lia.
  assert (P53 : forall d, d <= 53 -> 2 ^ d <= 2 ^ 53)
    by (intros d Hd; apply Z.pow_le_mono_r; lia).
  assert (P2 : forall k, 1 <= k -> 2 * 1 <= 2 ^ k).
  { intros k Hk. change (2 * 1) with (2 ^ 1). apply Z.pow_le_mono_r; lia. }
  destruct (Z.compare_spec ex ey) as [E|E|E].
  - subst ey. rewrite Z.min_id, Z.sub_diag. simpl (2 ^ 0). rewrite !Z.mul_1_r.
    reflexivity.
  - rewrite Z.min_l by lia. rewrite Z.sub_diag. simpl (2 ^ 0). rewrite Z.mul_1_r.
    apply Z.compare_lt_iff.
    rewrite (Hny ltac:(lia)) in Ly. change (2 ^ (53 - 1)) with 4503599627370496 in Ly.
    specialize (P53 _ Hdx). change (2 ^ 53) with 9007199254740992 in P53.
    specialize (P2 (ey - ex) ltac:(lia)). nia.
  - rewrite Z.min_r by lia. rewrite Z.sub_diag. simpl (2 ^ 0). rewrite Z.mul_1_r.
    apply Z.compare_gt_iff.
    rewrite (Hnx ltac:(lia)) in Lx. change (2 ^ (53 - 1)) with 4503599627370496 in Lx.
    specialize (P53 _ Hdy). change (2 ^ 53) with 9007199254740992 in P53.
    specialize (P2 (ex - ey) ltac:(lia)). nia.
Qed.

Lemma SFcompare_finite (sx sy : bool) (mx my : positive) (ex ey : Z) :
  bounded prec emax mx ex = true -> bounded prec emax my ey = true ->
  SFcompare (S754_finite sx mx ex) (S754_finite sy my ey)
  = Some (cond_Zopp sx (Zpos (fst (shl_align mx ex (Z.min ex ey))))
          - cond_Zopp sy (Zpos (fst (shl_align my ey (Z.min ex ey)))) ?= 0).
Proof.
  intros Hx Hy. pose proof (aligned_compare mx my ex ey Hx Hy) as H.
  rewrite <- Z.compare_sub. simpl SFcompare. f_equal.
  destruct sx, sy; simpl cond_Zopp.
  - rewrite Z.compare_opp.
    rewrite (Z.compare_antisym (Zpos (fst (shl_align mx ex (Z.min ex ey))))), H.
    destruct (ex ?= ey); reflexivity.
  - reflexivity.
  - reflexivity.
  - rewrite H. reflexivity.
Qed.

Lemma SFcompare_antisym (x y : spec_float) :
  SFcompare y x = option_map CompOpp (SFcompare x y).
Proof.
  destruct x as [sx|sx| |sx mx ex], y as [sy|sy| |sy my ey]; simpl;
    try reflexivity; try (destruct sx; try destruct sy; reflexivity).
  change (Pos.compare_cont Eq my mx) with (Pos.compare my mx).
  change (Pos.compare_cont Eq mx my) with (Pos.compare mx my).
  destruct sx, sy; try reflexivity; f_equal;
    rewrite (Z.compare_antisym ex ey), (Pos.compare_antisym mx my);
    destruct (ex ?= ey); simpl; try reflexivity;
    destruct (Pos.compare mx my); reflexivity.
Qed.

Lemma SFcompare_refl (x : spec_float) :
  x <> S754_nan -> SFcompare x x = Some Eq.
Proof.
  destruct x as [s|s| |s m e]; simpl; intros H; try congruence;
    try (destruct s; reflexivity).
  change (Pos.compare_cont Eq m m) with (Pos.compare m m).
  rewrite Z.compare_refl, Pos.compare_refl. destruct s; reflexivity.
Qed.

(** The difference of two valid Numbers is above zero exactly when the
    second is below the first, and below zero exactly when the first is
    below the second. *)
Lemma SFsub_compare_finite (sx sy : bool) (mx my : positive) (ex ey : Z) :
  bounded prec emax mx ex = true -> bounded prec emax my ey = true ->
  SFcompare (SFsub prec emax (S754_finite sx mx ex) (S754_finite sy my ey)) (S754_zero false)
  = SFcompare (S754_finite sx mx ex) (S754_finite sy my ey).
Proof.
  intros Hx Hy. rewrite SFcompare_finite by assumption.
  apply binary_normalize_compare.
  destruct (bounded_canonical _ _ Hx), (bounded_canonical _ _ Hy). lia.
Qed.

Lemma SFsub_ltb_neg (x y : spec_float) :
  valid_binary x = true -> valid_binary y = true ->
  SFltb (SFsub prec emax x y) (S754_zero false) = SFltb x y.
Proof.
  intros Hx Hy. unfold SFltb.
  destruct x as [sx|sx| |sx mx ex], y as [sy|sy| |sy my ey];
    try reflexivity;
    try (destruct sx; try destruct sy; reflexivity);
    try (destruct sy; reflexivity).
  now rewrite SFsub_compare_finite.
Qed.

Lemma SFsub_ltb_pos (x y : spec_float) :
  valid_binary x = true -> valid_binary y = true ->
  SFltb (S754_zero false) (SFsub prec emax x y) = SFltb y x.
Proof.
  intros Hx Hy. unfold SFltb.
  destruct x as [sx|sx| |sx mx ex], y as [sy|sy| |sy my ey];
    try reflexivity;
    try (destruct sx; try destruct sy; reflexivity);
    try (destruct sy; reflexivity).
  rewrite (SFcompare_antisym (SFsub _ _ _ _)), SFsub_compare_finite by assumption.
  now rewrite (SFcompare_antisym (S754_finite sx mx ex)).
Qed.

Local Open Scope float_scope.

(** [0 < a - b] exactly when [b < a]. *)
Lemma sub_pos (a b : float) : (0 <? a - b) = (b <? a).
Proof.
  rewrite !FloatAxioms.ltb_spec, FloatAxioms.sub_spec. change (Prim2SF 0) with (S754_zero false).
  apply SFsub_ltb_pos; apply Prim2SF_valid.
Qed.

(** [a - b < 0] exactly when [a < b]. *)
Lemma sub_neg (a b : float) : (a - b <? 0) = (a <? b).
Proof.
  rewrite !FloatAxioms.ltb_spec, FloatAxioms.sub_spec. change (Prim2SF 0) with (S754_zero false).
  apply SFsub_ltb_neg; apply Prim2SF_valid.
Qed.

Lemma is_nan_spec (a : float) : is_nan a = false <-> Prim2SF a <> S754_nan.
Proof.
  unfold is_nan. rewrite FloatAxioms.eqb_spec. unfold SFeqb. split.
  - intros H E. rewrite E in H. discriminate.
  - intros H. now rewrite SFcompare_refl.
Qed.

(** Two Numbers that are not [NaN] are comparable. *)
Lemma leb_of_not_ltb (a b : float) :
  is_nan a = false -> is_nan b = false -> (b <? a) = false -> (a <=? b) = true.
Proof.
  rewrite !is_nan_spec, FloatAxioms.ltb_spec, FloatAxioms.leb_spec. unfold SFltb, SFleb.
  intros Ha Hb. rewrite (SFcompare_antisym (Prim2SF a) (Prim2SF b)).
  destruct (SFcompare (Prim2SF a) (Prim2SF b)) as [[| |]|] eqn:E; simpl;
    try reflexivity; try discriminate.
  intros _. exfalso.
  destruct (Prim2SF a) as [sx|sx| |sx mx ex], (Prim2SF b) as [sy|sy| |sy my ey];
    simpl in E; try discriminate; congruence.
Qed.

Lemma ltb_irrefl (a : float) : (a <? a) = false.
Proof.
  rewrite FloatAxioms.ltb_spec. unfold SFltb.
  destruct (Prim2SF a) as [s|s| |s m e] eqn:E; try reflexivity;
    rewrite SFcompare_refl by discriminate; reflexivity.
Qed.

Lemma leb_of_ltb (a b : float) : (a <? b) = true -> (a <=? b) = true.
Proof.
  rewrite FloatAxioms.ltb_spec, FloatAxioms.leb_spec. unfold SFltb, SFleb.
  destruct (SFcompare (Prim2SF a) (Prim2SF b)) as [[| |]|]; congruence.
Qed.

End IEEE.


(** ** Arrays *)

Section SortFacts.
Context {A : Type} (comparefn : A -> A -> float).

Lemma insert_Permutation (x : A) (l : list A) :
  Permutation (insert comparefn x l) (x :: l).
Proof.
  induction l as [|y l IH]; simpl; [reflexivity|].
  destruct (0 <? comparefn x y); [|reflexivity].
  rewrite IH. apply perm_swap.
Qed.

Lemma sort_Permutation (l : list A) : Permutation (sort comparefn l) l.
Proof.
  induction l as [|x l IH]; simpl; [reflexivity|].
  rewrite insert_Permutation. now constructor.
Qed.

Lemma length_sort (l : list A) : length (sort comparefn l) = length l.
Proof. apply Permutation_length, sort_Permutation. Qed.

End SortFacts.

Lemma insert_HdRel (y x : float) (l : list float) :
  HdRel (fun a b => (a <=? b) = true) y l -> (y <=? x) = true ->
  HdRel (fun a b => (a <=? b) = true) y (insert (fun a b => a - b) x l).
Proof.
  intros H Hyx. destruct l as [|z l]; simpl; [now constructor|].
  inversion H; subst. destruct (0 <? x - z); now constructor.
Qed.

Lemma insert_ascending (x : float) (l : list float) :
  is_nan x = false -> Forall (fun a => is_nan a = false) l ->
  ascending l -> ascending (insert (fun a b => a - b) x l).
Proof.
  intros Hx Hl Hs. induction l as [|y l IH]; simpl.
  - repeat constructor.
  - inversion Hl as [|? ? Hy Hl']; subst. inversion Hs as [|? ? Hs' Hd]; subst.
    rewrite IEEE.sub_pos. destruct (y <? x) eqn:E.
    + constructor; [now apply IH|].
      apply insert_HdRel; [assumption|now apply IEEE.leb_of_ltb].
    + constructor; [assumption|]. constructor.
      now apply IEEE.leb_of_not_ltb.
Qed.

Lemma sort_ascending (l : list float) :
  Forall (fun a => is_nan a = false) l -> ascending (sort (fun a b => a - b) l).
Proof.
  induction 1 as [|x l Hx Hl IH]; simpl; [constructor|].
  apply insert_ascending; try assumption.
  eapply Permutation_Forall; [|exact Hl]. symmetry. apply sort_Permutation.
Qed.

Lemma filter_all {A : Type} (f : A -> bool) (l : list A) :
  Forall (fun x => f x = true) l -> List.filter f l = l.
Proof.
  induction 1 as [|x l Hx _ IH]; simpl; [reflexivity|].
  now rewrite Hx, IH.
Qed.

Lemma filter_none {A : Type} (f : A -> bool) (l : list A) :
  Forall (fun x => f x = false) l -> List.filter f l = [].
Proof.
  induction 1 as [|x l Hx _ IH]; simpl; [reflexivity|].
  now rewrite Hx.
Qed.

Lemma Forall_filter_true {A : Type} (f : A -> bool) (l : list A) :
  Forall (fun x => f x = true) (List.filter f l).
Proof.
  induction l as [|x l IH]; simpl; [constructor|].
  destruct (f x) eqn:E; [constructor|]; assumption.
Qed.

(** ** The outlier filter *)

Lemma cleanseOutliers_small (data : list HistoricalData.t) :
  (length data < 4)%nat -> cleanseOutliers data = Cleansed.mk data 0.
Proof.
  intros H. unfold cleanseOutliers.
  destruct (Nat.ltb_spec (length data) 4); [reflexivity|lia].
Qed.

Lemma cleanseOutliers_large (data : list HistoricalData.t) :
  (4 <= length data)%nat ->
  cleanseOutliers data =
  Cleansed.mk (List.filter (in_band (quartiles data)) data)
              (length data - length (List.filter (in_band (quartiles data)) data)).
Proof.
  intros H. unfold cleanseOutliers.
  destruct (Nat.ltb_spec (length data) 4); [lia|reflexivity].
Qed.

(** C1. [cleanseOutliers] is the IQR filter of the specification: a list of
    fewer than four records comes back unchanged with a count of 0; otherwise
    the prices, sorted into a list of the same length [n], give [Q1] at index
    [floor(n/4)] and [Q3] at index [floor(3n/4)] (the sorted list is a
    permutation of the prices, ascending when no price is [NaN]), the records
    kept are, in their original order, exactly those whose price lies in the
    closed band [[Q1 - 1.5 IQR, Q3 + 1.5 IQR]], and the count is the input
    length minus the kept length. *)
Theorem cleanseOutliers_IQR_filter (data : list HistoricalData.t) :
  let n := length data in
  let sorted := sort (fun a b => a - b) (map HistoricalData.usdPrice data) in
  let Q1 := get sorted (n / 4) in
  let Q3 := get sorted (n * 3 / 4) in
  let IQR := Q3 - Q1 in
  let kept :=
    List.filter (fun d => (Q1 - 1.5 * IQR <=? HistoricalData.usdPrice d)
                          && (HistoricalData.usdPrice d <=? Q3 + 1.5 * IQR)) data in
  length sorted = n /\
  Permutation sorted (map HistoricalData.usdPrice data) /\
  (Forall (fun d => is_nan (HistoricalData.usdPrice d) = false) data -> ascending sorted) /\
  ((n < 4)%nat -> cleanseOutliers data = Cleansed.mk data 0) /\
  ((4 <= n)%nat ->
     Cleansed.cleansed (cleanseOutliers data) = kept /\
     Cleansed.outlierCount (cleanseOutliers data) = (n - length kept)%nat).
Proof.
  intros n sorted Q1 Q3 IQR kept.
  assert (Hlen : length sorted = n).
  { unfold sorted. now rewrite length_sort, length_map. }
  split; [exact Hlen|]. split; [apply sort_Permutation|].
  split; [intros Hnan; apply sort_ascending; now apply Forall_map|].
  split; [apply cleanseOutliers_small|].
  intros H. rewrite (cleanseOutliers_large data H). simpl.
  assert (Hk : List.filter (in_band (quartiles data)) data = kept).
  { unfold kept, in_band, quartiles. fold sorted. rewrite Hlen. reflexivity. }
  now rewrite Hk.
Qed.


(** The dataset of the specification with one extreme price: exactly the
    outlier goes. *)
Example cleanseOutliers_one_outlier :
  map HistoricalData.usdPrice (Cleansed.cleansed (cleanseOutliers one_outlier))
  = [10; 11; 12; 13]
  /\ Cleansed.outlierCount (cleanseOutliers one_outlier) = 1%nat.
Proof. vm_compute. split; reflexivity. Qed.

(** A second pass can remove more: of the prices 0, 2, 3, 3, 3 the first pass
    drops 0 (quartiles 2 and 3, band [[0.5, 4.5]]); the four prices left have
    both quartiles at 3, so the second pass drops 2 and counts 1. *)
Lemma cleanseOutliers_second_pass_removes :
  map HistoricalData.usdPrice (Cleansed.cleansed (cleanseOutliers low_tail))
  = [2; 3; 3; 3]
  /\ cleanseOutliers (Cleansed.cleansed (cleanseOutliers low_tail))
     <> Cleansed.mk (Cleansed.cleansed (cleanseOutliers low_tail)) 0.
Proof.
  split; [vm_compute; reflexivity|].
  intros H. apply (f_equal Cleansed.outlierCount) in H.
  vm_compute in H. discriminate H.
Qed.

(** C6, amended. Cleansing the kept list again returns it unchanged with a
    count of 0 whenever the kept list has fewer than four records, or has
    the same quartiles [Q1] and [Q3] as the input. *)
Theorem cleanseOutliers_twice (data : list HistoricalData.t) :
  (length (Cleansed.cleansed (cleanseOutliers data)) < 4)%nat
  \/ ((4 <= length data)%nat
      /\ quartiles (Cleansed.cleansed (cleanseOutliers data)) = quartiles data) ->
  cleanseOutliers (Cleansed.cleansed (cleanseOutliers data))
  = Cleansed.mk (Cleansed.cleansed (cleanseOutliers data)) 0.
Proof.
  set (kept := Cleansed.cleansed (cleanseOutliers data)).
  intros [H|[Hn Hq]]; [now apply cleanseOutliers_small|].
  destruct (Nat.lt_ge_cases (length kept) 4) as [H|H];
    [now apply cleanseOutliers_small|].
  rewrite (cleanseOutliers_large kept H), Hq.
  assert (Hk : kept = List.filter (in_band (quartiles data)) data).
  { unfold kept. now rewrite (cleanseOutliers_large data Hn). }
  assert (Hf : List.filter (in_band (quartiles data)) kept = kept).
  { rewrite Hk at 1 2. apply filter_all, Forall_filter_true. }
  rewrite Hf. f_equal. lia.
Qed.

Lemma cleanseOutliers_twice_witness :
  cleanseOutliers (Cleansed.cleansed (cleanseOutliers one_outlier))
  = Cleansed.mk (Cleansed.cleansed (cleanseOutliers one_outlier)) 0.
Proof.
  apply (cleanseOutliers_twice one_outlier).
  right. split; [cbn; lia|vm_compute; reflexivity].
Defined.


(** ** The decoders on input without data rows *)

Lemma data_lines_blank (lines : list string) :
  Forall (fun l => trim l = EmptyString) (tail lines) -> data_lines lines = [].
Proof.
  intros H. unfold data_lines. apply filter_none.
  eapply Forall_impl; [exact H|]. intros l Hl. simpl in Hl. now rewrite Hl.
Qed.

(** C8. On a text whose lines after the first are all blank (a text of one
    line has none), each of the three decoders returns the empty list. *)
Theorem decoders_without_data_rows (env : Env) (csvText : string) :
  Forall (fun l => trim l = EmptyString) (tail (split newline csvText)) ->
  parseCSV env csvText = []
  /\ parseNegotiationCSV csvText = []
  /\ parseForecastCSV csvText = [].
Proof.
  intros H. apply data_lines_blank in H.
  unfold parseCSV, parseNegotiationCSV, parseForecastCSV, rawPoints.
  rewrite H. simpl.
  destruct (length (split newline csvText) <? 2)%nat; auto.
Qed.

Lemma decoders_without_data_rows_witness :
  parseCSV (Build_Env (fun _ => EmptyString) (fun _ => EmptyString)) header_only = []
  /\ parseNegotiationCSV header_only = []
  /\ parseForecastCSV header_only = [].
Proof.
  apply (decoders_without_data_rows _ header_only).
  vm_compute. repeat constructor.
Defined.


(** ** The guard of the single-forecast request *)

Section GeminiFacts.
Variable getTime : string -> float.
Variable JSON_parse : string -> ForecastResult.t + string.

Lemma length_contextData (data : list HistoricalData.t) (filters : FilterState.t) :
  length (contextData getTime data filters) = length (List.filter (matches filters) data).
Proof. apply length_sort. Qed.

Lemma guarded_below (context : list HistoricalData.t)
  (body : Async Request.t Reply ForecastResult.t) :
  (length context < 3)%nat -> exists message, guarded context body = Throw message.
Proof.
  intros H. unfold guarded.
  destruct (length context =? 0)%nat; [eauto|].
  destruct (Nat.ltb_spec (length context) 3); [eauto|lia].
Qed.

Lemma guarded_above (context : list HistoricalData.t)
  (body : Async Request.t Reply ForecastResult.t) :
  (3 <= length context)%nat -> guarded context body = body.
Proof.
  intros H. unfold guarded.
  destruct (Nat.eqb_spec (length context) 0); [lia|].
  destruct (Nat.ltb_spec (length context) 3); [lia|reflexivity].
Qed.

(** C9. In both versions of [getForecastFromAI], with [n] the number of
    records that match the key: the function throws before any call of the
    engine exactly when [n < 3], and it calls the engine exactly when
    [3 <= n]. *)
Theorem getForecastFromAI_guard (data : list HistoricalData.t)
  (filters : FilterState.t) (model : string) :
  let n := length (List.filter (matches filters) data) in
  let first := getForecastFromAI getTime JSON_parse data filters model in
  let second := getForecastFromAI_grounded getTime JSON_parse data filters model in
  ((n < 3)%nat <-> exists message, first = Throw message)
  /\ ((3 <= n)%nat <-> calls_engine first = true)
  /\ ((n < 3)%nat <-> exists message, second = Throw message)
  /\ ((3 <= n)%nat <-> calls_engine second = true).
Proof.
  intros n first second. unfold first, second, getForecastFromAI, getForecastFromAI_grounded.
  pose proof (length_contextData data filters) as Hlen. fold n in Hlen.
  destruct (Nat.lt_ge_cases n 3) as [H|H].
  - destruct (guarded_below (contextData getTime data filters)
      (GenerateContent (Request.mk model None (slice_last 24 (contextData getTime data filters)))
         (on_reply JSON_parse "Empty AI Response: The engine failed to generate content." filters))
      ltac:(lia)) as [m1 E1].
    rewrite E1.
    match goal with |- context [guarded ?c ?b] =>
      destruct (guarded_below c b ltac:(lia)) as [m2 E2]; rewrite E2 end.
    simpl. repeat split; intros; try lia; try discriminate; eauto.
  - rewrite !guarded_above by lia. simpl.
    repeat split; intros; try lia; try reflexivity;
      match goal with Hx : exists _, _ |- _ => destruct Hx; discriminate end.
Qed.

End GeminiFacts.


(** ** [Array.from(new Set(a))] *)

Lemma filter_filter_and {A : Type} (f g : A -> bool) (l : list A) :
  List.filter f (List.filter g l) = List.filter (fun x => g x && f x) l.
Proof.
  induction l as [|x l IH]; simpl; [reflexivity|].
  destruct (g x); simpl; [destruct (f x)|]; now rewrite IH.
Qed.

Lemma StronglySorted_filter {A : Type} (R : A -> A -> Prop) (f : A -> bool) (l : list A) :
  StronglySorted R l -> StronglySorted R (List.filter f l).
Proof.
  induction 1 as [|x l Hs IH Hx]; simpl; [constructor|].
  destruct (f x); [|assumption]. constructor; [assumption|].
  rewrite List.Forall_forall in *. intros y Hy. apply Hx.
  now apply List.filter_In in Hy.
Qed.

Lemma StronglySorted_impl_In {A : Type} (R R' : A -> A -> Prop) (l : list A) :
  StronglySorted R l ->
  (forall a b, In a l -> In b l -> R a b -> R' a b) ->
  StronglySorted R' l.
Proof.
  induction 1 as [|x l Hs IH Hx]; intros H; constructor.
  - apply IH. intros a b Ha Hb. apply H; now right.
  - rewrite List.Forall_forall in *. intros y Hy.
    apply H; [now left|now right|now apply Hx].
Qed.

Lemma StronglySorted_NoDup {A : Type} (R : A -> A -> Prop) (l : list A) :
  (forall x, ~ R x x) -> StronglySorted R l -> List.NoDup l.
Proof.
  intros Hirr. induction 1 as [|x l Hs IH Hx]; constructor; [|assumption].
  intros Hin. rewrite List.Forall_forall in Hx. exact (Hirr x (Hx x Hin)).
Qed.

Lemma StronglySorted_map {A B : Type} (R : B -> B -> Prop) (f : A -> B) (l : list A) :
  StronglySorted (fun a b => R (f a) (f b)) l -> StronglySorted R (map f l).
Proof.
  induction 1 as [|x l Hs IH Hx]; simpl; constructor; [assumption|].
  rewrite List.Forall_forall in *. intros y Hy.
  apply List.in_map_iff in Hy as (a & <- & Ha). now apply Hx.
Qed.

(** A concatenation of sorted blocks is sorted when the blocks come in
    sorted order and every element of an earlier block is before every
    element of a later one. *)
Lemma StronglySorted_flat_map {A B : Type} (R0 : A -> A -> Prop) (R : B -> B -> Prop)
  (f : A -> list B) (l : list A) :
  StronglySorted R0 l ->
  (forall x, In x l -> StronglySorted R (f x)) ->
  (forall x y a b, In x l -> In y l -> R0 x y -> In a (f x) -> In b (f y) -> R a b) ->
  StronglySorted R (flat_map f l).
Proof.
  induction 1 as [|x l Hs IH Hx]; intros Hblock Hcross; simpl; [constructor|].
  apply StronglySorted_app. split; [|split].
  - intros a b Ha Hb. apply list_elem_of_In in Ha, Hb.
    apply List.in_flat_map in Hb as (y & Hy & Hb).
    rewrite List.Forall_forall in Hx.
    apply (Hcross x y); auto; [now left|now right].
  - apply Hblock. now left.
  - apply IH.
    + intros y Hy. apply Hblock. now right.
    + intros y z a b Hy Hz. apply Hcross; now right.
Qed.

Section SetFacts.
Context {A : Type} `{EqDecision A}.

Lemma fold_Set_add (l acc : list A) :
  fold_left Set_add l acc
  = acc ++ List.filter (fun y => negb (bool_decide (y ∈ acc))) (first_occurrences l).
Proof.
  revert acc. induction l as [|x l IH]; intros acc; simpl.
  - now rewrite app_nil_r.
  - rewrite IH. unfold Set_add. rewrite filter_filter_and.
    destruct (decide (x ∈ acc)) as [Hx|Hx].
    + rewrite bool_decide_eq_true_2 by assumption. simpl. f_equal.
      apply List.filter_ext_in. intros y _.
      destruct (bool_decide_reflect (y ∈ acc)) as [Hy|Hy]; simpl;
        [now rewrite andb_false_r|].
      rewrite bool_decide_eq_false_2 by congruence. reflexivity.
    + rewrite bool_decide_eq_false_2 by assumption. simpl.
      rewrite <- app_assoc. simpl. f_equal. f_equal.
      apply List.filter_ext_in. intros y _.
      destruct (bool_decide_reflect (y = x)) as [->|Hyx]; simpl.
      * rewrite bool_decide_eq_true_2
          by (rewrite elem_of_app, list_elem_of_singleton; tauto).
        reflexivity.
      * destruct (bool_decide_reflect (y ∈ acc)) as [Hy|Hy]; simpl.
        -- rewrite bool_decide_eq_true_2
             by (rewrite elem_of_app, list_elem_of_singleton; tauto).
           reflexivity.
        -- rewrite bool_decide_eq_false_2
             by (rewrite elem_of_app, list_elem_of_singleton; tauto).
           reflexivity.
Qed.

Lemma from_Set_first_occurrences (l : list A) : from_Set l = first_occurrences l.
Proof.
  unfold from_Set. rewrite fold_Set_add, app_nil_l.
  apply filter_all. apply List.Forall_forall. intros y _.
  rewrite bool_decide_eq_false_2 by apply not_elem_of_nil. reflexivity.
Qed.

Lemma In_first_occurrences (x : A) (l : list A) :
  In x (first_occurrences l) <-> In x l.
Proof.
  induction l as [|y l IH]; simpl; [tauto|].
  rewrite List.filter_In, IH.
  destruct (bool_decide_reflect (x = y)) as [->|Hxy]; simpl; [tauto|].
  tauto.
Qed.

Lemma In_from_Set (x : A) (l : list A) : In x (from_Set l) <-> In x l.
Proof. rewrite from_Set_first_occurrences. apply In_first_occurrences. Qed.

Lemma first_occurrences_sorted (l : list A) :
  StronglySorted (fun a b => (first_index a l < first_index b l)%nat) (first_occurrences l).
Proof.
  induction l as [|x l IH]; simpl; [constructor|].
  constructor.
  - apply StronglySorted_filter with (f := fun y => negb (bool_decide (y = x))) in IH.
    eapply StronglySorted_impl_In; [exact IH|].
    intros a b Ha Hb Hab. apply List.filter_In in Ha as [_ Ha], Hb as [_ Hb].
    apply negb_true_iff, bool_decide_eq_false in Ha, Hb.
    rewrite !decide_False by congruence. simpl in Hab. lia.
  - apply List.Forall_forall. intros y Hy.
    apply List.filter_In in Hy as [_ Hy].
    apply negb_true_iff, bool_decide_eq_false in Hy.
    rewrite decide_True by reflexivity. rewrite decide_False by congruence. lia.
Qed.

Lemma from_Set_sorted (l : list A) :
  StronglySorted (fun a b => (first_index a l < first_index b l)%nat) (from_Set l).
Proof. rewrite from_Set_first_occurrences. apply first_occurrences_sorted. Qed.

End SetFacts.

(** ** The combinations of the bulk forecast *)

Lemma strict_eq_true (a b : option string) : strict_eq a b = true <-> a = b.
Proof. unfold strict_eq. apply bool_decide_eq_true. Qed.

Lemma combinations_unfold (data : list HistoricalData.t) :
  combinations data =
  flat_map (fun p =>
    flat_map (fun v =>
      map (fun c => FilterState.mk p v c)
          (from_Set (map HistoricalData.country (records_of_part_vendor p v data))))
      (from_Set (map HistoricalData.vendor (records_of_part p data))))
    (from_Set (map HistoricalData.partNumber data)).
Proof. reflexivity. Qed.

Lemma In_records_of_part (p : option string) (data : list HistoricalData.t)
  (d : HistoricalData.t) :
  In d (records_of_part p data) <-> In d data /\ HistoricalData.partNumber d = p.
Proof. unfold records_of_part. now rewrite List.filter_In, strict_eq_true. Qed.

Lemma In_records_of_part_vendor (p v : option string) (data : list HistoricalData.t)
  (d : HistoricalData.t) :
  In d (records_of_part_vendor p v data)
  <-> In d data /\ HistoricalData.partNumber d = p /\ HistoricalData.vendor d = v.
Proof.
  unfold records_of_part_vendor.
  rewrite List.filter_In, In_records_of_part, strict_eq_true. tauto.
Qed.

(** The triples emitted are the triples of the records. *)
Lemma In_combinations (data : list HistoricalData.t) (t : FilterState.t) :
  In t (combinations data) <-> exists d, In d data /\ triple_of d = t.
Proof.
  rewrite combinations_unfold, List.in_flat_map. split.
  - intros (p & _ & H). apply List.in_flat_map in H as (v & _ & H).
    apply List.in_map_iff in H as (c & <- & H).
    apply In_from_Set, List.in_map_iff in H as (d & <- & H).
    apply In_records_of_part_vendor in H as (Hd & <- & <-).
    exists d. split; [assumption|reflexivity].
  - intros (d & Hd & <-). exists (HistoricalData.partNumber d). split.
    { apply In_from_Set, List.in_map, Hd. }
    apply List.in_flat_map. exists (HistoricalData.vendor d). split.
    { apply In_from_Set, List.in_map, In_records_of_part. now split. }
    apply List.in_map_iff. exists (HistoricalData.country d). split; [reflexivity|].
    apply In_from_Set, List.in_map, In_records_of_part_vendor. now repeat split.
Qed.

Lemma first_seen_before_irrefl (data : list HistoricalData.t) (t : FilterState.t) :
  ~ first_seen_before data t t.
Proof. unfold first_seen_before. lia. Qed.

(** The triples come by first-seen part, then first-seen vendor, then
    first-seen country. *)
Lemma combinations_sorted (data : list HistoricalData.t) :
  StronglySorted (first_seen_before data) (combinations data).
Proof.
  rewrite combinations_unfold.
  eapply StronglySorted_flat_map; [apply from_Set_sorted| |].
  - intros p _.
    eapply StronglySorted_flat_map; [apply from_Set_sorted| |].
    + intros v _. apply StronglySorted_map.
      eapply StronglySorted_impl_In; [apply from_Set_sorted|].
      intros c1 c2 _ _ H. right. split; [reflexivity|]. right. split; [reflexivity|].
      exact H.
    + intros v1 v2 a b _ _ H Ha Hb.
      apply List.in_map_iff in Ha as (c1 & <- & _), Hb as (c2 & <- & _).
      right. split; [reflexivity|]. left. exact H.
  - intros p1 p2 a b _ _ H Ha Hb.
    apply List.in_flat_map in Ha as (v1 & _ & Ha), Hb as (v2 & _ & Hb).
    apply List.in_map_iff in Ha as (c1 & <- & _), Hb as (c2 & <- & _).
    left. exact H.
Qed.

(** C4. The enumeration emits exactly the triples that occur in a record,
    each once, ordered by first-seen part, then first-seen vendor among the
    records of the part, then first-seen country among the records of the
    part and vendor; on the dataset of the specification these are (A,V1,US),
    (A,V2,DE), (B,V1,US). *)
Theorem combinations_enumeration (data : list HistoricalData.t) :
  (forall t, In t (combinations data) <-> exists d, In d data /\ triple_of d = t)
  /\ List.NoDup (combinations data)
  /\ StronglySorted (first_seen_before data) (combinations data)
  /\ combinations two_parts
     = [FilterState.mk (Some "A") (Some "V1") (Some "US");
        FilterState.mk (Some "A") (Some "V2") (Some "DE");
        FilterState.mk (Some "B") (Some "V1") (Some "US")].
Proof.
  split; [apply In_combinations|]. split; [|split].
  - eapply StronglySorted_NoDup; [apply first_seen_before_irrefl|apply combinations_sorted].
  - apply combinations_sorted.
  - vm_compute. reflexivity.
Qed.

(** The cross product is not emitted: A occurs, V2 occurs and US occurs, but
    no record has the three together. *)
Example combinations_no_cross_product :
  ~ In (FilterState.mk (Some "A") (Some "V2") (Some "US")) (combinations two_parts).
Proof.
  rewrite In_combinations. intros (d & Hd & E).
  simpl in Hd. destruct Hd as [<-|[<-|[<-|[]]]]; discriminate E.
Qed.


(** ** The groups of [parseForecastCSV] *)

Section MapFacts.
Context {V : Type}.

Lemma Map_has_map (k : string) (g : string -> V) (ks : list string) :
  Map_has k (map (fun k' => (k', g k')) ks) = bool_decide (k ∈ ks).
Proof.
  unfold Map_has. induction ks as [|k' ks IH]; cbn [map existsb fst].
  - symmetry. apply bool_decide_eq_false_2. apply not_elem_of_nil.
  - rewrite IH. destruct (String.eqb_spec k' k) as [->|Hk]; simpl.
    + symmetry. apply bool_decide_eq_true_2. apply elem_of_cons. now left.
    + apply bool_decide_ext. rewrite elem_of_cons. split; [now right|].
      intros [H|H]; [congruence|assumption].
Qed.

Lemma Map_update_map (k : string) (f : V -> V) (g : string -> V) (ks : list string) :
  List.NoDup ks ->
  Map_update k f (map (fun k' => (k', g k')) ks)
  = map (fun k' => (k', if String.eqb k' k then f (g k') else g k')) ks.
Proof.
  induction 1 as [|k' ks Hk' Hnd IH]; simpl; [reflexivity|].
  destruct (String.eqb_spec k' k) as [->|Hk]; [|now rewrite IH].
  f_equal. apply List.map_ext_in. intros k'' Hin.
  destruct (String.eqb_spec k'' k) as [->|_]; [contradiction|reflexivity].
Qed.

Lemma Map_update_app (k : string) (f : V -> V) (m1 m2 : list (string * V)) :
  ~ In k (map fst m1) ->
  Map_update k f (m1 ++ m2) = m1 ++ Map_update k f m2.
Proof.
  induction m1 as [|[k' v] m1 IH]; simpl; intros H; [reflexivity|].
  destruct (String.eqb_spec k' k) as [->|Hk]; [tauto|].
  rewrite IH by tauto. reflexivity.
Qed.

End MapFacts.

Lemma from_Set_NoDup {A : Type} `{EqDecision A} (l : list A) : List.NoDup (from_Set l).
Proof.
  eapply StronglySorted_NoDup; [|apply from_Set_sorted]. simpl. lia.
Qed.

Lemma from_Set_snoc {A : Type} `{EqDecision A} (l : list A) (x : A) :
  from_Set (l ++ [x]) = Set_add (from_Set l) x.
Proof. unfold from_Set. now rewrite fold_left_app. Qed.

Lemma rows_of_key_snoc (k : string) (pts : list RawPoint.t) (p : RawPoint.t) :
  rows_of_key k (pts ++ [p])
  = rows_of_key k pts ++ (if String.eqb (group_key p) k then [p] else []).
Proof. unfold rows_of_key. rewrite List.filter_app. reflexivity. Qed.

Lemma rows_of_key_nil (k : string) (pts : list RawPoint.t) :
  ~ In k (map group_key pts) -> rows_of_key k pts = [].
Proof.
  intros H. apply filter_none, List.Forall_forall. intros p Hp.
  destruct (String.eqb_spec (group_key p) k) as [<-|]; [|reflexivity].
  exfalso. apply H, List.in_map, Hp.
Qed.

Lemma rows_of_key_cons (k : string) (pts : list RawPoint.t) :
  In k (map group_key pts) -> exists p rows, rows_of_key k pts = p :: rows.
Proof.
  intros H. apply List.in_map_iff in H as (p & <- & Hp).
  assert (Hin : In p (rows_of_key (group_key p) pts)).
  { apply List.filter_In. split; [assumption|apply String.eqb_refl]. }
  destruct (rows_of_key (group_key p) pts) as [|q rows]; [contradiction|eauto].
Qed.

Lemma group_of_other (k : string) (pts : list RawPoint.t) (p : RawPoint.t) :
  group_key p <> k -> group_of k (pts ++ [p]) = group_of k pts.
Proof.
  intros H. unfold group_of. rewrite rows_of_key_snoc.
  destruct (String.eqb_spec (group_key p) k); [contradiction|].
  now rewrite app_nil_r.
Qed.

Lemma group_of_push (pts : list RawPoint.t) (p : RawPoint.t) :
  In (group_key p) (map group_key pts) ->
  group_of (group_key p) (pts ++ [p])
  = push_point (point_of p) (group_of (group_key p) pts).
Proof.
  intros H. unfold group_of, push_point. simpl.
  rewrite rows_of_key_snoc, String.eqb_refl.
  destruct (rows_of_key_cons _ _ H) as (q & rows & ->). simpl.
  now rewrite map_app.
Qed.

Lemma group_of_new (pts : list RawPoint.t) (p : RawPoint.t) :
  ~ In (group_key p) (map group_key pts) ->
  group_of (group_key p) (pts ++ [p]) = push_point (point_of p) (new_group p).
Proof.
  intros H. unfold group_of, push_point, new_group. simpl.
  rewrite rows_of_key_snoc, String.eqb_refl, (rows_of_key_nil _ _ H). reflexivity.
Qed.

(** The map after the first loop: one entry per key string, in the order in
    which the key strings are first seen, each holding the group of its
    key. *)
Lemma fold_add_point (pts : list RawPoint.t) :
  fold_left add_point pts []
  = map (fun k => (k, group_of k pts)) (from_Set (map group_key pts)).
Proof.
  induction pts as [|p pts IH] using rev_ind; [reflexivity|].
  rewrite fold_left_app, IH. cbn [fold_left].
  rewrite (map_app group_key). cbn [map]. rewrite from_Set_snoc.
  unfold add_point, Set_add. rewrite Map_has_map.
  set (ks := from_Set (map group_key pts)).
  assert (Hks : forall k, In k ks <-> In k (map group_key pts)) by (intro; apply In_from_Set).
  destruct (decide (group_key p ∈ ks)) as [Hin|Hin].
  - rewrite bool_decide_eq_true_2 by assumption. rewrite list_elem_of_In in Hin.
    rewrite Map_update_map by apply from_Set_NoDup.
    apply List.map_ext_in. intros k Hk. f_equal.
    destruct (String.eqb_spec k (group_key p)) as [->|Hne].
    + symmetry. apply group_of_push. now apply Hks.
    + symmetry. apply group_of_other. congruence.
  - rewrite bool_decide_eq_false_2 by assumption. rewrite list_elem_of_In in Hin.
    unfold Map_set_new.
    rewrite Map_update_app.
    2:{ rewrite List.map_map. simpl. now rewrite List.map_id. }
    simpl. rewrite String.eqb_refl, map_app. simpl. f_equal.
    + apply List.map_ext_in. intros k Hk. f_equal.
      symmetry. apply group_of_other. intros E. apply Hin. now rewrite E.
    + f_equal. f_equal. symmetry. apply group_of_new. now rewrite <- Hks.
Qed.

Lemma rawPoints_short (csvText : string) :
  (length (split newline csvText) < 2)%nat -> rawPoints csvText = [].
Proof.
  intros H. unfold rawPoints, data_lines.
  destruct (split newline csvText) as [|l0 [|l1 ls]]; simpl in *; try reflexivity; lia.
Qed.

(** The result of [parseForecastCSV]: the summarised group of every key
    string, in the order in which the key strings are first seen in the
    rows. *)
Lemma parseForecastCSV_groups (csvText : string) :
  parseForecastCSV csvText
  = map (fun k => summarize (group_of k (rawPoints csvText)))
        (from_Set (map group_key (rawPoints csvText))).
Proof.
  unfold parseForecastCSV.
  destruct (Nat.ltb_spec (length (split newline csvText)) 2) as [H|H].
  - now rewrite (rawPoints_short _ H).
  - rewrite fold_add_point. unfold Map_values. rewrite !List.map_map. reflexivity.
Qed.


(** ** The summaries of [parseForecastCSV] *)

Lemma get_last (l : list float) (d : float) :
  l <> [] -> get l (length l - 1) = List.last l d.
Proof.
  unfold get. induction l as [|x [|y l] IH]; intros H; [contradiction|reflexivity|].
  replace (length (x :: y :: l) - 1)%nat with (S (length (y :: l) - 1))
    by (cbn [length]; lia).
  change (List.last (x :: y :: l) d) with (List.last (y :: l) d).
  cbn [nth]. apply IH. discriminate.
Qed.

Lemma last_map {A B : Type} (f : A -> B) (l : list A) (d : A) :
  List.last (map f l) (f d) = f (List.last l d).
Proof.
  induction l as [|x [|y l] IH]; try reflexivity.
  change (List.last (map f (x :: y :: l)) (f d)) with (List.last (map f (y :: l)) (f d)).
  exact IH.
Qed.

(** The trend that [summarize] writes is the trend of the specification. *)
Lemma summarize_priceTrend (res : ForecastResult.t) :
  Summary.priceTrend (ForecastResult.summary res) = stable ->
  Summary.priceTrend (ForecastResult.summary (summarize res))
  = trend_first_last (ForecastResult.forecast res).
Proof.
  intros Hs. unfold summarize, trend_first_last. cbn [ForecastResult.summary Summary.priceTrend].
  rewrite length_map.
  destruct (ForecastResult.forecast res) as [|p0 [|p1 pts]] eqn:E.
  - exact Hs.
  - simpl. rewrite IEEE.ltb_irrefl. exact Hs.
  - change (1 <? length (p0 :: p1 :: pts))%nat with true. cbv iota.
    rewrite IEEE.sub_pos, IEEE.sub_neg.
    rewrite <- (length_map ForecastPoint.predictedPrice (p0 :: p1 :: pts)).
    rewrite (get_last _ (ForecastPoint.predictedPrice p0)) by discriminate.
    rewrite last_map. reflexivity.
Qed.

(** C7. In every result of [parseForecastCSV] the lead-time trend is
    [stable] and the optimized order quantity is 0, and the price trend is
    [up] when the last point of the group, in input order, has a greater
    price than the first, [down] when it has a smaller one, and [stable]
    otherwise (so for every group of one point). *)
Theorem parseForecastCSV_trends (csvText : string) :
  List.Forall (fun r =>
      Summary.leadTimeTrend (ForecastResult.summary r) = stable
      /\ Summary.optimizedOrderQuantity (ForecastResult.summary r) = 0
      /\ Summary.priceTrend (ForecastResult.summary r)
         = trend_first_last (ForecastResult.forecast r))
    (parseForecastCSV csvText).
Proof.
  rewrite parseForecastCSV_groups. apply List.Forall_forall. intros r Hr.
  apply List.in_map_iff in Hr as (k & <- & _).
  split; [reflexivity|]. split; [reflexivity|].
  now rewrite summarize_priceTrend.
Qed.

(** C10. Every result of [parseForecastCSV] has at least one point, and its
    averages are the sums of its prices and of its lead times over that
    positive number of points. *)
Theorem parseForecastCSV_forecast_nonempty (csvText : string) :
  List.Forall (fun r =>
      (1 <= length (ForecastResult.forecast r))%nat
      /\ Summary.avgPredictedPrice (ForecastResult.summary r)
         = sum (map ForecastPoint.predictedPrice (ForecastResult.forecast r))
           / of_nat (length (ForecastResult.forecast r))
      /\ Summary.avgPredictedLeadTime (ForecastResult.summary r)
         = sum (map ForecastPoint.predictedLeadTime (ForecastResult.forecast r))
           / of_nat (length (ForecastResult.forecast r)))
    (parseForecastCSV csvText).
Proof.
  rewrite parseForecastCSV_groups. apply List.Forall_forall. intros r Hr.
  apply List.in_map_iff in Hr as (k & <- & Hk).
  apply (proj1 (In_from_Set _ _)) in Hk.
  destruct (rows_of_key_cons _ _ Hk) as (p & rows & E).
  unfold summarize, group_of. cbn [ForecastResult.forecast ForecastResult.summary
    Summary.avgPredictedPrice Summary.avgPredictedLeadTime].
  rewrite !length_map, E. split; [simpl; lia|]. split; reflexivity.
Qed.

(** Two rows of one key with different dates, the second with the greater
    price: one result of two points in input order, the mean of the two
    prices, the trend [up]. *)
Example parseForecastCSV_same_key :
  map (fun r => (result_triple r,
                 map ForecastPoint.date (ForecastResult.forecast r),
                 Summary.avgPredictedPrice (ForecastResult.summary r),
                 Summary.priceTrend (ForecastResult.summary r)))
      (parseForecastCSV same_key_csv)
  = [((Some "SKU-1", Some "VendorA", Some "USA"),
      [Some "2024-02-01"; Some "2024-01-01"], 11.5, up)].
Proof. vm_compute. reflexivity. Qed.

(** C3 at a failing input. The rows of [colliding_csv] have the two distinct
    keys (a|b, c, d) and (a, b|c, d); both give the key string [a|b|c|d], and
    [parseForecastCSV] returns one result, under the first key, that holds
    the points of both rows. *)
Theorem parseForecastCSV_key_collision :
  map row_triple (rawPoints colliding_csv)
  = [(Some "a|b", Some "c", Some "d"); (Some "a", Some "b|c", Some "d")]
  /\ map (fun r => (result_triple r, length (ForecastResult.forecast r),
                    Summary.avgPredictedPrice (ForecastResult.summary r)))
         (parseForecastCSV colliding_csv)
     = [((Some "a|b", Some "c", Some "d"), 2%nat, 2)].
Proof. vm_compute. split; reflexivity. Qed.


(** ** Strings: splitting what was joined, trimming, quoting *)

Lemma lacks_append (c : ascii) (a b : string) :
  lacks c (a +:+ b) = lacks c a && lacks c b.
Proof.
  induction a as [|x a IH]; simpl; [reflexivity|].
  now rewrite IH, andb_assoc.
Qed.

Lemma split_lacks (sep : ascii) (s : string) :
  lacks sep s = true -> split sep s = [s].
Proof.
  induction s as [|c s IH]; simpl; [reflexivity|].
  intros H. apply andb_prop in H as [Hc Hs].
  apply negb_true_iff in Hc. rewrite Hc, (IH Hs). reflexivity.
Qed.

Lemma split_append (sep : ascii) (a b : string) :
  lacks sep a = true ->
  split sep (a +:+ String sep b) = a :: split sep b.
Proof.
  induction a as [|c a IH]; simpl.
  - intros _. now rewrite Ascii.eqb_refl.
  - intros H. apply andb_prop in H as [Hc Ha].
    apply negb_true_iff in Hc. rewrite Hc, (IH Ha). reflexivity.
Qed.

Lemma split_join (sep : ascii) (l : list string) :
  l <> [] -> List.Forall (fun s => lacks sep s = true) l ->
  split sep (join (String sep EmptyString) l) = l.
Proof.
  intros Hne H. induction H as [|x l Hx Hl IH]; [contradiction|].
  destruct l as [|y l]; [now apply split_lacks|].
  change (join (String sep EmptyString) (x :: y :: l))
    with (x +:+ String sep (join (String sep EmptyString) (y :: l))).
  rewrite split_append by assumption. f_equal. apply IH. discriminate.
Qed.

Lemma trimStart_head (c : ascii) (s : string) :
  is_whitespace c = false -> trimStart (String c s) = String c s.
Proof. intros H. simpl. now rewrite H. Qed.

Lemma trimEnd_not_empty (c : ascii) (s : string) :
  is_whitespace c = false -> is_empty (trimEnd (String c s)) = false.
Proof. intros H. simpl. rewrite H. reflexivity. Qed.

(** A line that starts with a quote is not blank. *)
Lemma trim_quote_not_empty (s : string) : is_empty (trim (String dquote s)) = false.
Proof.
  unfold trim. rewrite trimStart_head by reflexivity.
  now apply trimEnd_not_empty.
Qed.

Lemma is_empty_snoc (s : string) (c : ascii) :
  is_empty (s +:+ String c EmptyString) = false.
Proof. destruct s; reflexivity. Qed.

Lemma trimEnd_cons (c : ascii) (s : string) :
  trimEnd (String c s)
  = if is_whitespace c && is_empty (trimEnd s) then EmptyString
    else String c (trimEnd s).
Proof. reflexivity. Qed.

Lemma append_cons (c : ascii) (a b : string) :
  String c a +:+ b = String c (a +:+ b).
Proof. reflexivity. Qed.

Lemma trimEnd_snoc (s : string) (c : ascii) :
  is_whitespace c = false ->
  trimEnd (s +:+ String c EmptyString) = s +:+ String c EmptyString.
Proof.
  intros H. induction s as [|x s IH].
  - change (EmptyString +:+ String c EmptyString) with (String c EmptyString).
    now rewrite trimEnd_cons, H.
  - now rewrite append_cons, trimEnd_cons, IH, is_empty_snoc, andb_false_r.
Qed.

Lemma trim_quoted (s : string) : trim (quoted s) = quoted s.
Proof.
  unfold trim, quoted. rewrite trimStart_head by reflexivity.
  change (String dquote (s +:+ String dquote EmptyString))
    with ((String dquote s) +:+ String dquote EmptyString).
  now apply trimEnd_snoc.
Qed.

Lemma drop_trailing_quote_snoc (s : string) :
  drop_trailing_quote (s +:+ String dquote EmptyString) = s.
Proof.
  induction s as [|x s IH]; [reflexivity|].
  rewrite append_cons.
  change (drop_trailing_quote (String x (s +:+ String dquote EmptyString)))
    with (if Ascii.eqb x dquote && is_empty (s +:+ String dquote EmptyString)
          then EmptyString
          else String x (drop_trailing_quote (s +:+ String dquote EmptyString))).
  now rewrite IH, is_empty_snoc, andb_false_r.
Qed.

Lemma strip_quotes_quoted (s : string) : strip_quotes (quoted s) = s.
Proof. unfold strip_quotes, quoted. simpl. apply drop_trailing_quote_snoc. Qed.

Lemma drop_trailing_quote_lacks (s : string) :
  lacks dquote s = true -> drop_trailing_quote s = s.
Proof.
  induction s as [|x s IH]; simpl; [reflexivity|].
  intros H. apply andb_prop in H as [Hx Hs]. apply negb_true_iff in Hx.
  rewrite Hx, (IH Hs). reflexivity.
Qed.

Lemma strip_quotes_lacks (s : string) : lacks dquote s = true -> strip_quotes s = s.
Proof.
  intros H. unfold strip_quotes.
  assert (E : drop_leading_quote s = s).
  { destruct s as [|x s]; [reflexivity|]. simpl in *.
    apply andb_prop in H as [Hx _]. apply negb_true_iff in Hx. now rewrite Hx. }
  rewrite E. now apply drop_trailing_quote_lacks.
Qed.

(** ** What [Number::toString] writes *)

Lemma numeric_char_plain (c : ascii) :
  numeric_char c = true ->
  is_whitespace c = false /\ Ascii.eqb c comma = false
  /\ Ascii.eqb c dquote = false /\ Ascii.eqb c newline = false.
Proof.
  destruct c as [[] [] [] [] [] [] [] []]; vm_compute; intros H;
    try discriminate H; repeat split.
Qed.

Lemma numeric_append (a b : string) : numeric (a +:+ b) = numeric a && numeric b.
Proof.
  induction a as [|x a IH]; simpl; [reflexivity|].
  now rewrite IH, andb_assoc.
Qed.

Lemma numeric_substring (s : string) : forall n m : nat,
  numeric s = true -> numeric (substring n m s) = true.
Proof.
  induction s as [|c s IH]; intros [|n] [|m] H; simpl; try reflexivity.
  - simpl in H. apply andb_prop in H as [Hc Hs]. now rewrite Hc, IH.
  - simpl in H. apply andb_prop in H as [_ Hs]. now apply IH.
  - simpl in H. apply andb_prop in H as [_ Hs]. now apply IH.
Qed.

Lemma numeric_digit_char (d : Z) : (0 <= d < 10)%Z -> numeric_char (digit_char d) = true.
Proof.
  intros H.
  assert (E : (d = 0 \/ d = 1 \/ d = 2 \/ d = 3 \/ d = 4 \/ d = 5 \/ d = 6
               \/ d = 7 \/ d = 8 \/ d = 9)%Z) by lia.
  repeat (destruct E as [->|E]; [reflexivity|]). now subst.
Qed.

Lemma numeric_digits_go (fuel : nat) : forall (n : Z) (acc : string),
  numeric acc = true -> numeric (digits_go fuel n acc) = true.
Proof.
  induction fuel as [|fuel IH]; intros n acc H; cbn [digits_go]; [assumption|].
  assert (H' : numeric (String (digit_char (n mod 10)) acc) = true).
  { cbn [numeric]. rewrite H, numeric_digit_char; [reflexivity|].
    apply Z.mod_pos_bound. lia. }
  destruct (n <? 10)%Z; [assumption|now apply IH].
Qed.

Lemma numeric_digits (n : Z) : numeric (digits n) = true.
Proof. now apply numeric_digits_go. Qed.

Lemma digits_go_not_empty (fuel : nat) : forall (n : Z) (acc : string),
  is_empty acc = false -> is_empty (digits_go fuel n acc) = false.
Proof.
  induction fuel as [|fuel IH]; intros n acc H; cbn [digits_go]; [assumption|].
  destruct (n <? 10)%Z; [reflexivity|now apply IH].
Qed.

Lemma digits_not_empty (n : Z) : is_empty (digits n) = false.
Proof.
  unfold digits. cbn [digits_go]. destruct (n <? 10)%Z; [reflexivity|].
  now apply digits_go_not_empty.
Qed.

Lemma numeric_zeros (n : nat) : numeric (zeros n) = true.
Proof. induction n as [|n IH]; simpl; [reflexivity|exact IH]. Qed.

Lemma is_empty_append (a b : string) :
  is_empty (a +:+ b) = is_empty a && is_empty b.
Proof. destruct a; reflexivity. Qed.

Lemma numeric_format (s n k : Z) : numeric (format s n k) = true.
Proof.
  unfold format.
  repeat match goal with
  | |- context [if ?b then _ else _] => destruct b
  end;
  rewrite ?numeric_append, ?numeric_digits, ?numeric_zeros, ?numeric_substring
    by apply numeric_digits; reflexivity.
Qed.

Lemma format_not_empty (s n k : Z) : is_empty (format s n k) = false.
Proof.
  unfold format.
  repeat match goal with
  | |- context [if ?b then _ else _] => destruct b
  end;
  rewrite ?is_empty_append, ?digits_not_empty, ?andb_false_r; try reflexivity;
  destruct (substring _ _ _); reflexivity.
Qed.

Lemma numeric_NumberToString (x : float) : numeric (NumberToString x) = true.
Proof.
  unfold NumberToString. destruct (Prim2SF x) as [sg|sg| |sg m e]; try reflexivity.
  - destruct sg; reflexivity.
  - destruct (if (0 <=? e)%Z then _ else _) as [num den].
    destruct (shortest _ _ _ _ _ _) as [[s n] k].
    rewrite numeric_append, numeric_format. destruct sg; reflexivity.
Qed.

Lemma NumberToString_not_empty (x : float) : is_empty (NumberToString x) = false.
Proof.
  unfold NumberToString. destruct (Prim2SF x) as [sg|sg| |sg m e]; try reflexivity.
  - destruct sg; reflexivity.
  - destruct (if (0 <=? e)%Z then _ else _) as [num den].
    destruct (shortest _ _ _ _ _ _) as [[s n] k].
    rewrite is_empty_append, format_not_empty. apply andb_false_r.
Qed.

Lemma numeric_lacks (s : string) :
  numeric s = true ->
  lacks comma s = true /\ lacks dquote s = true /\ lacks newline s = true.
Proof.
  induction s as [|c s IH]; simpl; [auto|].
  intros H. apply andb_prop in H as [Hc Hs].
  destruct (numeric_char_plain c Hc) as (_ & H1 & H2 & H3).
  destruct (IH Hs) as (I1 & I2 & I3).
  now rewrite H1, H2, H3, I1, I2, I3.
Qed.

Lemma numeric_trimEnd (s : string) : numeric s = true -> trimEnd s = s.
Proof.
  induction s as [|c s IH]; [reflexivity|].
  intros H. simpl in H. apply andb_prop in H as [Hc Hs].
  destruct (numeric_char_plain c Hc) as (Hw & _).
  now rewrite trimEnd_cons, Hw, (IH Hs).
Qed.

Lemma numeric_trim (s : string) : numeric s = true -> trim s = s.
Proof.
  intros H. unfold trim.
  assert (E : trimStart s = s).
  { destruct s as [|c s]; [reflexivity|]. simpl in H.
    apply andb_prop in H as [Hc _].
    destruct (numeric_char_plain c Hc) as (Hw & _). now apply trimStart_head. }
  rewrite E. now apply numeric_trimEnd.
Qed.

(** A Number written by [String] goes through the cell clean-up of the
    decoders unchanged. *)
Lemma NumberToString_cell (x : float) :
  strip_quotes (trim (NumberToString x)) = NumberToString x.
Proof.
  rewrite numeric_trim by apply numeric_NumberToString.
  apply strip_quotes_lacks. apply numeric_lacks, numeric_NumberToString.
Qed.


(** ** The sample format read back *)

Lemma generateSampleCSV_lines (data : list HistoricalData.t) :
  generateSampleCSV data
  = join (String newline EmptyString) (sample_header :: map sample_row data).
Proof. unfold generateSampleCSV. rewrite List.map_map. reflexivity. Qed.

Lemma historical_headers_sample (rows : list string) :
  historical_headers (sample_header :: rows) = sample_tokens.
Proof. vm_compute. reflexivity. Qed.

Lemma lacks_quoted (c : ascii) (s : string) :
  Ascii.eqb dquote c = false -> lacks c (quoted s) = lacks c s.
Proof.
  intros H. unfold quoted. cbn [lacks]. rewrite lacks_append. cbn [lacks].
  rewrite H. simpl. now rewrite andb_true_r.
Qed.

Lemma csv_safe_lacks (s : string) :
  csv_safe s = true ->
  lacks comma s = true /\ lacks dquote s = true /\ lacks newline s = true.
Proof.
  unfold csv_safe. intros H. apply andb_prop in H as [H H3].
  apply andb_prop in H as [H1 H2]. auto.
Qed.

Lemma lacks_join (c : ascii) (sep : string) (l : list string) :
  lacks c sep = true -> List.Forall (fun s => lacks c s = true) l ->
  lacks c (join sep l) = true.
Proof.
  intros Hsep H. induction H as [|x l Hx Hl IH]; [reflexivity|].
  destruct l as [|y l]; [exact Hx|].
  change (join sep (x :: y :: l)) with (x +:+ sep +:+ join sep (y :: l)).
  now rewrite !lacks_append, Hx, Hsep, IH.
Qed.

(** The cells of a data line, and the line itself, for a record that the
    format carries. *)
Lemma sample_row_cells (d : HistoricalData.t) (p c v : string) :
  HistoricalData.partNumber d = Some p ->
  HistoricalData.country d = Some c ->
  HistoricalData.vendor d = Some v ->
  csv_safe p = true -> csv_safe c = true -> csv_safe v = true ->
  csv_safe (HistoricalData.date d) = true ->
  trim (HistoricalData.date d) = HistoricalData.date d ->
  lacks newline (sample_row d) = true
  /\ map (fun x => strip_quotes (trim x)) (split comma (sample_row d))
     = [p; c; NumberToString (HistoricalData.usdPrice d);
        NumberToString (HistoricalData.quantity d);
        NumberToString (HistoricalData.leadTimeDays d); v; HistoricalData.date d].
Proof.
  intros Ep Ec Ev Hp Hc Hv Hd Ht. unfold sample_row. rewrite Ep, Ec, Ev.
  cbn [template].
  destruct (csv_safe_lacks _ Hp) as (P1 & P2 & P3).
  destruct (csv_safe_lacks _ Hc) as (C1 & C2 & C3).
  destruct (csv_safe_lacks _ Hv) as (V1 & V2 & V3).
  destruct (csv_safe_lacks _ Hd) as (D1 & D2 & D3).
  pose proof (fun x => numeric_lacks _ (numeric_NumberToString x)) as N.
  split.
  - apply lacks_join; [reflexivity|].
    repeat constructor; rewrite ?lacks_quoted by reflexivity; try assumption; apply N.
  - change "," with (String comma EmptyString).
    rewrite split_join; [|discriminate|].
    2:{ repeat constructor; rewrite ?lacks_quoted by reflexivity; try assumption; apply N. }
    cbn [map].
    rewrite !trim_quoted, !strip_quotes_quoted, !NumberToString_cell, Ht.
    now rewrite (strip_quotes_lacks _ D2).
Qed.

(** The properties of the object built from seven cells under the tokens of
    the sample header. *)
Lemma sample_object (a b c d e f g : string) :
  let obj := assign sample_tokens [a; b; c; d; e; f; g] ∅ in
  obj !! "part number" = Some a /\ obj !! "partnumber" = None /\ obj !! "sku" = None
  /\ obj !! "country" = Some b
  /\ obj !! "usd pricing" = Some c /\ obj !! "usd price" = None /\ obj !! "price" = None
  /\ obj !! "quantity" = Some d /\ obj !! "qty" = None
  /\ obj !! "lead time days" = Some e /\ obj !! "lead time" = None
  /\ obj !! "leadtime" = None
  /\ obj !! "vendor" = Some f /\ obj !! "date" = Some g.
Proof. vm_compute. repeat split. Qed.

Lemma or_default_some (s d : string) :
  is_empty s = false -> or_default (Some s) d = s.
Proof. intros H. simpl. now rewrite H. Qed.

Lemma is_empty_false (s : string) : s <> EmptyString -> is_empty s = false.
Proof. destruct s; [contradiction|reflexivity]. Qed.

(** One data line of the sample format gives back the values of its
    record. *)
Lemma sample_row_decoded (env : Env) (i : nat) (d : HistoricalData.t) :
  carried d ->
  lacks newline (sample_row d) = true
  /\ csv_fields (historicalData_of env i (row_object sample_tokens (sample_row d)))
     = csv_fields d.
Proof.
  intros (p & c & v & Ep & Ec & Ev & Hne & Hp & Hc & Hv & Hd & Hdne & Ht & Rx & Rq & Rl).
  destruct (sample_row_cells d p c v Ep Ec Ev Hp Hc Hv Hd Ht) as [Hnl Hcells].
  split; [exact Hnl|].
  unfold row_object. rewrite Hcells.
  destruct (sample_object p c (NumberToString (HistoricalData.usdPrice d))
              (NumberToString (HistoricalData.quantity d))
              (NumberToString (HistoricalData.leadTimeDays d)) v (HistoricalData.date d))
    as (L1 & L2 & L3 & L4 & L5 & L6 & L7 & L8 & L9 & L10 & L11 & L12 & L13 & L14).
  unfold csv_fields, historicalData_of.
  cbn [HistoricalData.partNumber HistoricalData.country HistoricalData.vendor
       HistoricalData.date HistoricalData.usdPrice HistoricalData.quantity
       HistoricalData.leadTimeDays].
  rewrite L1, L2, L3, L4, L5, L6, L7, L8, L9, L10, L11, L12, L13, L14.
  pose proof (is_empty_false _ Hne) as Ip.
  pose proof (is_empty_false _ Hdne) as Id.
  cbn [or_else]. rewrite Ip, ?NumberToString_not_empty. cbv iota. cbn [or_else].
  rewrite ?Ip, ?NumberToString_not_empty. cbv iota.
  rewrite !or_default_some by (apply NumberToString_not_empty || assumption).
  now rewrite Rx, Rq, Rl, Ep, Ec, Ev.
Qed.

Lemma sample_row_quoted (d : HistoricalData.t) :
  exists s, sample_row d = String dquote s.
Proof. unfold sample_row, quoted. eexists. reflexivity. Qed.

Lemma map_imap_map {A B C D : Type} (f : nat -> B -> C) (g : C -> D)
  (r : A -> B) (h : A -> D) (l : list A) :
  (forall i x, In x l -> g (f i (r x)) = h x) ->
  map g (imap f (map r l)) = map h l.
Proof.
  revert f. induction l as [|x l IH]; intros f H; [reflexivity|].
  cbn [imap map]. f_equal; [apply H; now left|].
  apply IH. intros i y Hy. apply H. now right.
Qed.

(** C2, amended. A list of records that the sample format carries is read
    back by [parseCSV] from its encoding with the same part number, country,
    vendor, date, price, quantity and lead time, in the same order. *)
Theorem sample_csv_round_trip (env : Env) (data : list HistoricalData.t) :
  List.Forall carried data ->
  map csv_fields (parseCSV env (generateSampleCSV data)) = map csv_fields data.
Proof.
  intros H.
  assert (Hrows : List.Forall (fun s => lacks newline s = true)
                    (sample_header :: map sample_row data)).
  { constructor; [reflexivity|]. apply List.Forall_forall. intros s Hs.
    apply List.in_map_iff in Hs as (d & <- & Hd).
    rewrite List.Forall_forall in H.
    exact (proj1 (sample_row_decoded env 0 d (H d Hd))). }
  unfold parseCSV.
  rewrite generateSampleCSV_lines, split_join by (discriminate || exact Hrows).
  destruct data as [|d0 data]; [reflexivity|].
  set (rows := map sample_row (d0 :: data)).
  change (length (sample_header :: rows) <? 2)%nat with false. cbv iota.
  rewrite historical_headers_sample.
  assert (Hlines : data_lines (sample_header :: rows) = rows).
  { unfold data_lines. cbn [tail]. apply filter_all, List.Forall_forall.
    intros s Hs. apply List.in_map_iff in Hs as (d & <- & _).
    destruct (sample_row_quoted d) as [s ->]. now rewrite trim_quote_not_empty. }
  rewrite Hlines. unfold rows.
  apply map_imap_map. intros i d Hd.
  rewrite List.Forall_forall in H.
  exact (proj2 (sample_row_decoded env i d (H d Hd))).
Qed.

(** The part of the claim that fails.  Records whose strings hold no comma,
    quote or newline: the empty part number comes back as [undefined], the
    date with a space at its end comes back without it, the empty date comes
    back as the time of decoding, the price [-0] comes back as [0], the
    quantity 2.5 and the lead time 2.5 come back as 2.  The last record is
    one that [parseCSV] itself returns from a file: its part number, price,
    quantity and date all come back changed. *)
Lemma sample_csv_round_trip_fails :
  (plain_strings unnamed_part = true
   /\ map HistoricalData.partNumber
         (parseCSV example_env (generateSampleCSV [unnamed_part])) = [None]
   /\ map csv_fields (parseCSV example_env (generateSampleCSV [unnamed_part]))
      <> map csv_fields [unnamed_part])
  /\ (plain_strings padded_date = true
      /\ map HistoricalData.date
            (parseCSV example_env (generateSampleCSV [padded_date])) = ["2024-01-01"]
      /\ map csv_fields (parseCSV example_env (generateSampleCSV [padded_date]))
         <> map csv_fields [padded_date])
  /\ (plain_strings half_quantity = true
      /\ map HistoricalData.quantity
            (parseCSV example_env (generateSampleCSV [half_quantity])) = [2]
      /\ map csv_fields (parseCSV example_env (generateSampleCSV [half_quantity]))
         <> map csv_fields [half_quantity])
  /\ (plain_strings negative_zero_price = true
      /\ get_sign (HistoricalData.usdPrice negative_zero_price) = true
      /\ map (fun d => get_sign (HistoricalData.usdPrice d))
            (parseCSV example_env (generateSampleCSV [negative_zero_price])) = [false]
      /\ map csv_fields (parseCSV example_env (generateSampleCSV [negative_zero_price]))
         <> map csv_fields [negative_zero_price])
  /\ (plain_strings half_lead_time = true
      /\ map HistoricalData.leadTimeDays
            (parseCSV example_env (generateSampleCSV [half_lead_time])) = [2]
      /\ map csv_fields (parseCSV example_env (generateSampleCSV [half_lead_time]))
         <> map csv_fields [half_lead_time])
  /\ (plain_strings undated = true
      /\ map HistoricalData.date
            (parseCSV example_env (generateSampleCSV [undated]))
         = ["2026-01-01T00:00:00.000Z"]
      /\ map csv_fields (parseCSV example_env (generateSampleCSV [undated]))
         <> map csv_fields [undated])
  /\ (parseCSV example_env odd_upload = [uploaded_odd]
      /\ plain_strings uploaded_odd = true
      /\ map (fun d => (HistoricalData.partNumber d, HistoricalData.date d))
            (parseCSV example_env (generateSampleCSV [uploaded_odd]))
         = [(None, "2024-01-01")]
      /\ map HistoricalData.quantity
            (parseCSV example_env (generateSampleCSV [uploaded_odd])) = [1]
      /\ map csv_fields (parseCSV example_env (generateSampleCSV [uploaded_odd]))
         <> map csv_fields [uploaded_odd]).
Proof.
  repeat match goal with |- _ /\ _ => split end; try (vm_compute; reflexivity).
  - intros E.
    apply (f_equal (map (fun t => fst (fst (fst (fst (fst (fst t)))))))) in E.
    vm_compute in E. discriminate E.
  - intros E. apply (f_equal (map (fun t => snd (fst (fst (fst t)))))) in E.
    vm_compute in E. discriminate E.
  - intros E. apply (f_equal (map (fun t => snd (fst t) =? 2))) in E.
    vm_compute in E. discriminate E.
  - intros E. apply (f_equal (map (fun t => get_sign (snd (fst (fst t)))))) in E.
    vm_compute in E. discriminate E.
  - intros E. apply (f_equal (map (fun t => snd t =? 2))) in E.
    vm_compute in E. discriminate E.
  - intros E. apply (f_equal (map (fun t => snd (fst (fst (fst t)))))) in E.
    vm_compute in E. discriminate E.
  - intros E.
    apply (f_equal (map (fun t => fst (fst (fst (fst (fst (fst t)))))))) in E.
    vm_compute in E. discriminate E.
Qed.

Lemma sample_csv_round_trip_witness :
  map csv_fields (parseCSV example_env (generateSampleCSV two_records))
  = map csv_fields two_records.
Proof.
  apply (sample_csv_round_trip example_env two_records).
  repeat constructor.
  - exists "SKU-1001", "USA", "GlobalLogistics Inc".
    repeat split; try discriminate; vm_compute; reflexivity.
  - exists "CHIP-M2", "Vietnam", "TechSupply Co".
    repeat split; try discriminate; vm_compute; reflexivity.
Defined.


(** ** Numeric cells *)

Lemma nan_not_zero : nan <> 0.
Proof.
  intros E. apply (f_equal is_nan) in E. vm_compute in E. discriminate E.
Qed.

Lemma parseFloat_zero : parseFloat "0" = 0.
Proof. vm_compute. reflexivity. Qed.

Lemma parseInt_zero : parseInt "0" = 0.
Proof. vm_compute. reflexivity. Qed.

(** No cell with text: the field is 0. *)
Lemma lenient_zero (parse : string -> float) (cells : list (option string)) :
  List.Forall falsy cells -> lenient parse cells = 0.
Proof.
  unfold lenient. induction 1 as [|c cells [-> | ->] _ IH]; [reflexivity| |]; exact IH.
Qed.

Lemma lenient_1 (parse : string -> float) (a : option string) :
  parse "0" = 0 -> parse (or_default a "0") = lenient parse [a].
Proof.
  intros H0. unfold lenient. destruct a as [[|c s]|]; cbn [first_cell or_default is_empty];
    try exact H0; reflexivity.
Qed.

Lemma lenient_2 (parse : string -> float) (a b : option string) :
  parse "0" = 0 -> parse (or_default (or_else a b) "0") = lenient parse [a; b].
Proof.
  intros H0. unfold lenient.
  destruct a as [[|c s]|]; cbn [first_cell or_else or_default is_empty];
    try reflexivity; apply (lenient_1 parse b H0).
Qed.

Lemma lenient_3 (parse : string -> float) (a b c : option string) :
  parse "0" = 0 ->
  parse (or_default (or_else (or_else a b) c) "0") = lenient parse [a; b; c].
Proof.
  intros H0. unfold lenient.
  destruct a as [[|x s]|]; cbn [first_cell or_else or_default is_empty];
    try reflexivity; apply (lenient_2 parse b c H0).
Qed.

Lemma Forall_imap {A B : Type} (P : B -> Prop) (f : nat -> A -> B) (l : list A) :
  (forall i x, In x l -> P (f i x)) -> List.Forall P (imap f l).
Proof.
  revert f. induction l as [|x l IH]; intros f H; cbn [imap]; constructor.
  - apply H. now left.
  - apply IH. intros i y Hy. apply H. now right.
Qed.

Lemma In_rows_of_key (k : string) (pts : list RawPoint.t) (p : RawPoint.t) :
  In p (rows_of_key k pts) -> In p pts.
Proof. unfold rows_of_key. intros H. now apply List.filter_In in H. Qed.

(** C5, amended. In the three decoders, for every input and every data row,
    each numeric field is 0 when none of its columns holds a non-empty cell
    in the row, and otherwise is what [parseFloat] or [parseInt] makes of the
    first such cell (the Number of its longest numeric prefix, [NaN] when it
    has none); the decoders are total, no error is raised. *)
Theorem numeric_fields_lenient (env : Env) (csvText : string) :
  let lines := split newline csvText in
  List.Forall (fun r => exists line, In line (data_lines lines) /\
      let obj := row_object (historical_headers lines) line in
      HistoricalData.usdPrice r
      = lenient parseFloat [obj !! "usd pricing"; obj !! "usd price"; obj !! "price"]
      /\ HistoricalData.quantity r = lenient parseInt [obj !! "quantity"; obj !! "qty"]
      /\ HistoricalData.leadTimeDays r
         = lenient parseInt [obj !! "lead time days"; obj !! "lead time"; obj !! "leadtime"])
    (parseCSV env csvText)
  /\ List.Forall (fun r => exists line, In line (data_lines lines) /\
        let obj := row_object (plain_headers lines) line in
        NegotiatedRate.proposedPrice r
        = lenient parseFloat [obj !! "proposed price"; obj !! "price"]
        /\ NegotiatedRate.proposedLeadTime r
           = lenient parseInt [obj !! "proposed lead time"; obj !! "lead time"])
      (parseNegotiationCSV csvText)
  /\ List.Forall (fun r => List.Forall (fun pt =>
        exists line, In line (data_lines lines) /\
          let obj := row_object (plain_headers lines) line in
          ForecastPoint.predictedPrice pt = lenient parseFloat [obj !! "predicted price"]
          /\ ForecastPoint.predictedLeadTime pt
             = lenient parseInt [obj !! "predicted lead time"]
          /\ ForecastPoint.confidenceIntervalUpper pt
             = lenient parseFloat [obj !! "confidence upper"]
          /\ ForecastPoint.confidenceIntervalLower pt
             = lenient parseFloat [obj !! "confidence lower"])
        (ForecastResult.forecast r))
      (parseForecastCSV csvText).
Proof.
  intros lines. split; [|split].
  - unfold parseCSV. fold lines.
    destruct (length lines <? 2)%nat; [constructor|].
    apply Forall_imap. intros i line Hline. exists line. split; [assumption|].
    unfold historicalData_of.
    cbn [HistoricalData.usdPrice HistoricalData.quantity HistoricalData.leadTimeDays].
    rewrite (lenient_3 parseFloat), (lenient_2 parseInt), (lenient_3 parseInt)
      by (apply parseFloat_zero || apply parseInt_zero).
    repeat split.
  - unfold parseNegotiationCSV. fold lines.
    destruct (length lines <? 2)%nat; [constructor|].
    apply List.Forall_forall. intros r Hr.
    apply List.in_map_iff in Hr as (line & <- & Hline).
    exists line. split; [assumption|].
    unfold negotiatedRate_of.
    cbn [NegotiatedRate.proposedPrice NegotiatedRate.proposedLeadTime].
    rewrite (lenient_2 parseFloat), (lenient_2 parseInt)
      by (apply parseFloat_zero || apply parseInt_zero).
    repeat split.
  - rewrite parseForecastCSV_groups. apply List.Forall_forall. intros r Hr.
    apply List.in_map_iff in Hr as (k & <- & _).
    apply List.Forall_forall. intros pt Hpt.
    unfold summarize, group_of in Hpt. cbn [ForecastResult.forecast] in Hpt.
    apply List.in_map_iff in Hpt as (p & <- & Hp).
    apply In_rows_of_key in Hp. unfold rawPoints in Hp. fold lines in Hp.
    apply List.in_map_iff in Hp as (line & <- & Hline).
    exists line. split; [assumption|].
    unfold point_of, rawPoint_of.
    cbn [ForecastPoint.predictedPrice ForecastPoint.predictedLeadTime
         ForecastPoint.confidenceIntervalUpper ForecastPoint.confidenceIntervalLower
         RawPoint.predictedPrice RawPoint.predictedLeadTime
         RawPoint.confidenceIntervalUpper RawPoint.confidenceIntervalLower].
    rewrite !(lenient_1 parseFloat), (lenient_1 parseInt)
      by (apply parseFloat_zero || apply parseInt_zero).
    repeat split.
Qed.

(** The part of the claim that fails. In each of the three files a numeric
    column holds text that is no number; the decoders return [NaN] in these
    fields, which is not 0. *)
Lemma unparseable_numeric_fields_are_NaN :
  map (fun r => (HistoricalData.usdPrice r, HistoricalData.quantity r,
                 HistoricalData.leadTimeDays r))
      (parseCSV example_env unparseable_historical)
  = [(nan, nan, nan)]
  /\ map (fun r => (NegotiatedRate.proposedPrice r, NegotiatedRate.proposedLeadTime r))
         (parseNegotiationCSV unparseable_negotiation)
     = [(nan, nan)]
  /\ map (fun r => map (fun pt => (ForecastPoint.predictedPrice pt,
                                   ForecastPoint.predictedLeadTime pt,
                                   ForecastPoint.confidenceIntervalUpper pt,
                                   ForecastPoint.confidenceIntervalLower pt))
                       (ForecastResult.forecast r))
         (parseForecastCSV unparseable_forecast)
     = [[(nan, nan, nan, nan)]]
  /\ nan <> 0.
Proof.
  split; [vm_compute; reflexivity|]. split; [vm_compute; reflexivity|].
  split; [vm_compute; reflexivity|]. exact nan_not_zero.
Qed.

(** The record of the specification for the negotiation file. *)
Example parseNegotiationCSV_one_row :
  parseNegotiationCSV
    ("Part Number,Vendor,Country,Proposed Price,Proposed Lead Time"
     +:+ String newline ("SKU-1,VendorA,USA,100.5,20" +:+ String newline EmptyString))
  = [NegotiatedRate.mk (Some "SKU-1") (Some "VendorA") (Some "USA") 100.5 20].
Proof. vm_compute. reflexivity. Qed.


(** ** Grouping by key where the key strings are faithful *)

Lemma group_key_of_triple (p q : RawPoint.t) :
  row_triple p = row_triple q -> group_key p = group_key q.
Proof.
  unfold row_triple, group_key. intros E. injection E as -> -> ->. reflexivity.
Qed.

Lemma key_faithful_app_l (pts : list RawPoint.t) (p : RawPoint.t) :
  key_faithful (pts ++ [p]) -> key_faithful pts.
Proof.
  intros H a b Ha Hb. apply H; apply List.in_or_app; now left.
Qed.

Lemma first_fields_app (rows more : list RawPoint.t) :
  rows <> [] -> first_fields (rows ++ more) = first_fields rows.
Proof. destruct rows; [contradiction|reflexivity]. Qed.

Lemma result_triple_group (k : string) (pts : list RawPoint.t) :
  result_triple (summarize (group_of k pts)) = first_fields (rows_of_key k pts).
Proof.
  unfold result_triple, summarize, group_of.
  cbn [ForecastResult.partNumber ForecastResult.vendor ForecastResult.country].
  now destruct (first_fields (rows_of_key k pts)) as [[a b] c].
Qed.

Lemma first_fields_of_key (k : string) (pts : list RawPoint.t) :
  In k (map group_key pts) ->
  exists q, In q pts /\ group_key q = k /\ first_fields (rows_of_key k pts) = row_triple q.
Proof.
  intros H. destruct (rows_of_key_cons _ _ H) as (q & rows & E).
  exists q. assert (Hq : In q (rows_of_key k pts)) by (rewrite E; now left).
  apply List.filter_In in Hq as [Hq Hk]. apply String.eqb_eq in Hk.
  repeat split; try assumption. now rewrite E.
Qed.

(** The keys of the groups are the distinct keys of the rows in first-seen
    order. *)
Lemma group_triples (pts : list RawPoint.t) :
  key_faithful pts ->
  map (fun k => first_fields (rows_of_key k pts)) (from_Set (map group_key pts))
  = from_Set (map row_triple pts).
Proof.
  induction pts as [|p pts IH] using rev_ind; intros Hf; [reflexivity|].
  specialize (IH (key_faithful_app_l _ _ Hf)).
  rewrite !map_app. cbn [map]. rewrite !from_Set_snoc, <- IH. unfold Set_add.
  set (ks := from_Set (map group_key pts)).
  assert (Hks : forall k, In k ks <-> In k (map group_key pts)) by (intro; apply In_from_Set).
  assert (Hsame : forall k, In k ks ->
            first_fields (rows_of_key k (pts ++ [p])) = first_fields (rows_of_key k pts)).
  { intros k Hk. rewrite rows_of_key_snoc. apply first_fields_app.
    apply Hks in Hk. destruct (rows_of_key_cons _ _ Hk) as (q & rows & ->). discriminate. }
  destruct (decide (group_key p ∈ ks)) as [Hin|Hin].
  - rewrite list_elem_of_In in Hin.
    rewrite decide_True.
    + now apply List.map_ext_in.
    + apply list_elem_of_In, List.in_map_iff. exists (group_key p). split; [|assumption].
      destruct (first_fields_of_key _ _ (proj1 (Hks _) Hin)) as (q & Hq & Hk & ->).
      apply Hf; [apply List.in_or_app; now left|apply List.in_or_app; right; now left|assumption].
  - rewrite list_elem_of_In in Hin.
    rewrite decide_False.
    + rewrite map_app. cbn [map]. f_equal; [now apply List.map_ext_in|].
      rewrite rows_of_key_snoc, String.eqb_refl, rows_of_key_nil by (now rewrite <- Hks).
      reflexivity.
    + rewrite list_elem_of_In, List.in_map_iff. intros (k & Ek & Hk).
      destruct (first_fields_of_key _ _ (proj1 (Hks _) Hk)) as (q & Hq & Hkq & E).
      rewrite E in Ek. apply group_key_of_triple in Ek.
      apply Hin. now rewrite <- Ek, Hkq.
Qed.

Lemma rows_of_key_triple (k : string) (pts : list RawPoint.t) :
  key_faithful pts -> In k (map group_key pts) ->
  rows_of_key k pts = rows_of_triple (first_fields (rows_of_key k pts)) pts.
Proof.
  intros Hf Hk. destruct (first_fields_of_key _ _ Hk) as (q & Hq & <- & ->).
  apply List.filter_ext_in. intros p Hp.
  destruct (String.eqb_spec (group_key p) (group_key q)) as [E|E].
  - symmetry. apply bool_decide_eq_true. now apply Hf.
  - symmetry. apply bool_decide_eq_false. intros Et. now apply E, group_key_of_triple.
Qed.

(** What C3 states holds for the files whose key strings are faithful: one
    result per distinct key of the rows, in first-seen order, each with the
    points of the rows of its key in input order. *)
Lemma parseForecastCSV_by_triple (csvText : string) :
  key_faithful (rawPoints csvText) ->
  map result_triple (parseForecastCSV csvText)
  = from_Set (map row_triple (rawPoints csvText))
  /\ List.Forall (fun r =>
       ForecastResult.forecast r
       = map point_of (rows_of_triple (result_triple r) (rawPoints csvText)))
     (parseForecastCSV csvText).
Proof.
  intros Hf. rewrite parseForecastCSV_groups. split.
  - rewrite List.map_map, <- (group_triples _ Hf).
    apply List.map_ext. intros k. apply result_triple_group.
  - apply List.Forall_forall. intros r Hr.
    apply List.in_map_iff in Hr as (k & <- & Hk).
    apply (proj1 (In_from_Set _ _)) in Hk.
    rewrite result_triple_group, <- (rows_of_key_triple k _ Hf Hk). reflexivity.
Qed.

(** Key strings are faithful when part, vendor and country are present in
    every row and hold no [|]. *)
Lemma bar_free_faithful (pts : list RawPoint.t) :
  List.Forall bar_free pts -> key_faithful pts.
Proof.
  intros H p q Hp Hq E. rewrite List.Forall_forall in H.
  destruct (H p Hp) as (a & b & c & Ep & Ha & Hb & Hc).
  destruct (H q Hq) as (a' & b' & c' & Eq' & Ha' & Hb' & Hc').
  rewrite Ep, Eq'. unfold group_key in E. unfold row_triple in Ep, Eq'.
  injection Ep as P1 P2 P3. injection Eq' as Q1 Q2 Q3.
  rewrite P1, P2, P3, Q1, Q2, Q3 in E. cbn [template] in E.
  assert (S1 : split "|" (join "|" [a; b; c]) = [a; b; c]).
  { apply (split_join "|"); [discriminate|]. now repeat constructor. }
  assert (S2 : split "|" (join "|" [a'; b'; c']) = [a'; b'; c']).
  { apply (split_join "|"); [discriminate|]. now repeat constructor. }
  change (join "|" [a; b; c] = join "|" [a'; b'; c']) in E.
  rewrite E, S2 in S1. now injection S1 as -> -> ->.
Qed.


(** * Further properties of the decoders *)

(** ** No decoded field holds a separator *)

Lemma split_pieces_lack_sep (sep : ascii) (s : string) :
  List.Forall (fun x => lacks sep x = true) (split sep s).
Proof.
  induction s as [|c s IH]; cbn [split]; [repeat constructor|].
  destruct (Ascii.eqb c sep) eqn:E; [now constructor|].
  destruct (split sep s) as [|h t].
  - repeat constructor. cbn [lacks]. now rewrite E.
  - inversion IH as [|? ? Hh Ht]; subst. constructor; [|exact Ht].
    cbn [lacks]. now rewrite E, Hh.
Qed.

Lemma split_pieces_lack (c sep : ascii) (s : string) :
  lacks c s = true -> List.Forall (fun x => lacks c x = true) (split sep s).
Proof.
  induction s as [|a s IH]; cbn [split lacks]; [repeat constructor|].
  intros H. apply andb_prop in H as [Ha Hs]. specialize (IH Hs).
  destruct (Ascii.eqb a sep); [now constructor|].
  destruct (split sep s) as [|h t].
  - repeat constructor. cbn [lacks]. now rewrite Ha.
  - inversion IH as [|? ? Hh Ht]; subst. constructor; [|exact Ht].
    cbn [lacks]. now rewrite Ha, Hh.
Qed.

Lemma lacks_trimStart (c : ascii) (s : string) :
  lacks c s = true -> lacks c (trimStart s) = true.
Proof.
  induction s as [|a s IH]; cbn [trimStart lacks]; [reflexivity|].
  intros H. destruct (is_whitespace a); [|exact H].
  apply andb_prop in H as [_ Hs]. now apply IH.
Qed.

Lemma lacks_trimEnd (c : ascii) (s : string) :
  lacks c s = true -> lacks c (trimEnd s) = true.
Proof.
  induction s as [|a s IH]; cbn [trimEnd lacks]; [reflexivity|].
  intros H. apply andb_prop in H as [Ha Hs].
  destruct (is_whitespace a && is_empty (trimEnd s)); [reflexivity|].
  cbn [lacks]. now rewrite Ha, IH.
Qed.

Lemma lacks_trim (c : ascii) (s : string) :
  lacks c s = true -> lacks c (trim s) = true.
Proof. intros H. unfold trim. now apply lacks_trimEnd, lacks_trimStart. Qed.

Lemma lacks_drop_trailing_quote (c : ascii) (s : string) :
  lacks c s = true -> lacks c (drop_trailing_quote s) = true.
Proof.
  induction s as [|a s IH]; cbn [drop_trailing_quote lacks]; [reflexivity|].
  intros H. apply andb_prop in H as [Ha Hs].
  destruct (Ascii.eqb a dquote && is_empty s); [reflexivity|].
  cbn [lacks]. now rewrite Ha, IH.
Qed.

Lemma lacks_strip_quotes (c : ascii) (s : string) :
  lacks c s = true -> lacks c (strip_quotes s) = true.
Proof.
  intros H. unfold strip_quotes. apply lacks_drop_trailing_quote.
  destruct s as [|a s]; [reflexivity|]. cbn [drop_leading_quote].
  destruct (Ascii.eqb a dquote); [|exact H].
  cbn [lacks] in H. now apply andb_prop in H as [_ Hs].
Qed.

(** Every value of a row object is a cleaned cell of the line. *)
Lemma assign_values (P : string -> Prop) (headers values : list string) :
  forall obj : gmap string string,
    List.Forall P values ->
    (forall k v, obj !! k = Some v -> P v) ->
    forall k v, assign headers values obj !! k = Some v -> P v.
Proof.
  revert values. induction headers as [|h hs IH]; intros values obj Hv Ho k v;
    cbn [assign]; [apply Ho|].
  apply IH.
  - destruct values as [|x xs]; [constructor|]. now inversion Hv.
  - intros k' v'. destruct values as [|x xs].
    + intros E. apply lookup_delete_Some in E as [_ E]. now apply (Ho k').
    + intros E. apply lookup_insert_Some in E as [[_ <-]|[_ E]].
      * now inversion Hv.
      * now apply (Ho k').
Qed.

Lemma row_object_values (c : ascii) (headers : list string) (line : string) :
  (c = comma \/ lacks c line = true) ->
  forall k v, row_object headers line !! k = Some v -> lacks c v = true.
Proof.
  intros Hc. unfold row_object.
  apply assign_values with (P := fun v => lacks c v = true).
  - apply List.Forall_map.
    assert (H : List.Forall (fun x => lacks c x = true) (split comma line)).
    { destruct Hc as [->|Hc]; [apply split_pieces_lack_sep|now apply split_pieces_lack]. }
    eapply List.Forall_impl; [|exact H]. intros x Hx.
    now apply lacks_strip_quotes, lacks_trim.
  - intros k v E. now rewrite lookup_empty in E.
Qed.

Lemma data_lines_lack_newline (csvText : string) (line : string) :
  In line (data_lines (split newline csvText)) -> lacks newline line = true.
Proof.
  unfold data_lines. intros H. apply List.filter_In in H as [H _].
  pose proof (split_pieces_lack_sep newline csvText) as F.
  rewrite List.Forall_forall in F. apply F.
  destruct (split newline csvText) as [|l0 ls]; [contradiction|now right].
Qed.

Lemma row_object_separator_free (headers : list string) (csvText line : string) (k : string) :
  In line (data_lines (split newline csvText)) ->
  separator_free (row_object headers line !! k).
Proof.
  intros Hl s E. split.
  - eapply row_object_values; [now left|exact E].
  - eapply row_object_values; [right; eapply data_lines_lack_newline; exact Hl|exact E].
Qed.

Lemma or_else_separator_free (a b : option string) :
  separator_free a -> separator_free b -> separator_free (or_else a b).
Proof.
  intros Ha Hb. unfold or_else. destruct a as [s|]; [|exact Hb].
  destruct (is_empty s); [exact Hb|exact Ha].
Qed.

Lemma rawPoints_separator_free (csvText : string) :
  List.Forall (fun p =>
    separator_free (RawPoint.partNumber p) /\ separator_free (RawPoint.vendor p)
    /\ separator_free (RawPoint.country p) /\ separator_free (RawPoint.date p))
    (rawPoints csvText).
Proof.
  unfold rawPoints. apply List.Forall_map, List.Forall_forall. intros line Hl.
  cbn [rawPoint_of RawPoint.partNumber RawPoint.vendor RawPoint.country RawPoint.date].
  repeat match goal with |- _ /\ _ => split end;
    repeat apply or_else_separator_free;
    eapply row_object_separator_free; exact Hl.
Qed.

(** X1. Whatever the text, no part number, vendor or country that the three
    decoders return, and no date of a decoded forecast point, contains a
    comma or a line feed: every line is cut at each comma, quoted or not. *)
Theorem decoded_fields_without_separators (env : Env) (csvText : string) :
  List.Forall (fun d =>
      separator_free (HistoricalData.partNumber d)
      /\ separator_free (HistoricalData.country d)
      /\ separator_free (HistoricalData.vendor d))
    (parseCSV env csvText)
  /\ List.Forall (fun r =>
      separator_free (NegotiatedRate.partNumber r)
      /\ separator_free (NegotiatedRate.vendor r)
      /\ separator_free (NegotiatedRate.country r))
    (parseNegotiationCSV csvText)
  /\ List.Forall (fun r =>
      separator_free (ForecastResult.partNumber r)
      /\ separator_free (ForecastResult.vendor r)
      /\ separator_free (ForecastResult.country r)
      /\ List.Forall (fun pt => separator_free (ForecastPoint.date pt))
                     (ForecastResult.forecast r))
    (parseForecastCSV csvText).
Proof.
  split; [|split].
  - unfold parseCSV. destruct (length (split newline csvText) <? 2)%nat; [constructor|].
    apply Forall_imap. intros i line Hl.
    cbn [historicalData_of HistoricalData.partNumber HistoricalData.country
         HistoricalData.vendor].
    repeat match goal with |- _ /\ _ => split end;
      repeat apply or_else_separator_free;
      eapply row_object_separator_free; exact Hl.
  - unfold parseNegotiationCSV.
    destruct (length (split newline csvText) <? 2)%nat; [constructor|].
    apply List.Forall_map, List.Forall_forall. intros line Hl.
    cbn [negotiatedRate_of NegotiatedRate.partNumber NegotiatedRate.country
         NegotiatedRate.vendor].
    repeat match goal with |- _ /\ _ => split end;
      repeat apply or_else_separator_free;
      eapply row_object_separator_free; exact Hl.
  - rewrite parseForecastCSV_groups.
    pose proof (rawPoints_separator_free csvText) as F.
    rewrite List.Forall_forall in F.
    apply List.Forall_map, List.Forall_forall. intros k Hk.
    apply (proj1 (In_from_Set _ _)) in Hk.
    destruct (first_fields_of_key _ _ Hk) as (q & Hq & _ & E).
    pose proof (result_triple_group k (rawPoints csvText)) as T.
    rewrite E in T.
    pose proof (f_equal (fun t => fst (fst t)) T) as T1.
    pose proof (f_equal (fun t => snd (fst t)) T) as T2.
    pose proof (f_equal snd T) as T3.
    cbv beta in T1, T2. unfold result_triple, row_triple in T1, T2, T3.
    cbn [fst snd] in T1, T2, T3. rewrite T1, T2, T3.
    destruct (F q Hq) as (Hp & Hv & Hc & _).
    split; [exact Hp|]. split; [exact Hv|]. split; [exact Hc|].
    cbn [summarize group_of ForecastResult.forecast].
    apply List.Forall_map, List.Forall_forall. intros p Hp'.
    apply In_rows_of_key in Hp'. cbn [point_of ForecastPoint.date].
    now destruct (F p Hp') as (_ & _ & _ & Hd).
Qed.


(** ** Blank lines and surplus cells *)

Lemma parseCSV_lines (env : Env) (csvText : string) :
  parseCSV env csvText
  = imap (fun i line =>
            historicalData_of env i
              (row_object (historical_headers (split newline csvText)) line))
         (data_lines (split newline csvText)).
Proof.
  unfold parseCSV. destruct (split newline csvText) as [|l0 [|l1 ls]]; reflexivity.
Qed.

Lemma parseNegotiationCSV_lines (csvText : string) :
  parseNegotiationCSV csvText
  = map (fun line =>
           negotiatedRate_of (row_object (plain_headers (split newline csvText)) line))
        (data_lines (split newline csvText)).
Proof.
  unfold parseNegotiationCSV.
  destruct (split newline csvText) as [|l0 [|l1 ls]]; reflexivity.
Qed.

Lemma split_text_of_lines (header : string) (rows : list string) :
  lacks newline header = true ->
  List.Forall (fun l => lacks newline l = true) rows ->
  split newline (text_of_lines (header :: rows)) = header :: rows.
Proof.
  intros Hh Hr. unfold text_of_lines. apply split_join; [discriminate|].
  now constructor.
Qed.

Lemma filter_idem {A : Type} (f : A -> bool) (l : list A) :
  List.filter f (List.filter f l) = List.filter f l.
Proof. apply filter_all, Forall_filter_true. Qed.

Lemma Forall_filter_keeps {A : Type} (P : A -> Prop) (f : A -> bool) (l : list A) :
  List.Forall P l -> List.Forall P (List.filter f l).
Proof.
  intros H. apply List.Forall_forall. intros x Hx.
  apply List.filter_In in Hx as [Hx _].
  rewrite List.Forall_forall in H. now apply H.
Qed.

(** X2. Blank lines between the rows of a file change nothing: for a header
    line and any lines below it, the three decoders return for the file what
    they return for the file without its blank lines (records, their order,
    and the identifiers and time stamps taken per kept row). *)
Theorem decoders_skip_blank_lines (env : Env) (header : string) (rows : list string) :
  lacks newline header = true ->
  List.Forall (fun l => lacks newline l = true) rows ->
  parseCSV env (text_of_lines (header :: rows))
  = parseCSV env (text_of_lines (header :: List.filter (fun l => negb (blank l)) rows))
  /\ parseNegotiationCSV (text_of_lines (header :: rows))
     = parseNegotiationCSV
         (text_of_lines (header :: List.filter (fun l => negb (blank l)) rows))
  /\ parseForecastCSV (text_of_lines (header :: rows))
     = parseForecastCSV
         (text_of_lines (header :: List.filter (fun l => negb (blank l)) rows)).
Proof.
  intros Hh Hr.
  pose proof (split_text_of_lines header rows Hh Hr) as E1.
  pose proof (split_text_of_lines header _ Hh
                (Forall_filter_keeps _ (fun l => negb (blank l)) _ Hr)) as E2.
  assert (D : data_lines (header :: List.filter (fun l => negb (blank l)) rows)
              = data_lines (header :: rows)).
  { unfold data_lines. cbn [tail]. apply filter_idem. }
  split; [|split].
  - rewrite !parseCSV_lines, E1, E2, D. reflexivity.
  - rewrite !parseNegotiationCSV_lines, E1, E2, D. reflexivity.
  - rewrite !parseForecastCSV_groups. unfold rawPoints. rewrite E1, E2, D. reflexivity.
Qed.

Lemma decoders_skip_blank_lines_witness :
  parseCSV example_env (text_of_lines (negotiation_header :: spaced_rows))
  = parseCSV example_env
      (text_of_lines (negotiation_header
                        :: List.filter (fun l => negb (blank l)) spaced_rows))
  /\ parseNegotiationCSV (text_of_lines (negotiation_header :: spaced_rows))
     = parseNegotiationCSV
         (text_of_lines (negotiation_header
                           :: List.filter (fun l => negb (blank l)) spaced_rows))
  /\ parseForecastCSV (text_of_lines (negotiation_header :: spaced_rows))
     = parseForecastCSV
         (text_of_lines (negotiation_header
                           :: List.filter (fun l => negb (blank l)) spaced_rows)).
Proof.
  apply (decoders_skip_blank_lines example_env negotiation_header spaced_rows).
  - vm_compute. reflexivity.
  - vm_compute. repeat constructor.
Defined.

Lemma split_app_sep (sep : ascii) (a b : string) :
  split sep (a +:+ String sep b) = split sep a ++ split sep b.
Proof.
  induction a as [|c a IH].
  - change (EmptyString +:+ String sep b) with (String sep b).
    cbn [split]. now rewrite Ascii.eqb_refl.
  - change (String c a +:+ String sep b) with (String c (a +:+ String sep b)).
    cbn [split]. rewrite IH. destruct (Ascii.eqb c sep); [reflexivity|].
    destruct (split sep a) as [|h t] eqn:E; [|reflexivity].
    exfalso. clear IH. destruct a as [|x a]; cbn [split] in E; [discriminate|].
    destruct (Ascii.eqb x sep); [discriminate|].
    destruct (split sep a); discriminate.
Qed.

Lemma assign_surplus (headers values surplus : list string) :
  forall obj : gmap string string,
    (length headers <= length values)%nat ->
    assign headers (values ++ surplus) obj = assign headers values obj.
Proof.
  revert values. induction headers as [|h hs IH]; intros values obj H;
    cbn [assign]; [reflexivity|].
  destruct values as [|v vs]; [cbn [length] in H; lia|].
  cbn [List.app tail]. apply IH. cbn [length] in H. lia.
Qed.

(** X3. Cells beyond the last header column are ignored: a data line that
    already has a cell for every header token gives the same row object
    when more cells are appended to it. *)
Theorem row_object_ignores_surplus_cells (headers : list string) (line surplus : string) :
  (length headers <= length (split comma line))%nat ->
  row_object headers (line +:+ String comma surplus) = row_object headers line.
Proof.
  intros H. unfold row_object. rewrite split_app_sep, List.map_app.
  apply assign_surplus. now rewrite List.length_map.
Qed.

Lemma row_object_ignores_surplus_cells_witness :
  row_object ["part number"; "vendor"] ("SKU-1,VendorA" +:+ String comma "USA,10")
  = row_object ["part number"; "vendor"] "SKU-1,VendorA".
Proof.
  apply (row_object_ignores_surplus_cells ["part number"; "vendor"] "SKU-1,VendorA" "USA,10").
  vm_compute. lia.
Defined.

(** ** Every row of a forecast file becomes one point *)

Lemma fold_left_add_length {A : Type} (f : A -> nat) (l : list A) (n : nat) :
  fold_left (fun acc x => (acc + f x)%nat) l n = (n + list_sum (map f l))%nat.
Proof.
  revert n. induction l as [|x l IH]; intros n; simpl; [lia|].
  rewrite IH. lia.
Qed.

Lemma list_sum_cons (x : nat) (l : list nat) :
  list_sum (x :: l) = (x + list_sum l)%nat.
Proof. reflexivity. Qed.

Lemma count_one_key (k : string) (ks : list string) :
  List.NoDup ks -> In k ks ->
  list_sum (map (fun k' => if String.eqb k k' then 1 else 0)%nat ks) = 1%nat.
Proof.
  induction 1 as [|x ks Hx Hnd IH]; [contradiction|]. simpl.
  intros [->|Hin].
  - rewrite String.eqb_refl.
    assert (Z : list_sum (map (fun k' => if String.eqb k k' then 1 else 0)%nat ks) = 0%nat).
    { clear IH Hnd. induction ks as [|y ks IH]; [reflexivity|]. simpl.
      destruct (String.eqb_spec k y) as [->|_]; [exfalso; apply Hx; now left|].
      rewrite IH; [reflexivity|]. intros H. apply Hx. now right. }
    rewrite Z. reflexivity.
  - destruct (String.eqb_spec k x) as [->|_]; [contradiction|].
    now rewrite IH.
Qed.

Lemma rows_partition (ks : list string) (pts : list RawPoint.t) :
  List.NoDup ks -> (forall p, In p pts -> In (group_key p) ks) ->
  list_sum (map (fun k => length (rows_of_key k pts)) ks) = length pts.
Proof.
  intros Hnd. induction pts as [|p pts IH]; intros Hin.
  - unfold rows_of_key. cbn [List.filter length].
    clear Hnd Hin. induction ks as [|k ks IHk]; [reflexivity|]. simpl. exact IHk.
  - assert (E : forall ks',
        list_sum (map (fun k => length (rows_of_key k (p :: pts))) ks')
        = (list_sum (map (fun k' => if String.eqb (group_key p) k' then 1 else 0)%nat ks')
           + list_sum (map (fun k => length (rows_of_key k pts)) ks'))%nat).
    { induction ks' as [|k ks' IHk]; [reflexivity|]. cbn [map].
      rewrite !list_sum_cons, IHk.
      assert (R : length (rows_of_key k (p :: pts))
                  = ((if String.eqb (group_key p) k then 1 else 0)
                     + length (rows_of_key k pts))%nat).
      { unfold rows_of_key. cbn [List.filter].
        destruct (String.eqb (group_key p) k); reflexivity. }
      rewrite R. lia. }
    rewrite E, IH, count_one_key; [reflexivity|exact Hnd| |].
    + apply Hin. now left.
    + intros q Hq. apply Hin. now right.
Qed.

(** X4. No row of a forecast file is lost or counted twice: the points of
    all the results that [parseForecastCSV] returns, as [totalUploadedPoints]
    counts them, are as many as the file has non-blank lines below its first
    line. *)
Theorem parseForecastCSV_points_total (csvText : string) :
  totalUploadedPoints (parseForecastCSV csvText)
  = length (data_lines (split newline csvText)).
Proof.
  unfold totalUploadedPoints. rewrite fold_left_add_length, Nat.add_0_l.
  rewrite parseForecastCSV_groups, List.map_map.
  cbn [summarize group_of ForecastResult.forecast].
  rewrite (List.map_ext _ (fun k => length (rows_of_key k (rawPoints csvText))))
    by (intros k; apply List.length_map).
  rewrite rows_partition.
  - unfold rawPoints. apply List.length_map.
  - apply from_Set_NoDup.
  - intros p Hp. apply In_from_Set. now apply List.in_map.
Qed.

(** ** One result per key string *)

Lemma result_key_group (k : string) (pts : list RawPoint.t) :
  In k (map group_key pts) -> result_key (summarize (group_of k pts)) = k.
Proof.
  intros Hk. destruct (first_fields_of_key _ _ Hk) as (q & _ & Eq & E).
  pose proof (result_triple_group k pts) as T. rewrite E in T.
  pose proof (f_equal (fun t => fst (fst t)) T) as T1.
  pose proof (f_equal (fun t => snd (fst t)) T) as T2.
  pose proof (f_equal snd T) as T3.
  cbv beta in T1, T2. unfold result_triple, row_triple in T1, T2, T3.
  cbn [fst snd] in T1, T2, T3.
  unfold result_key. rewrite T1, T2, T3. exact Eq.
Qed.

(** X5. The results of [parseForecastCSV] carry pairwise different key
    strings [part|vendor|country], and these are the key strings of the rows
    in the order in which the file first shows them. *)
Theorem parseForecastCSV_distinct_keys (csvText : string) :
  map result_key (parseForecastCSV csvText)
  = first_occurrences (map group_key (rawPoints csvText))
  /\ List.NoDup (map result_key (parseForecastCSV csvText)).
Proof.
  assert (E : map result_key (parseForecastCSV csvText)
              = from_Set (map group_key (rawPoints csvText))).
  { rewrite parseForecastCSV_groups, List.map_map.
    rewrite <- (List.map_id (from_Set _)) at 2.
    apply List.map_ext_in. intros k Hk. apply result_key_group.
    now apply (proj1 (In_from_Set _ _)) in Hk. }
  split.
  - rewrite E. apply from_Set_first_occurrences.
  - rewrite E. apply from_Set_NoDup.
Qed.


(** * Further properties of the cleansing *)

Lemma filter_sublist {A : Type} (f : A -> bool) (l : list A) :
  sublist (List.filter f l) l.
Proof.
  induction l as [|x l IH]; cbn [List.filter]; [constructor|].
  destruct (f x); now constructor.
Qed.

Lemma filter_length_le {A : Type} (f : A -> bool) (l : list A) :
  (length (List.filter f l) <= length l)%nat.
Proof. apply sublist_length, filter_sublist. Qed.

(** X6. Cleansing only removes: the records kept are records of the input
    in the order of the input, and the count returned with them is the
    number of records removed, so that kept and removed add up to the
    input. *)
Theorem cleanseOutliers_conservation (data : list HistoricalData.t) :
  sublist (Cleansed.cleansed (cleanseOutliers data)) data
  /\ (length (Cleansed.cleansed (cleanseOutliers data))
      + Cleansed.outlierCount (cleanseOutliers data) = length data)%nat.
Proof.
  destruct (Nat.lt_ge_cases (length data) 4) as [H|H].
  - rewrite (cleanseOutliers_small data H). cbn [Cleansed.cleansed Cleansed.outlierCount].
    split; [reflexivity|lia].
  - rewrite (cleanseOutliers_large data H). cbn [Cleansed.cleansed Cleansed.outlierCount].
    split; [apply filter_sublist|].
    pose proof (filter_length_le (in_band (quartiles data)) data). lia.
Qed.

(** ** [NaN] prices *)

Lemma is_nan_true (a : float) : is_nan a = true <-> Prim2SF a = S754_nan.
Proof.
  split.
  - intros H. destruct (Prim2SF a) eqn:E; try reflexivity;
      assert (N : is_nan a = false) by (apply IEEE.is_nan_spec; rewrite E; discriminate);
      congruence.
  - intros E. destruct (is_nan a) eqn:N; [reflexivity|].
    apply IEEE.is_nan_spec in N. contradiction.
Qed.

Lemma leb_not_nan (a b : float) :
  (a <=? b) = true -> is_nan a = false /\ is_nan b = false.
Proof.
  rewrite FloatAxioms.leb_spec, !IEEE.is_nan_spec. unfold SFleb.
  destruct (Prim2SF a) as [sx|sx| |sx mx ex], (Prim2SF b) as [sy|sy| |sy my ey];
    cbn [SFcompare]; intros H; try discriminate H; split; discriminate.
Qed.

Lemma sub_nan (a b : float) :
  is_nan a = true \/ is_nan b = true -> is_nan (a - b) = true.
Proof.
  rewrite !is_nan_true, FloatAxioms.sub_spec. unfold SF64sub, SFsub.
  intros [->| ->]; [reflexivity|]. now destruct (Prim2SF a).
Qed.

Lemma mul_nan (a b : float) : is_nan b = true -> is_nan (a * b) = true.
Proof.
  rewrite !is_nan_true, FloatAxioms.mul_spec. unfold SF64mul, SFmul.
  intros ->. now destruct (Prim2SF a).
Qed.

Lemma within_nan_bound (q1 q3 : float) (d : HistoricalData.t) :
  is_nan q1 = true \/ is_nan q3 = true ->
  within (q1 - 1.5 * (q3 - q1)) (q3 + 1.5 * (q3 - q1)) d = false.
Proof.
  intros Hq. unfold within.
  destruct (q1 - 1.5 * (q3 - q1) <=? HistoricalData.usdPrice d) eqn:E; [|reflexivity].
  exfalso. apply leb_not_nan in E as [E _].
  rewrite sub_nan in E; [discriminate|].
  right. apply mul_nan, sub_nan. destruct Hq as [Hq|Hq]; [now right|now left].
Qed.

Lemma cleanseOutliers_on_sort (data : list HistoricalData.t) :
  cleanseOutliers data
  = cleanseOutliers_on (sort (fun a b => a - b) (map HistoricalData.usdPrice data)) data.
Proof. reflexivity. Qed.

(** X7. With four records or more, and whatever the order in which the sort
    leaves the prices: no record whose price is [NaN] is kept, and when any
    record is kept the prices at the two quartile positions are not [NaN]
    (a [NaN] there empties the result).  [cleanseOutliers] is the case of
    the order of the model's sort. *)
Theorem cleanseOutliers_NaN (values : list float) (data : list HistoricalData.t) :
  (4 <= length data)%nat ->
  List.Forall (fun d => is_nan (HistoricalData.usdPrice d) = false)
              (Cleansed.cleansed (cleanseOutliers_on values data))
  /\ (Cleansed.cleansed (cleanseOutliers_on values data) <> [] ->
      is_nan (get values (length values / 4)) = false
      /\ is_nan (get values (length values * 3 / 4)) = false)
  /\ cleanseOutliers data
     = cleanseOutliers_on (sort (fun a b => a - b) (map HistoricalData.usdPrice data))
                          data.
Proof.
  intros H. unfold cleanseOutliers_on at 1 2.
  destruct (Nat.ltb_spec (length data) 4) as [Hlt|_]; [lia|].
  cbv zeta. cbn [Cleansed.cleansed]. split; [|split].
  - apply List.Forall_forall. intros d Hd.
    apply List.filter_In in Hd as [_ Hd]. unfold within in Hd.
    apply andb_prop in Hd as [Hd _]. now apply leb_not_nan in Hd.
  - intros Hne.
    destruct (is_nan (get values (length values / 4))) eqn:N1.
    + exfalso. apply Hne. apply filter_none, List.Forall_forall. intros d _.
      apply within_nan_bound. now left.
    + destruct (is_nan (get values (length values * 3 / 4))) eqn:N3; [|split; reflexivity].
      exfalso. apply Hne. apply filter_none, List.Forall_forall. intros d _.
      apply within_nan_bound. now right.
  - apply cleanseOutliers_on_sort.
Qed.

(** The witness has a [NaN] price among five records: the sort leaves it
    first, the quartiles are 1 and 3, and the four other records are kept. *)
Lemma cleanseOutliers_NaN_witness :
  List.Forall (fun d => is_nan (HistoricalData.usdPrice d) = false)
              (Cleansed.cleansed (cleanseOutliers_on [nan; 1; 2; 3; 4] nan_first))
  /\ (Cleansed.cleansed (cleanseOutliers_on [nan; 1; 2; 3; 4] nan_first) <> [] ->
      is_nan (get [nan; 1; 2; 3; 4] (length [nan; 1; 2; 3; 4] / 4)) = false
      /\ is_nan (get [nan; 1; 2; 3; 4] (length [nan; 1; 2; 3; 4] * 3 / 4)) = false)
  /\ cleanseOutliers nan_first
     = cleanseOutliers_on
         (sort (fun a b => a - b) (map HistoricalData.usdPrice nan_first)) nan_first.
Proof.
  apply (cleanseOutliers_NaN [nan; 1; 2; 3; 4] nan_first). cbn. lia.
Defined.

Example nan_first_cleansed :
  sort (fun a b => a - b) (map HistoricalData.usdPrice nan_first) = [nan; 1; 2; 3; 4]
  /\ cleanseOutliers nan_first = Cleansed.mk (map priced [1; 2; 3; 4]) 1.
Proof. split; vm_compute; reflexivity. Qed.

(** An order that depends on the sort: the model's insertion leaves the
    [NaN] of these five prices in fourth place, where it is the third
    quartile. *)
Example sort_meeting_NaN :
  sort (fun a b => a - b) [1; 3; 2; nan; 2] = [1; 2; 3; nan; 2].
Proof. vm_compute. reflexivity. Qed.

(** ** One price throughout *)

Lemma is_finite_spec (p : float) :
  is_finite p = true ->
  (exists s, Prim2SF p = S754_zero s) \/ (exists s m e, Prim2SF p = S754_finite s m e).
Proof.
  unfold is_finite, is_infinity. intros H. apply negb_true_iff, orb_false_elim in H as [N I].
  apply IEEE.is_nan_spec in N. rewrite FloatAxioms.eqb_spec, FloatAxioms.abs_spec in I.
  destruct (Prim2SF p) as [s|s| |s m e]; [left; now exists s| | |right; now exists s, m, e].
  - discriminate I.
  - contradiction.
Qed.

Lemma sub_self (p : float) : is_finite p = true -> p - p = 0.
Proof.
  intros H. apply Prim2SF_inj. rewrite FloatAxioms.sub_spec.
  change (Prim2SF 0) with (S754_zero false). unfold SF64sub, SFsub.
  destruct (is_finite_spec p H) as [[s ->]|(s & m & e & ->)].
  - now destruct s.
  - rewrite Z.sub_diag. reflexivity.
Qed.

Lemma sub_zero (p : float) : is_finite p = true -> p - 0 = p.
Proof.
  intros H. apply Prim2SF_inj. rewrite FloatAxioms.sub_spec.
  change (Prim2SF 0) with (S754_zero false). unfold SF64sub, SFsub.
  destruct (is_finite_spec p H) as [[s E]|(s & m & e & E)]; rewrite E.
  - now destruct s.
  - reflexivity.
Qed.

Lemma leb_add_zero (p : float) : is_finite p = true -> (p <=? p + 0) = true.
Proof.
  intros H. rewrite FloatAxioms.leb_spec, FloatAxioms.add_spec.
  change (Prim2SF 0) with (S754_zero false). unfold SF64add, SFadd, SFleb.
  destruct (is_finite_spec p H) as [[s E]|(s & m & e & E)]; rewrite E.
  - now destruct s.
  - now rewrite IEEE.SFcompare_refl.
Qed.

Lemma leb_refl (p : float) : is_finite p = true -> (p <=? p) = true.
Proof.
  intros H. rewrite FloatAxioms.leb_spec. unfold SFleb.
  rewrite IEEE.SFcompare_refl; [reflexivity|].
  destruct (is_finite_spec p H) as [[s E]|(s & m & e & E)]; rewrite E; discriminate.
Qed.

Lemma nth_constant (p : float) (l : list float) (i : nat) :
  List.Forall (fun x => x = p) l -> (i < length l)%nat -> get l i = p.
Proof.
  unfold get. intros H Hi. rewrite List.Forall_forall in H. apply H.
  now apply List.nth_In.
Qed.

(** X8. When every record has the same price, a finite Number, cleansing
    keeps every record and counts no outlier, whatever the number of
    records. *)
Theorem cleanseOutliers_constant_price (data : list HistoricalData.t) (p : float) :
  is_finite p = true ->
  List.Forall (fun d => HistoricalData.usdPrice d = p) data ->
  cleanseOutliers data = Cleansed.mk data 0.
Proof.
  intros Hp Hd.
  destruct (Nat.lt_ge_cases (length data) 4) as [H|H];
    [now apply cleanseOutliers_small|].
  rewrite (cleanseOutliers_large data H).
  assert (Hs : List.Forall (fun x => x = p)
                 (sort (fun a b => a - b) (map HistoricalData.usdPrice data))).
  { eapply Permutation_Forall; [symmetry; apply sort_Permutation|].
    now apply List.Forall_map. }
  assert (Hl : length (sort (fun a b => a - b) (map HistoricalData.usdPrice data))
               = length data) by now rewrite length_sort, List.length_map.
  assert (Q : quartiles data = (p, p)).
  { unfold quartiles. rewrite !(nth_constant p _ _ Hs); [reflexivity| |]; rewrite Hl.
    - apply Nat.Div0.div_lt_upper_bound. lia.
    - apply Nat.Div0.div_lt_upper_bound. lia. }
  rewrite Q.
  assert (F : List.filter (in_band (p, p)) data = data).
  { apply filter_all. eapply List.Forall_impl; [|exact Hd]. intros d E.
    unfold in_band. cbn [fst snd]. rewrite E, (sub_self p Hp).
    change (1.5 * 0) with 0. rewrite (sub_zero p Hp), (leb_refl p Hp).
    now rewrite (leb_add_zero p Hp). }
  rewrite F. f_equal. lia.
Qed.

Lemma cleanseOutliers_constant_price_witness :
  cleanseOutliers flat_prices = Cleansed.mk flat_prices 0.
Proof.
  apply (cleanseOutliers_constant_price flat_prices 5).
  - reflexivity.
  - vm_compute. repeat constructor.
Defined.


(** * The filter bar and the cache of forecasts *)

(** ** The option lists *)

Lemma SortCompare_gt (x y : option string) :
  (0 <? SortCompare x y) = true -> sort_le y x.
Proof.
  destruct x as [a|], y as [b|]; cbn [SortCompare sort_le].
  - unfold String.leb. intros H. rewrite (String.compare_antisym b a).
    destruct (String.compare a b); cbn [CompOpp];
      [vm_compute in H; discriminate H|vm_compute in H; discriminate H|reflexivity].
  - intros H. vm_compute in H. discriminate H.
  - intros _. exact I.
  - intros _. exact I.
Qed.

Lemma SortCompare_le (x y : option string) :
  (0 <? SortCompare x y) = false -> sort_le x y.
Proof.
  destruct x as [a|], y as [b|]; cbn [SortCompare sort_le].
  - unfold String.leb.
    destruct (String.compare a b); intros H;
      [reflexivity|reflexivity|vm_compute in H; discriminate H].
  - intros _. exact I.
  - intros H. vm_compute in H. discriminate H.
  - intros _. exact I.
Qed.

Section SortedBy.
Context {A : Type} (comparefn : A -> A -> float) (R : A -> A -> Prop).
Hypothesis after : forall x y, (0 <? comparefn x y) = true -> R y x.
Hypothesis before : forall x y, (0 <? comparefn x y) = false -> R x y.

Lemma insert_HdRel_by (a x : A) (l : list A) :
  HdRel R a l -> R a x -> HdRel R a (insert comparefn x l).
Proof.
  intros H Hax. destruct l as [|y l]; cbn [insert]; [now constructor|].
  destruct (0 <? comparefn x y); constructor; [now inversion H|exact Hax].
Qed.

Lemma insert_Sorted_by (x : A) (l : list A) :
  Sorted R l -> Sorted R (insert comparefn x l).
Proof.
  induction 1 as [|y l Hl IH Hy]; cbn [insert]; [repeat constructor|].
  destruct (0 <? comparefn x y) eqn:E.
  - constructor; [exact IH|]. apply insert_HdRel_by; [exact Hy|now apply after].
  - constructor; [now constructor|]. constructor. now apply before.
Qed.

Lemma sort_Sorted_by (l : list A) : Sorted R (sort comparefn l).
Proof.
  induction l as [|x l IH]; cbn [sort]; [constructor|].
  now apply insert_Sorted_by.
Qed.

End SortedBy.

Lemma passes_filter (field : HistoricalData.t -> option string) (v : option string)
  (data : list HistoricalData.t) (d : HistoricalData.t) :
  In d (if truthy v then List.filter (fun d => strict_eq (field d) v) data else data)
  <-> In d data /\ passes v (field d).
Proof.
  unfold passes. destruct (truthy v).
  - rewrite List.filter_In. unfold strict_eq. rewrite bool_decide_eq_true. tauto.
  - split; [intros H; split; [exact H|discriminate]|tauto].
Qed.

Lemma options_spec (field f1 f2 : HistoricalData.t -> option string)
  (v1 v2 : option string) (data : list HistoricalData.t) :
  let filtered1 :=
    if truthy v1 then List.filter (fun d => strict_eq (f1 d) v1) data else data in
  let filtered2 :=
    if truthy v2 then List.filter (fun d => strict_eq (f2 d) v2) filtered1
    else filtered1 in
  let options := sort SortCompare (from_Set (map field filtered2)) in
  Sorted sort_le options /\ List.NoDup options
  /\ forall p, In p options <->
       exists d, In d data /\ field d = p /\ passes v1 (f1 d) /\ passes v2 (f2 d).
Proof.
  intros filtered1 filtered2 options. split; [|split].
  - apply sort_Sorted_by; [apply SortCompare_gt|apply SortCompare_le].
  - eapply Permutation_NoDup; [symmetry; apply sort_Permutation|apply from_Set_NoDup].
  - intros p. unfold options.
    assert (S : In p (sort SortCompare (from_Set (map field filtered2)))
                <-> In p (from_Set (map field filtered2))).
    { split; apply Permutation_in;
        [apply sort_Permutation|symmetry; apply sort_Permutation]. }
    rewrite S, In_from_Set, List.in_map_iff. unfold filtered2, filtered1.
    split.
    + intros (d & E & H). apply passes_filter in H as [H H2].
      apply passes_filter in H as [H H1]. now exists d.
    + intros (d & H & E & H1 & H2). exists d. split; [exact E|].
      apply passes_filter. split; [|exact H2]. now apply passes_filter.
Qed.

(** X9. Each option list of the filter bar is in the order of the code
    units, without repetition, and holds exactly the values that some record
    has which passes the two other filters (a filter that is not set lets
    every record through). *)
Theorem available_options (data : list HistoricalData.t) (filters : FilterState.t) :
  (Sorted sort_le (availableParts data filters)
   /\ List.NoDup (availableParts data filters)
   /\ forall p, In p (availableParts data filters) <->
        exists d, In d data /\ HistoricalData.partNumber d = p
          /\ passes (FilterState.vendor filters) (HistoricalData.vendor d)
          /\ passes (FilterState.country filters) (HistoricalData.country d))
  /\ (Sorted sort_le (availableVendors data filters)
      /\ List.NoDup (availableVendors data filters)
      /\ forall v, In v (availableVendors data filters) <->
           exists d, In d data /\ HistoricalData.vendor d = v
             /\ passes (FilterState.partNumber filters) (HistoricalData.partNumber d)
             /\ passes (FilterState.country filters) (HistoricalData.country d))
  /\ (Sorted sort_le (availableCountries data filters)
      /\ List.NoDup (availableCountries data filters)
      /\ forall c, In c (availableCountries data filters) <->
           exists d, In d data /\ HistoricalData.country d = c
             /\ passes (FilterState.partNumber filters) (HistoricalData.partNumber d)
             /\ passes (FilterState.vendor filters) (HistoricalData.vendor d)).
Proof.
  split; [|split].
  - apply (options_spec HistoricalData.partNumber HistoricalData.vendor
             HistoricalData.country).
  - apply (options_spec HistoricalData.vendor HistoricalData.partNumber
             HistoricalData.country).
  - apply (options_spec HistoricalData.country HistoricalData.partNumber
             HistoricalData.vendor).
Qed.


(** ** A selection made through the filter bar *)

Lemma FilterState_eta (f : FilterState.t) :
  FilterState.mk (FilterState.partNumber f) (FilterState.vendor f) (FilterState.country f)
  = f.
Proof. now destruct f. Qed.

Lemma matches_triple (filters : FilterState.t) (d : HistoricalData.t) :
  matches filters d = true <-> triple_of d = filters.
Proof.
  unfold matches, strict_eq, triple_of. rewrite !andb_true_iff, !bool_decide_eq_true.
  destruct filters as [p v c]. cbn [FilterState.partNumber FilterState.vendor FilterState.country].
  split; [intros [[-> ->] ->]; reflexivity|intros E; injection E; auto].
Qed.

Section Selection.

Variable getTime : string -> float.
Variable JSON_parse : string -> ForecastResult.t + string.

Lemma contextData_nonempty (data : list HistoricalData.t) (filters : FilterState.t) :
  In filters (combinations data) -> (0 < length (contextData getTime data filters))%nat.
Proof.
  intros H. apply In_combinations in H as (d & Hd & E).
  rewrite length_contextData.
  assert (Hin : In d (List.filter (matches filters) data)).
  { apply List.filter_In. split; [exact Hd|now apply matches_triple]. }
  destruct (List.filter (matches filters) data); [contradiction|cbn [length]; lia].
Qed.

Lemma guarded_not_missing (context : list HistoricalData.t)
  (body : Async Request.t Reply ForecastResult.t) :
  (0 < length context)%nat -> calls_engine body = true ->
  guarded context body
  <> Throw "Missing Historical Data: No records found matching the selected filters.".
Proof.
  intros H Hb. unfold guarded.
  destruct (Nat.eqb_spec (length context) 0); [lia|].
  destruct (length context <? 3)%nat; [intros E; discriminate E|].
  intros E. rewrite E in Hb. discriminate Hb.
Qed.

(** X10. When the three filters are set and one of them is an entry of its
    option list as the two others determine it, the selection is one of the
    combinations of the data, and neither version of [getForecastFromAI]
    fails on it with the error for missing historical data. *)
Theorem selection_has_history (data : list HistoricalData.t)
  (filters : FilterState.t) (model : string) :
  complete filters = true ->
  In (FilterState.partNumber filters) (availableParts data filters)
  \/ In (FilterState.vendor filters) (availableVendors data filters)
  \/ In (FilterState.country filters) (availableCountries data filters) ->
  In filters (combinations data)
  /\ getForecastFromAI getTime JSON_parse data filters model
     <> Throw "Missing Historical Data: No records found matching the selected filters."
  /\ getForecastFromAI_grounded getTime JSON_parse data filters model
     <> Throw "Missing Historical Data: No records found matching the selected filters.".
Proof.
  intros Hc Hin. unfold complete in Hc.
  apply andb_prop in Hc as [Hc Hcc]. apply andb_prop in Hc as [Hp Hv].
  assert (C : In filters (combinations data)).
  { apply In_combinations.
    destruct Hin as [H|[H|H]].
    - apply (options_spec HistoricalData.partNumber HistoricalData.vendor
               HistoricalData.country) in H as (d & Hd & E & H1 & H2).
      exists d. split; [exact Hd|]. unfold triple_of.
      rewrite E, (H1 Hv), (H2 Hcc). apply FilterState_eta.
    - apply (options_spec HistoricalData.vendor HistoricalData.partNumber
               HistoricalData.country) in H as (d & Hd & E & H1 & H2).
      exists d. split; [exact Hd|]. unfold triple_of.
      rewrite E, (H1 Hp), (H2 Hcc). apply FilterState_eta.
    - apply (options_spec HistoricalData.country HistoricalData.partNumber
               HistoricalData.vendor) in H as (d & Hd & E & H1 & H2).
      exists d. split; [exact Hd|]. unfold triple_of.
      rewrite E, (H1 Hp), (H2 Hv). apply FilterState_eta. }
  split; [exact C|].
  pose proof (contextData_nonempty data filters C) as N.
  split; apply guarded_not_missing; try exact N; reflexivity.
Qed.

End Selection.

Lemma selection_has_history_witness :
  In A_V1_US (combinations two_parts)
  /\ getForecastFromAI (fun _ => 0) (fun s => inr s) two_parts A_V1_US "m"
     <> Throw "Missing Historical Data: No records found matching the selected filters."
  /\ getForecastFromAI_grounded (fun _ => 0) (fun s => inr s) two_parts A_V1_US "m"
     <> Throw "Missing Historical Data: No records found matching the selected filters.".
Proof.
  apply (selection_has_history (fun _ => 0) (fun s => inr s) two_parts A_V1_US "m").
  - reflexivity.
  - left. vm_compute. left. reflexivity.
Defined.

(** ** The cache of forecasts *)

Lemma same_key_spec (filters : FilterState.t) (r : ForecastResult.t) :
  same_key filters r = true <-> key_of r = filters.
Proof.
  unfold same_key, strict_eq, key_of. rewrite !andb_true_iff, !bool_decide_eq_true.
  destruct filters as [p v c]. cbn [FilterState.partNumber FilterState.vendor FilterState.country].
  split; [intros [[-> ->] ->]; reflexivity|intros E; injection E; auto].
Qed.

Lemma same_key_key_of (r p : ForecastResult.t) :
  same_key (key_of r) p
  = (strict_eq (ForecastResult.partNumber p) (ForecastResult.partNumber r)
     && strict_eq (ForecastResult.vendor p) (ForecastResult.vendor r)
     && strict_eq (ForecastResult.country p) (ForecastResult.country r)).
Proof. reflexivity. Qed.

Lemma upsert_other (result : ForecastResult.t) (prev : list ForecastResult.t) :
  upsert result prev
  = List.filter (fun p => negb (same_key (key_of result) p)) prev ++ [result].
Proof. reflexivity. Qed.

Lemma find_filter_none {A : Type} (f g : A -> bool) (l : list A) :
  (forall x, f x = true -> g x = false) ->
  List.find f (List.filter g l) = None.
Proof.
  intros H. induction l as [|x l IH]; cbn [List.filter]; [reflexivity|].
  destruct (g x) eqn:G; [|exact IH]. cbn [List.find].
  destruct (f x) eqn:F; [|exact IH]. rewrite (H x F) in G. discriminate G.
Qed.

Lemma find_filter_same {A : Type} (f g : A -> bool) (l : list A) :
  (forall x, f x = true -> g x = true) ->
  List.find f (List.filter g l) = List.find f l.
Proof.
  intros H. induction l as [|x l IH]; cbn [List.filter]; [reflexivity|].
  destruct (g x) eqn:G; cbn [List.find]; [now rewrite IH|].
  destruct (f x) eqn:F; [|exact IH]. rewrite (H x F) in G. discriminate G.
Qed.

Lemma find_app {A : Type} (f : A -> bool) (l1 l2 : list A) :
  List.find f (l1 ++ l2)
  = match List.find f l1 with Some x => Some x | None => List.find f l2 end.
Proof.
  induction l1 as [|x l1 IH]; cbn [List.app List.find]; [reflexivity|].
  now destruct (f x).
Qed.

Lemma filter_upsert (result : ForecastResult.t) (prev : list ForecastResult.t) :
  List.filter (same_key (key_of result)) (upsert result prev) = [result].
Proof.
  rewrite upsert_other, List.filter_app.
  rewrite (filter_none (same_key (key_of result))).
  - cbn [List.filter List.app].
    now rewrite (proj2 (same_key_spec (key_of result) result) eq_refl).
  - apply List.Forall_forall. intros p Hp. apply List.filter_In in Hp as [_ Hp].
    now apply negb_true_iff in Hp.
Qed.

Lemma find_upsert (result : ForecastResult.t) (prev : list ForecastResult.t)
  (filters : FilterState.t) :
  List.find (same_key filters) (upsert result prev)
  = if same_key filters result then Some result
    else List.find (same_key filters) prev.
Proof.
  rewrite upsert_other, find_app. destruct (same_key filters result) eqn:E.
  - apply same_key_spec in E. subst filters.
    rewrite find_filter_none.
    + cbn [List.find]. now rewrite (proj2 (same_key_spec (key_of result) result) eq_refl).
    + intros p Hp. now rewrite Hp.
  - rewrite find_filter_same.
    + cbn [List.find]. rewrite E. now destruct (List.find (same_key filters) prev).
    + intros p Hp. apply same_key_spec in Hp. apply negb_true_iff.
      destruct (same_key (key_of result) p) eqn:Hr; [|reflexivity].
      apply same_key_spec in Hr.
      assert (T : same_key filters result = true) by (apply same_key_spec; congruence).
      rewrite T in E. discriminate E.
Qed.

(** X11. The cache after [handleRunForecast] has stored a result: looking a
    key up finds the new result when it is the key of the result and what
    was found before otherwise, and the cache holds the result as its only
    entry with that key. *)
Theorem upsert_lookup (result : ForecastResult.t) (prev : list ForecastResult.t)
  (filters : FilterState.t) :
  List.find (same_key filters) (upsert result prev)
  = (if same_key filters result then Some result
     else List.find (same_key filters) prev)
  /\ List.filter (same_key (key_of result)) (upsert result prev) = [result].
Proof. split; [apply find_upsert|apply filter_upsert]. Qed.

(** ** The handlers *)

Lemma run_try_catch {Rq Rp A B : Type} (engine : nat -> Rq -> Rp)
  (body : A -> B) (handler : string -> B) (p : Async Rq Rp A) :
  forall n,
    run engine n (try_catch p body handler)
    = (fst (run engine n p),
       inl (match snd (run engine n p) with
            | inl a => body a
            | inr message => handler message
            end)).
Proof.
  induction p as [a|message|request k IH]; intros n; cbn [try_catch run fst snd];
    try reflexivity.
  now rewrite IH.
Qed.

Lemma handleAIError_throws {Rq Rp A : Type} (err : Failure.t) :
  exists message, @handleAIError Rq Rp A err = Throw message /\ message <> EmptyString.
Proof.
  unfold handleAIError.
  repeat match goal with
         | |- context [if ?b then _ else _] => destruct b
         end; eexists; (split; [reflexivity|discriminate]).
Qed.

Section Service.

Variable getTime : string -> float.
Variable JSON_parse : string -> ForecastResult.t + string.

Lemma on_reply_run (engine : nat -> Request.t -> Reply) (n : nat)
  (emptyMessage : string) (filters : FilterState.t) (reply : Reply) :
  fst (run engine n (on_reply JSON_parse emptyMessage filters reply)) = []
  /\ ((exists result,
         snd (run engine n (on_reply JSON_parse emptyMessage filters reply)) = inl result
         /\ key_of result = filters)
      \/ (exists message,
            snd (run engine n (on_reply JSON_parse emptyMessage filters reply))
            = inr message /\ message <> EmptyString)).
Proof.
  assert (T : forall err,
    fst (run engine n (@handleAIError Request.t Reply ForecastResult.t err)) = []
    /\ ((exists result,
           snd (run engine n (@handleAIError Request.t Reply ForecastResult.t err))
           = inl result /\ key_of result = filters)
        \/ (exists message,
              snd (run engine n (@handleAIError Request.t Reply ForecastResult.t err))
              = inr message /\ message <> EmptyString))).
  { intros err. destruct (@handleAIError_throws Request.t Reply ForecastResult.t err)
      as (m & -> & Hm). cbn [run fst snd]. split; [reflexivity|]. right. now exists m. }
  unfold on_reply. destruct reply as [[txt|]|err]; try apply T.
  destruct (is_empty txt); [apply T|].
  destruct (JSON_parse txt) as [parsed|syntaxError]; [|apply T].
  cbn [run fst snd]. split; [reflexivity|]. left. eexists. split; [reflexivity|].
  unfold key_of. cbn [ForecastResult.partNumber ForecastResult.vendor ForecastResult.country].
  apply FilterState_eta.
Qed.

Lemma guarded_run (engine : nat -> Request.t -> Reply) (filters : FilterState.t)
  (context : list HistoricalData.t) (request : Request.t) (emptyMessage : string) :
  let r := run engine 0
             (guarded context
                (GenerateContent request (on_reply JSON_parse emptyMessage filters))) in
  (length (fst r) <= 1)%nat
  /\ ((exists result, snd r = inl result /\ key_of result = filters)
      \/ (exists message, snd r = inr message /\ message <> EmptyString)).
Proof.
  unfold guarded. destruct (length context =? 0)%nat.
  { cbn [run fst snd length]. split; [lia|]. right. eexists. split; [reflexivity|discriminate]. }
  destruct (length context <? 3)%nat.
  { cbn [run fst snd length]. split; [lia|]. right. eexists. split; [reflexivity|discriminate]. }
  cbn [run fst snd].
  destruct (on_reply_run engine 1 emptyMessage filters (engine 0%nat request)) as [E H].
  rewrite E. cbn [length]. split; [lia|exact H].
Qed.

End Service.

Lemma fold_updates_success (s : AppState.t) (result : ForecastResult.t) :
  fold_left apply_update
    [setIsAiConnected true; setAllForecasts (upsert result);
     setForecast (Some result); setLoading false]
    (fold_left apply_update [setLoading true; setError None; setActiveTab trends] s)
  = AppState.mk trends true (Some result) (upsert result (AppState.allForecasts s))
      false None (AppState.benchmarks s).
Proof. reflexivity. Qed.

Lemma forecast_run_of (service : list HistoricalData.t -> FilterState.t -> string ->
                                 Async Request.t Reply ForecastResult.t)
  (engine : nat -> Request.t -> Reply) (data : list HistoricalData.t)
  (filters : FilterState.t) (model : string) (s : AppState.t) :
  (let r := run engine 0 (service data filters model) in
   (length (fst r) <= 1)%nat
   /\ ((exists result, snd r = inl result /\ key_of result = filters)
       \/ (exists message, snd r = inr message /\ message <> EmptyString))) ->
  forecast_run filters s
    (run_handler engine (handleRunForecast service data filters model) s).
Proof.
  intros [Hcalls Hout]. unfold forecast_run, handleRunForecast, complete.
  destruct (truthy (FilterState.partNumber filters)) eqn:Hp;
    [|cbn [negb orb andb]; split; reflexivity].
  destruct (truthy (FilterState.vendor filters)) eqn:Hv;
    [|cbn [negb orb andb]; split; reflexivity].
  destruct (truthy (FilterState.country filters)) eqn:Hc;
    [|cbn [negb orb andb]; split; reflexivity].
  cbn [negb orb andb]. unfold run_handler. cbn [fst snd].
  rewrite run_try_catch. cbn [fst snd]. split; [exact Hcalls|].
  destruct Hout as [(result & -> & Hk)|(message & -> & Hm)].
  - rewrite fold_updates_success.
    cbn [AppState.loading AppState.activeTab AppState.forecast AppState.allForecasts
         AppState.error AppState.isAiConnected].
    split; [reflexivity|]. split; [reflexivity|]. left. exists result.
    split; [reflexivity|]. split; [exact Hk|].
    split; [rewrite <- Hk; apply filter_upsert|].
    split; [|split; reflexivity].
    unfold display_effect.
    rewrite Hp, Hv, Hc. cbn [andb]. rewrite find_upsert.
    now rewrite (proj2 (same_key_spec filters result) Hk).
  - split; [|split].
    + destruct (includes "API Key" message || includes "401" message
                || includes "403" message); reflexivity.
    + destruct (includes "API Key" message || includes "401" message
                || includes "403" message); reflexivity.
    + right.
      destruct (includes "API Key" message || includes "401" message
                || includes "403" message).
      * eexists. split; [reflexivity|]. split; [discriminate|]. split; reflexivity.
      * eexists. split; [reflexivity|]. split; [|split; reflexivity].
        destruct message; [contradiction|discriminate].
Qed.


Section ForecastHandler.

Variable getTime : string -> float.
Variable JSON_parse : string -> ForecastResult.t + string.

(** X12. A run of [handleRunForecast], with either version of the service
    and whatever the engine answers: with a filter not set it makes no
    request and writes nothing; otherwise it makes at most one request and
    ends on the trends tab with the loading flag down, and either the new
    forecast is shown, carries the key of the filters, is the only cached
    forecast of that key and is what the display effect finds, with no
    error, or an error message is set and the cache and the forecast shown
    are as before. *)
Theorem handleRunForecast_outcome (engine : nat -> Request.t -> Reply)
  (data : list HistoricalData.t) (filters : FilterState.t) (model : string)
  (s : AppState.t) :
  forecast_run filters s
    (run_handler engine
       (handleRunForecast (getForecastFromAI getTime JSON_parse) data filters model) s)
  /\ forecast_run filters s
       (run_handler engine
          (handleRunForecast (getForecastFromAI_grounded getTime JSON_parse)
             data filters model) s).
Proof.
  split; apply forecast_run_of.
  - unfold getForecastFromAI. apply guarded_run.
  - unfold getForecastFromAI_grounded. cbv zeta. apply guarded_run.
Qed.

End ForecastHandler.

(** ** The benchmark *)

Lemma baselineContext_keys (low high : float) (forecasts : list ForecastResult.t) :
  map (fun b => (Baseline.part b, Baseline.vendor b, Baseline.country b))
      (baselineContext low high forecasts)
  = map result_triple forecasts.
Proof. unfold baselineContext. rewrite List.map_map. reflexivity. Qed.

Section BenchmarkHandler.

Variable JSON_parse : string -> list BenchmarkResult.t + string.

Lemma handleAIError_run {Rq A : Type} (engine : nat -> Rq -> Reply) (n : nat)
  (err : Failure.t) :
  exists message,
    run engine n (@handleAIError Rq Reply A err) = ([], inr message)
    /\ message <> EmptyString.
Proof.
  destruct (@handleAIError_throws Rq Reply A err) as (m & -> & Hm).
  exists m. split; [reflexivity|exact Hm].
Qed.

Lemma benchmark_service_run (engine : nat -> BenchmarkRequest.t -> Reply)
  (rate : NegotiatedRate.t) (rates : list NegotiatedRate.t)
  (forecasts : list ForecastResult.t) (level : ConfidenceLevel) :
  (exists request outcome,
     run engine 0 (getBenchmarkAnalysis JSON_parse (rate :: rates) forecasts level)
     = ([request], outcome)
     /\ BenchmarkRequest.negotiated request = rate :: rates
     /\ BenchmarkRequest.baselines request
        = baselineContext 0x1.3333333333333p-1 0x1.6666666666666p+0 forecasts
     /\ ((exists results, outcome = inl results)
         \/ (exists message, outcome = inr message /\ message <> EmptyString)))
  /\ (exists request outcome,
        run engine 0
          (getBenchmarkAnalysis_boundary JSON_parse (rate :: rates) forecasts level)
        = ([request], outcome)
        /\ BenchmarkRequest.negotiated request = rate :: rates
        /\ BenchmarkRequest.baselines request
           = baselineContext 0x1.999999999999ap-1 0x1.3333333333333p+0 forecasts
        /\ ((exists results, outcome = inl results)
            \/ (exists message, outcome = inr message /\ message <> EmptyString))).
Proof.
  split.
  - unfold getBenchmarkAnalysis. cbn [length Nat.eqb run].
    set (request := BenchmarkRequest.mk _ _ _ _).
    assert (E : forall err, exists outcome,
      run engine 1 (@handleAIError BenchmarkRequest.t Reply (list BenchmarkResult.t) err)
      = ([], outcome)
      /\ ((exists results, outcome = inl results)
          \/ (exists message, outcome = inr message /\ message <> EmptyString))).
    { intros err. destruct (@handleAIError_run BenchmarkRequest.t (list BenchmarkResult.t)
                              engine 1 err) as (m & -> & Hm).
      eexists. split; [reflexivity|]. right. now exists m. }
    assert (R : exists outcome,
      run engine 1
        (match engine 0%nat request with
         | Response text =>
             if truthy text then
               match JSON_parse (or_default text EmptyString) with
               | inl results => Return results
               | inr syntaxError => handleAIError (Failure.mk (Some syntaxError) true)
               end
             else handleAIError
                    (Failure.mk
                       (Some "Empty AI Response: The benchmarking engine returned no content.")
                       false)
         | Rejected err => handleAIError err
         end) = ([], outcome)
      /\ ((exists results, outcome = inl results)
          \/ (exists message, outcome = inr message /\ message <> EmptyString))).
    { destruct (engine 0%nat request) as [text|err]; [|apply E].
      destruct (truthy text); [|apply E].
      destruct (JSON_parse (or_default text EmptyString)) as [results|syntaxError];
        [|apply E].
      eexists. split; [reflexivity|]. left. now eexists. }
    destruct R as (outcome & -> & Ho). exists request, outcome.
    cbn [fst snd]. repeat split; try reflexivity. exact Ho.
  - unfold getBenchmarkAnalysis_boundary. cbn [run].
    set (request := BenchmarkRequest.mk _ _ _ _).
    assert (E : forall err, exists outcome,
      run engine 1 (@handleAIError BenchmarkRequest.t Reply (list BenchmarkResult.t) err)
      = ([], outcome)
      /\ ((exists results, outcome = inl results)
          \/ (exists message, outcome = inr message /\ message <> EmptyString))).
    { intros err. destruct (@handleAIError_run BenchmarkRequest.t (list BenchmarkResult.t)
                              engine 1 err) as (m & -> & Hm).
      eexists. split; [reflexivity|]. right. now exists m. }
    assert (R : exists outcome,
      run engine 1
        (match engine 0%nat request with
         | Response text =>
             match JSON_parse (or_default text "[]") with
             | inl results => Return results
             | inr syntaxError => handleAIError (Failure.mk (Some syntaxError) true)
             end
         | Rejected err => handleAIError err
         end) = ([], outcome)
      /\ ((exists results, outcome = inl results)
          \/ (exists message, outcome = inr message /\ message <> EmptyString))).
    { destruct (engine 0%nat request) as [text|err]; [|apply E].
      destruct (JSON_parse (or_default text "[]")) as [results|syntaxError]; [|apply E].
      eexists. split; [reflexivity|]. left. now eexists. }
    destruct R as (outcome & -> & Ho). exists request, outcome.
    cbn [fst snd]. repeat split; try reflexivity. exact Ho.
Qed.

Lemma benchmark_run_of
  (service : list NegotiatedRate.t -> list ForecastResult.t -> ConfidenceLevel ->
             Async BenchmarkRequest.t Reply (list BenchmarkResult.t))
  (low high : float)
  (engine : nat -> BenchmarkRequest.t -> Reply)
  (proposedRates : list NegotiatedRate.t) (source : ForecastSource)
  (allForecasts uploadedForecasts : list ForecastResult.t) (level : ConfidenceLevel)
  (s : AppState.t) :
  (forall rate rates forecasts, exists request outcome,
     run engine 0 (service (rate :: rates) forecasts level) = ([request], outcome)
     /\ BenchmarkRequest.negotiated request = rate :: rates
     /\ BenchmarkRequest.baselines request = baselineContext low high forecasts
     /\ ((exists results, outcome = inl results)
         \/ (exists message, outcome = inr message /\ message <> EmptyString))) ->
  benchmark_run proposedRates (chosen_forecasts source allForecasts uploadedForecasts) s
    (run_handler engine
       (runBenchmark service proposedRates source allForecasts uploadedForecasts level) s).
Proof.
  intros Hs. unfold benchmark_run, runBenchmark.
  fold (chosen_forecasts source allForecasts uploadedForecasts).
  destruct proposedRates as [|rate rates]; [split; reflexivity|].
  destruct (chosen_forecasts source allForecasts uploadedForecasts) as [|f fs] eqn:Ec;
    [split; reflexivity|].
  cbn [length Nat.eqb]. unfold run_handler. cbn [fst snd]. rewrite run_try_catch.
  destruct (Hs rate rates (f :: fs)) as (request & outcome & -> & Hn & Hb & Ho).
  cbn [fst snd]. split.
  - exists request. split; [reflexivity|]. split; [exact Hn|].
    rewrite Hb. apply baselineContext_keys.
  - destruct Ho as [(results & ->)|(message & -> & Hm)].
    + split; [reflexivity|]. left. split; reflexivity.
    + split; [reflexivity|]. right. eexists. split; [reflexivity|].
      split; [|reflexivity]. destruct message; [contradiction|discriminate].
Qed.

(** X13. A run of [runBenchmark], with either version of the service and
    whatever the engine answers: without negotiated rates, or without a
    forecast of the chosen source, it makes no request and only sets its
    error message; otherwise it makes exactly one request, which carries the
    rates and one baseline per forecast in their order, and ends with the
    loading flag down and either no error, or an error message and the
    benchmarks as before.  The guard of the first version of the service
    never fires from this handler. *)
Theorem runBenchmark_outcome (engine : nat -> BenchmarkRequest.t -> Reply)
  (proposedRates : list NegotiatedRate.t) (source : ForecastSource)
  (allForecasts uploadedForecasts : list ForecastResult.t) (level : ConfidenceLevel)
  (s : AppState.t) :
  benchmark_run proposedRates (chosen_forecasts source allForecasts uploadedForecasts) s
    (run_handler engine
       (runBenchmark (getBenchmarkAnalysis JSON_parse) proposedRates source
          allForecasts uploadedForecasts level) s)
  /\ benchmark_run proposedRates (chosen_forecasts source allForecasts uploadedForecasts) s
       (run_handler engine
          (runBenchmark (getBenchmarkAnalysis_boundary JSON_parse) proposedRates source
             allForecasts uploadedForecasts level) s).
Proof.
  split.
  - eapply benchmark_run_of. intros rate rates forecasts.
    apply (proj1 (benchmark_service_run engine rate rates forecasts level)).
  - eapply benchmark_run_of. intros rate rates forecasts.
    apply (proj2 (benchmark_service_run engine rate rates forecasts level)).
Qed.

End BenchmarkHandler.


(** * The bulk request *)

Section BulkLoop.

Local Open Scope nat_scope.

Variable getTime : string -> float.
Variable JSON_parse : string -> list ForecastResult.t + Failure.t.
Variable BATCH_SIZE history_length : nat.
Variable ends_run : Failure.t -> bool.
Variable after_loop : list ForecastResult.t -> Bulk (list ForecastResult.t).
Variable after : list ForecastResult.t -> list ForecastResult.t + string.
Variable historicalData : list HistoricalData.t.
Variable combinations : list FilterState.t.
Variable model : string.
Variable engine : nat -> BulkRequest.t -> Reply.

Hypothesis BATCH_SIZE_pos : 0 < BATCH_SIZE.
Hypothesis after_loop_terminal : forall results, after_loop results = terminal (after results).

Local Abbreviation loop :=
  (bulk_loop getTime JSON_parse BATCH_SIZE history_length ends_run after_loop
     historicalData combinations model).

Local Abbreviation request_at :=
  (turn_request getTime history_length historicalData combinations model BATCH_SIZE).

Local Abbreviation passed := (goes_on JSON_parse ends_run).

Lemma run_terminal {A : Type} (c : nat) (o : A + string) :
  run_bulk engine c (terminal o) = Trace.mk [] [] o.
Proof. now destruct o. Qed.

Lemma loop_exit (fuel i : nat) (results : list ForecastResult.t) :
  length combinations <= i -> loop fuel i results = terminal (after results).
Proof.
  intros H. destruct fuel as [|fuel]; cbn [bulk_loop];
    [apply after_loop_terminal|].
  destruct (Nat.ltb_spec i (length combinations)); [lia|apply after_loop_terminal].
Qed.

Lemma seq_S_map {X : Type} (f : nat -> X) (m : nat) :
  map f (seq 0 (S m)) = f 0 :: map (fun j => f (S j)) (seq 0 m).
Proof. cbn [seq map]. now rewrite <- List.seq_shift, List.map_map. Qed.

Lemma loop_run (fuel : nat) :
  forall (i : nat) (results : list ForecastResult.t) (c : nat),
    length combinations <= i + fuel * BATCH_SIZE ->
    exists m,
      length (Trace.exchanges (run_bulk engine c (loop fuel i results))) = m
      /\ map fst (Trace.exchanges (run_bulk engine c (loop fuel i results)))
         = map (request_at i) (seq 0 m)
      /\ (forall j, j < m -> i + j * BATCH_SIZE < length combinations)
      /\ ((List.Forall passed (Trace.exchanges (run_bulk engine c (loop fuel i results)))
           /\ length combinations <= i + m * BATCH_SIZE
           /\ Trace.progress (run_bulk engine c (loop fuel i results))
              = map (fun j => Nat.min (i + j * BATCH_SIZE + BATCH_SIZE)
                                      (length combinations)) (seq 0 m)
           /\ Trace.outcome (run_bulk engine c (loop fuel i results))
              = after (results
                       ++ results_of JSON_parse (run_bulk engine c (loop fuel i results))))
          \/ (exists pre e err message,
                Trace.exchanges (run_bulk engine c (loop fuel i results)) = pre ++ [e]
                /\ List.Forall passed pre
                /\ failure_of JSON_parse (snd e) = Some err
                /\ ends_run err = true
                /\ @handleAIError BulkRequest.t Reply (list ForecastResult.t) err
                   = Throw message
                /\ Trace.progress (run_bulk engine c (loop fuel i results))
                   = map (fun j => Nat.min (i + j * BATCH_SIZE + BATCH_SIZE)
                                           (length combinations)) (seq 0 (m - 1))
                /\ Trace.outcome (run_bulk engine c (loop fuel i results))
                   = inr message)).
Proof.
  assert (Exit : forall fuel i results c, length combinations <= i ->
    exists m,
      length (Trace.exchanges (run_bulk engine c (loop fuel i results))) = m
      /\ map fst (Trace.exchanges (run_bulk engine c (loop fuel i results)))
         = map (request_at i) (seq 0 m)
      /\ (forall j, j < m -> i + j * BATCH_SIZE < length combinations)
      /\ ((List.Forall passed (Trace.exchanges (run_bulk engine c (loop fuel i results)))
           /\ length combinations <= i + m * BATCH_SIZE
           /\ Trace.progress (run_bulk engine c (loop fuel i results))
              = map (fun j => Nat.min (i + j * BATCH_SIZE + BATCH_SIZE)
                                      (length combinations)) (seq 0 m)
           /\ Trace.outcome (run_bulk engine c (loop fuel i results))
              = after (results
                       ++ results_of JSON_parse (run_bulk engine c (loop fuel i results))))
          \/ (exists pre e err message,
                Trace.exchanges (run_bulk engine c (loop fuel i results)) = pre ++ [e]
                /\ List.Forall passed pre
                /\ failure_of JSON_parse (snd e) = Some err
                /\ ends_run err = true
                /\ @handleAIError BulkRequest.t Reply (list ForecastResult.t) err
                   = Throw message
                /\ Trace.progress (run_bulk engine c (loop fuel i results))
                   = map (fun j => Nat.min (i + j * BATCH_SIZE + BATCH_SIZE)
                                           (length combinations)) (seq 0 (m - 1))
                /\ Trace.outcome (run_bulk engine c (loop fuel i results))
                   = inr message))).
  { intros fuel' i results c H. rewrite (loop_exit fuel' i results H), run_terminal.
    exists 0. cbn [Trace.exchanges Trace.progress Trace.outcome length map seq].
    split; [reflexivity|]. split; [reflexivity|]. split; [intros j Hj; lia|].
    left. split; [constructor|]. split; [lia|]. split; [reflexivity|].
    unfold results_of. cbn [Trace.exchanges flat_map]. now rewrite List.app_nil_r. }
  induction fuel as [|fuel IH]; intros i results c Hfuel.
  { apply Exit. cbn in Hfuel. lia. }
  destruct (Nat.lt_ge_cases i (length combinations)) as [Hi|Hi]; [|now apply Exit].
  (* one turn of the loop *)
  set (request := request_at i 0).
  remember (engine c request) as reply eqn:Er.
  assert (Hreq : BulkRequest.mk model
                   (batchData getTime history_length historicalData
                      (slice i (i + BATCH_SIZE) combinations)) = request).
  { unfold request, turn_request. do 3 f_equal; lia. }
  assert (Hturn :
    loop (S fuel) i results
    = Generate request
        (fun reply =>
           match reply with
           | Rejected err =>
               if ends_run err then rejected (handleAIError err)
               else OnProgress (Nat.min (i + BATCH_SIZE) (length combinations))
                      (SetTimeout 100 (loop fuel (i + BATCH_SIZE) results))
           | Response text =>
               if truthy text then
                 match JSON_parse (or_default text EmptyString) with
                 | inl batchResults =>
                     OnProgress (Nat.min (i + BATCH_SIZE) (length combinations))
                       (SetTimeout 100
                          (loop fuel (i + BATCH_SIZE) (results ++ batchResults)))
                 | inr err =>
                     if ends_run err then rejected (handleAIError err)
                     else OnProgress (Nat.min (i + BATCH_SIZE) (length combinations))
                            (SetTimeout 100 (loop fuel (i + BATCH_SIZE) results))
                 end
               else OnProgress (Nat.min (i + BATCH_SIZE) (length combinations))
                      (SetTimeout 100 (loop fuel (i + BATCH_SIZE) results))
           end)).
  { cbn [bulk_loop].
    destruct (Nat.ltb_spec i (length combinations)); [|lia].
    rewrite Hreq. reflexivity. }
  rewrite Hturn. cbn [run_bulk Trace.exchanges Trace.progress Trace.outcome].
  rewrite <- Er. clear Er Hturn.
  (* the turn goes on, with the results [results'] *)
  assert (Go : forall results',
    results' = results ++ collected JSON_parse reply ->
    passed (request, reply) ->
    let t := run_bulk engine (S c)
               (OnProgress (Nat.min (i + BATCH_SIZE) (length combinations))
                  (SetTimeout 100 (loop fuel (i + BATCH_SIZE) results'))) in
    exists m,
      length ((request, reply) :: Trace.exchanges t) = m
      /\ map fst ((request, reply) :: Trace.exchanges t) = map (request_at i) (seq 0 m)
      /\ (forall j, j < m -> i + j * BATCH_SIZE < length combinations)
      /\ ((List.Forall passed ((request, reply) :: Trace.exchanges t)
           /\ length combinations <= i + m * BATCH_SIZE
           /\ Trace.progress t
              = map (fun j => Nat.min (i + j * BATCH_SIZE + BATCH_SIZE)
                                      (length combinations)) (seq 0 m)
           /\ Trace.outcome t
              = after (results
                       ++ flat_map (fun e => collected JSON_parse (snd e))
                            ((request, reply) :: Trace.exchanges t)))
          \/ (exists pre e err message,
                (request, reply) :: Trace.exchanges t = pre ++ [e]
                /\ List.Forall passed pre
                /\ failure_of JSON_parse (snd e) = Some err
                /\ ends_run err = true
                /\ @handleAIError BulkRequest.t Reply (list ForecastResult.t) err
                   = Throw message
                /\ Trace.progress t
                   = map (fun j => Nat.min (i + j * BATCH_SIZE + BATCH_SIZE)
                                           (length combinations)) (seq 0 (m - 1))
                /\ Trace.outcome t = inr message))).
  { intros results' Hres Hpass. cbn [run_bulk Trace.exchanges Trace.progress Trace.outcome].
    destruct (IH (i + BATCH_SIZE) results' (S c)) as (m & Hm & Hcalls & Hlt & Hcase);
      [cbn in Hfuel; lia|].
    set (t := run_bulk engine (S c) (loop fuel (i + BATCH_SIZE) results')) in *.
    assert (Shift : forall X (f : nat -> nat -> X),
              (forall j, f i (S j) = f (i + BATCH_SIZE) j) ->
              forall k, map (f i) (seq 0 (S k)) = f i 0 :: map (f (i + BATCH_SIZE)) (seq 0 k)).
    { intros X f Hf k. rewrite seq_S_map. f_equal. apply List.map_ext. exact Hf. }
    exists (S m). split; [cbn [length]; now rewrite Hm|].
    split.
    { cbn [map fst]. rewrite Hcalls.
      rewrite (Shift _ request_at); [reflexivity|].
      intros j. unfold turn_request. do 3 f_equal; lia. }
    split.
    { intros [|j] Hj; [lia|]. specialize (Hlt j). cbn. cbn in Hlt. lia. }
    destruct Hcase as [(Hall & Hn & Hprog & Hout)|(pre & e & err & message & He & Hpre & Hf & Hends & Hthrow & Hprog & Hout)].
    - left. split; [now constructor|]. split; [cbn; cbn in Hn; lia|]. split.
      + rewrite Hprog.
        rewrite (Shift _ (fun i j => Nat.min (i + j * BATCH_SIZE + BATCH_SIZE)
                                             (length combinations))).
        * f_equal. f_equal. lia.
        * intros j. f_equal. cbn. lia.
      + rewrite Hout, Hres. cbn [flat_map snd]. unfold results_of.
        now rewrite <- List.app_assoc.
    - right. exists ((request, reply) :: pre), e, err, message.
      split; [now rewrite He|]. split; [now constructor|].
      split; [exact Hf|]. split; [exact Hends|]. split; [exact Hthrow|].
      split; [|exact Hout].
      assert (Hm1 : 1 <= m).
      { rewrite <- Hm, He, List.length_app. cbn [length]. lia. }
      replace (S m - 1) with (S (m - 1)) by lia. rewrite Hprog.
      rewrite (Shift _ (fun i j => Nat.min (i + j * BATCH_SIZE + BATCH_SIZE)
                                           (length combinations))).
      * f_equal. f_equal. lia.
      * intros j. f_equal. cbn. lia. }
  (* the turn ends the run *)
  assert (Stop : forall err,
    failure_of JSON_parse reply = Some err -> ends_run err = true ->
    let t := run_bulk engine (S c)
               (rejected (@handleAIError BulkRequest.t Reply (list ForecastResult.t) err)) in
    exists m,
      length ((request, reply) :: Trace.exchanges t) = m
      /\ map fst ((request, reply) :: Trace.exchanges t) = map (request_at i) (seq 0 m)
      /\ (forall j, j < m -> i + j * BATCH_SIZE < length combinations)
      /\ ((List.Forall passed ((request, reply) :: Trace.exchanges t)
           /\ length combinations <= i + m * BATCH_SIZE
           /\ Trace.progress t
              = map (fun j => Nat.min (i + j * BATCH_SIZE + BATCH_SIZE)
                                      (length combinations)) (seq 0 m)
           /\ Trace.outcome t
              = after (results
                       ++ flat_map (fun e => collected JSON_parse (snd e))
                            ((request, reply) :: Trace.exchanges t)))
          \/ (exists pre e err message,
                (request, reply) :: Trace.exchanges t = pre ++ [e]
                /\ List.Forall passed pre
                /\ failure_of JSON_parse (snd e) = Some err
                /\ ends_run err = true
                /\ @handleAIError BulkRequest.t Reply (list ForecastResult.t) err
                   = Throw message
                /\ Trace.progress t
                   = map (fun j => Nat.min (i + j * BATCH_SIZE + BATCH_SIZE)
                                           (length combinations)) (seq 0 (m - 1))
                /\ Trace.outcome t = inr message))).
  { intros err Hf Hends.
    destruct (@handleAIError_throws BulkRequest.t Reply (list ForecastResult.t) err)
      as (message & Hthrow & _).
    rewrite Hthrow. cbn [rejected run_bulk Trace.exchanges Trace.progress Trace.outcome].
    exists 1. split; [reflexivity|]. split; [reflexivity|].
    split; [intros j Hj; assert (j = 0) by lia; subst j; cbn; lia|].
    right. exists [], (request, reply), err, message.
    split; [reflexivity|]. split; [constructor|]. split; [exact Hf|].
    split; [exact Hends|]. split; [exact Hthrow|]. split; reflexivity. }
  unfold results_of. cbn [Trace.exchanges].
  destruct reply as [text|err].
  - destruct (truthy text) eqn:Ht.
    + destruct (JSON_parse (or_default text EmptyString)) as [batchResults|err] eqn:Hj.
      * apply Go.
        -- unfold collected. now rewrite Ht, Hj.
        -- unfold goes_on, failure_of. cbn [snd]. now rewrite Ht, Hj.
      * destruct (ends_run err) eqn:Hends.
        -- apply Stop; [|exact Hends]. unfold failure_of. now rewrite Ht, Hj.
        -- apply Go.
           ++ unfold collected. now rewrite Ht, Hj, List.app_nil_r.
           ++ unfold goes_on, failure_of. cbn [snd]. now rewrite Ht, Hj.
    + apply Go.
      * unfold collected. now rewrite Ht, List.app_nil_r.
      * unfold goes_on, failure_of. cbn [snd]. now rewrite Ht.
  - destruct (ends_run err) eqn:Hends.
    + apply Stop; [reflexivity|exact Hends].
    + apply Go.
      * unfold collected. now rewrite List.app_nil_r.
      * unfold goes_on, failure_of. cbn [snd]. exact Hends.
Qed.

End BulkLoop.


(** ** The batches of a run *)

Lemma firstn_add {X : Type} (a b : nat) (l : list X) :
  firstn (a + b) l = firstn a l ++ firstn b (skipn a l).
Proof.
  revert l. induction a as [|a IH]; intros l; [reflexivity|].
  destruct l as [|x l]; cbn [Nat.add firstn skipn List.app].
  - now rewrite List.firstn_nil.
  - now rewrite IH.
Qed.

Lemma length_slice {X : Type} (a b : nat) (l : list X) :
  length (slice a (a + b) l) = Nat.min b (length l - a).
Proof.
  unfold slice. rewrite List.length_firstn, List.length_skipn.
  replace (a + b - a)%nat with b by lia. reflexivity.
Qed.

Lemma concat_slices {X : Type} (size : nat) (l : list X) (m : nat) :
  concat (map (fun j => slice (j * size) (j * size + size) l) (seq 0 m))
  = firstn (m * size) l.
Proof.
  induction m as [|m IH]; [reflexivity|].
  rewrite List.seq_S, List.map_app, List.concat_app, IH. cbn [map concat Nat.add].
  rewrite List.app_nil_r. unfold slice.
  replace (m * size + size - m * size)%nat with size by lia.
  replace (S m * size)%nat with (m * size + size)%nat by lia.
  now rewrite firstn_add.
Qed.

Lemma nth_map_seq {X : Type} (f : nat -> X) (m j : nat) (d : X) :
  (j < m)%nat -> nth j (map f (seq 0 m)) d = f j.
Proof.
  intros H. rewrite (List.nth_indep _ d (f 0%nat)) by now rewrite List.length_map, List.length_seq.
  rewrite List.map_nth. now rewrite List.seq_nth.
Qed.

Lemma combos_of_batchData (getTime : string -> float) (history_length : nat)
  (data : list HistoricalData.t) (batch : list FilterState.t) :
  map BatchItem.combo (batchData getTime history_length data batch) = batch.
Proof. unfold batchData. rewrite List.map_map. apply List.map_id. Qed.

Section BulkSummary.

Local Open Scope nat_scope.

Variable getTime : string -> float.
Variable JSON_parse : string -> list ForecastResult.t + Failure.t.
Variable BATCH_SIZE history_length : nat.
Variable ends_run : Failure.t -> bool.
Variable after_loop : list ForecastResult.t -> Bulk (list ForecastResult.t).
Variable after : list ForecastResult.t -> list ForecastResult.t + string.
Variable historicalData : list HistoricalData.t.
Variable combinations : list FilterState.t.
Variable model : string.
Variable engine : nat -> BulkRequest.t -> Reply.

Hypothesis BATCH_SIZE_pos : 0 < BATCH_SIZE.
Hypothesis after_loop_terminal : forall results, after_loop results = terminal (after results).

Lemma bulk_summary :
  forall t,
    t = run_bulk engine 0
          (bulk_loop getTime JSON_parse BATCH_SIZE history_length ends_run after_loop
             historicalData combinations model (length combinations) 0 []) ->
    (exists rest, concat (batches t) ++ rest = combinations)
    /\ List.Forall (fun b => 1 <= length b <= BATCH_SIZE) (batches t)
    /\ (forall j, S j < length (batches t) -> length (nth j (batches t) []) = BATCH_SIZE)
    /\ List.Forall (fun e => BulkRequest.model (fst e) = model
                             /\ BulkRequest.batchData (fst e)
                                = batchData getTime history_length historicalData
                                    (map BatchItem.combo (BulkRequest.batchData (fst e))))
                   (Trace.exchanges t)
    /\ ((List.Forall
           (fun e => match failure_of JSON_parse (snd e) with
                     | Some err => ends_run err
                     | None => false
                     end = false) (Trace.exchanges t)
         /\ concat (batches t) = combinations
         /\ Trace.progress t
            = progress_after BATCH_SIZE (length combinations) (length (batches t))
         /\ Trace.outcome t = after (results_of JSON_parse t))
        \/ (exists pre e err message,
              Trace.exchanges t = pre ++ [e]
              /\ List.Forall
                   (fun e => match failure_of JSON_parse (snd e) with
                             | Some err => ends_run err
                             | None => false
                             end = false) pre
              /\ failure_of JSON_parse (snd e) = Some err
              /\ ends_run err = true
              /\ @handleAIError BulkRequest.t Reply (list ForecastResult.t) err
                 = Throw message
              /\ Trace.progress t
                 = progress_after BATCH_SIZE (length combinations) (length pre)
              /\ Trace.outcome t = inr message)).
Proof.
  intros t Ht.
  destruct (loop_run getTime JSON_parse BATCH_SIZE history_length ends_run after_loop after
              historicalData combinations model engine BATCH_SIZE_pos after_loop_terminal
              (length combinations) 0 [] 0)
    as (m & Hm & Hcalls & Hlt & Hcase); [nia|].
  rewrite <- Ht in Hm, Hcalls, Hcase. cbn [List.app] in Hcase.
  assert (Hb : batches t
               = map (fun j => slice (j * BATCH_SIZE) (j * BATCH_SIZE + BATCH_SIZE)
                                     combinations) (seq 0 m)).
  { unfold batches.
    rewrite <- (List.map_map fst
                  (fun rq => map BatchItem.combo (BulkRequest.batchData rq))).
    rewrite Hcalls, List.map_map. apply List.map_ext. intros j.
    unfold turn_request. cbn [BulkRequest.batchData]. apply combos_of_batchData. }
  assert (Hlen : length (batches t) = m).
  { now rewrite Hb, List.length_map, List.length_seq. }
  split; [|split; [|split; [|split]]].
  - exists (skipn (m * BATCH_SIZE) combinations).
    rewrite Hb, concat_slices. apply List.firstn_skipn.
  - rewrite Hb. apply List.Forall_map, List.Forall_forall. intros j Hj.
    apply List.in_seq in Hj. rewrite length_slice.
    specialize (Hlt j). cbn in Hlt. lia.
  - intros j Hj. rewrite Hlen in Hj. rewrite Hb, nth_map_seq by lia.
    rewrite length_slice. specialize (Hlt (S j) Hj). cbn in Hlt. lia.
  - apply List.Forall_forall. intros e He.
    apply (List.in_map fst) in He. rewrite Hcalls in He.
    apply List.in_map_iff in He as (j & <- & _). unfold turn_request.
    cbn [BulkRequest.model BulkRequest.batchData]. split; [reflexivity|].
    now rewrite combos_of_batchData.
  - destruct Hcase as [(Hall & Hn & Hprog & Hout)|(pre & e & err & message & He & Hpre & Hf & Hends & Hthrow & Hprog & Hout)].
    + left. split; [exact Hall|]. split.
      { rewrite Hb, concat_slices. apply List.firstn_all2. cbn in Hn. lia. }
      split; [|exact Hout]. rewrite Hprog, Hlen. reflexivity.
    + right. exists pre, e, err, message.
      split; [exact He|]. split; [exact Hpre|]. split; [exact Hf|].
      split; [exact Hends|]. split; [exact Hthrow|]. split; [|exact Hout].
      rewrite Hprog. replace (m - 1) with (length pre); [reflexivity|].
      rewrite <- Hm, He, List.length_app. cbn [length]. lia.
Qed.

End BulkSummary.

Lemma handleAIError_categorized {Rq Rp A : Type} (err : Failure.t) (message : string) :
  @handleAIError Rq Rp A err = Throw message -> categorized message.
Proof.
  unfold handleAIError, categorized.
  repeat match goal with
         | |- context [if ?b then _ else _] => destruct b
         end; intros E; injection E as <-; eauto 6.
Qed.

Section BulkRuns.

Variable getTime : string -> float.
Variable JSON_parse : string -> list ForecastResult.t + Failure.t.
Variable engine : nat -> BulkRequest.t -> Reply.
Variable historicalData : list HistoricalData.t.
Variable combinations : list FilterState.t.
Variable model : string.

(** X14. A run of the second version of [getBulkForecastsFromAI], whatever
    the engine answers: the requests carry the combinations in their order,
    cut into batches of 8 (the last one may be shorter, none is empty), so
    each combination is sent exactly once; [onProgress] is given 8, 16, ...
    capped at the number of combinations, once per batch; and the function
    returns, never throws, what the answers that could be read add up to. *)
Theorem getBulkForecastsFromAI_ensemble_run :
  concat (batches (run_bulk engine 0
            (getBulkForecastsFromAI_ensemble getTime JSON_parse historicalData
               combinations model))) = combinations
  /\ List.Forall (fun b => (1 <= length b <= 8)%nat)
       (batches (run_bulk engine 0
          (getBulkForecastsFromAI_ensemble getTime JSON_parse historicalData
             combinations model)))
  /\ (forall j,
        (S j < length (batches (run_bulk engine 0
                  (getBulkForecastsFromAI_ensemble getTime JSON_parse historicalData
                     combinations model))))%nat ->
        length (nth j (batches (run_bulk engine 0
                  (getBulkForecastsFromAI_ensemble getTime JSON_parse historicalData
                     combinations model))) []) = 8%nat)
  /\ Trace.progress (run_bulk engine 0
        (getBulkForecastsFromAI_ensemble getTime JSON_parse historicalData
           combinations model))
     = progress_after 8 (length combinations)
         (length (batches (run_bulk engine 0
            (getBulkForecastsFromAI_ensemble getTime JSON_parse historicalData
               combinations model))))
  /\ Trace.outcome (run_bulk engine 0
        (getBulkForecastsFromAI_ensemble getTime JSON_parse historicalData
           combinations model))
     = inl (results_of JSON_parse (run_bulk engine 0
              (getBulkForecastsFromAI_ensemble getTime JSON_parse historicalData
                 combinations model))).
Proof.
  destruct (bulk_summary getTime JSON_parse 8 12 (fun _ => false) Resolve inl
              historicalData combinations model engine ltac:(lia)
              ltac:(reflexivity) _ eq_refl)
    as (_ & Hsize & Hfull & _ & Hcase).
  fold (getBulkForecastsFromAI_ensemble getTime JSON_parse historicalData combinations model)
    in Hsize, Hfull, Hcase.
  destruct Hcase as [(_ & Hall & Hprog & Hout)|(pre & e & err & message & _ & _ & _ & Hends & _)];
    [|discriminate Hends].
  split; [exact Hall|]. split; [exact Hsize|]. split; [exact Hfull|].
  split; [exact Hprog|exact Hout].
Qed.

(** X15. A run of the first version of [getBulkForecastsFromAI], whatever
    the engine answers: the requests carry a front part of the combinations,
    in their order, cut into batches of 10 (none empty, only the last may be
    shorter).  Either no answer ended the run: then every combination was
    sent, [onProgress] was given 10, 20, ... capped at the number of
    combinations, once per batch, and the function returns what the answers
    add up to, except that it throws the bulk failure when that is nothing
    although there were combinations.  Or the last answer raised a failure
    that mentions 429, 401 or an API key: then no further batch was sent,
    [onProgress] was not called for that batch, and the function throws one
    of the five categorised messages. *)
Theorem getBulkForecastsFromAI_run :
  (exists rest,
     concat (batches (run_bulk engine 0
               (getBulkForecastsFromAI getTime JSON_parse historicalData
                  combinations model))) ++ rest = combinations)
  /\ List.Forall (fun b => (1 <= length b <= 10)%nat)
       (batches (run_bulk engine 0
          (getBulkForecastsFromAI getTime JSON_parse historicalData combinations model)))
  /\ (forall j,
        (S j < length (batches (run_bulk engine 0
                  (getBulkForecastsFromAI getTime JSON_parse historicalData
                     combinations model))))%nat ->
        length (nth j (batches (run_bulk engine 0
                  (getBulkForecastsFromAI getTime JSON_parse historicalData
                     combinations model))) []) = 10%nat)
  /\ ((List.Forall (fun e => ends_bulk JSON_parse (snd e) = false)
         (Trace.exchanges (run_bulk engine 0
            (getBulkForecastsFromAI getTime JSON_parse historicalData
               combinations model)))
       /\ concat (batches (run_bulk engine 0
                    (getBulkForecastsFromAI getTime JSON_parse historicalData
                       combinations model))) = combinations
       /\ Trace.progress (run_bulk engine 0
             (getBulkForecastsFromAI getTime JSON_parse historicalData
                combinations model))
          = progress_after 10 (length combinations)
              (length (batches (run_bulk engine 0
                 (getBulkForecastsFromAI getTime JSON_parse historicalData
                    combinations model))))
       /\ Trace.outcome (run_bulk engine 0
             (getBulkForecastsFromAI getTime JSON_parse historicalData
                combinations model))
          = match results_of JSON_parse (run_bulk engine 0
                    (getBulkForecastsFromAI getTime JSON_parse historicalData
                       combinations model)), combinations with
            | [], _ :: _ =>
                inr "Bulk Analysis Failed: The AI engine was unable to process any of the requested data batches."
            | results, _ => inl results
            end)
      \/ (exists pre e message,
            Trace.exchanges (run_bulk engine 0
               (getBulkForecastsFromAI getTime JSON_parse historicalData
                  combinations model)) = pre ++ [e]
            /\ List.Forall (fun e => ends_bulk JSON_parse (snd e) = false) pre
            /\ ends_bulk JSON_parse (snd e) = true
            /\ Trace.progress (run_bulk engine 0
                  (getBulkForecastsFromAI getTime JSON_parse historicalData
                     combinations model))
               = progress_after 10 (length combinations) (length pre)
            /\ Trace.outcome (run_bulk engine 0
                  (getBulkForecastsFromAI getTime JSON_parse historicalData
                     combinations model)) = inr message
            /\ categorized message)).
Proof.
  assert (Hpos : (0 < 10)%nat) by lia.
  assert (Hafter : forall results : list ForecastResult.t,
    (if (length results =? 0)%nat && (0 <? length combinations)%nat then
       Reject "Bulk Analysis Failed: The AI engine was unable to process any of the requested data batches."
     else Resolve results)
    = terminal
        (if (length results =? 0)%nat && (0 <? length combinations)%nat then
           inr "Bulk Analysis Failed: The AI engine was unable to process any of the requested data batches."
         else inl results)).
  { intros results.
    now destruct ((length results =? 0)%nat && (0 <? length combinations)%nat). }
  destruct (bulk_summary getTime JSON_parse 10 6 fatal
              (fun results =>
                 if (length results =? 0)%nat && (0 <? length combinations)%nat then
                   Reject "Bulk Analysis Failed: The AI engine was unable to process any of the requested data batches."
                 else Resolve results)
              (fun results =>
                 if (length results =? 0)%nat && (0 <? length combinations)%nat then
                   inr "Bulk Analysis Failed: The AI engine was unable to process any of the requested data batches."
                 else inl results)
              historicalData combinations model engine Hpos Hafter _ eq_refl)
    as (Hpre & Hsize & Hfull & _ & Hcase).
  fold (getBulkForecastsFromAI getTime JSON_parse historicalData combinations model)
    in Hpre, Hsize, Hfull, Hcase.
  split; [exact Hpre|]. split; [exact Hsize|]. split; [exact Hfull|].
  destruct Hcase as [(Hpass & Hall & Hprog & Hout)|(pre & e & err & message & He & Hpass & Hf & Hends & Hthrow & Hprog & Hout)].
  - left. split; [exact Hpass|]. split; [exact Hall|]. split; [exact Hprog|].
    rewrite Hout.
    destruct (results_of JSON_parse _) as [|r rs]; [|reflexivity].
    destruct combinations; reflexivity.
  - right. exists pre, e, message.
    split; [exact He|]. split; [exact Hpass|].
    split; [unfold ends_bulk; now rewrite Hf|].
    split; [exact Hprog|]. split; [exact Hout|].
    eapply handleAIError_categorized. exact Hthrow.
Qed.

End BulkRuns.


(** * The export of the forecasts read back *)

Lemma map_flat_map {X Y Z : Type} (g : Y -> Z) (f : X -> list Y) (l : list X) :
  map g (flat_map f l) = flat_map (fun x => map g (f x)) l.
Proof.
  induction l as [|x l IH]; cbn [flat_map map]; [reflexivity|].
  now rewrite List.map_app, IH.
Qed.

Lemma exportForecasts_lines (f : ForecastResult.t) (fs : list ForecastResult.t) :
  exportForecasts (f :: fs)
  = Some (text_of_lines
            (export_header
               :: flat_map (fun f => map (export_row f) (ForecastResult.forecast f))
                           (f :: fs))).
Proof.
  unfold exportForecasts, text_of_lines. cbn [length Nat.eqb].
  rewrite map_flat_map. do 3 f_equal.
  apply List.flat_map_ext. intros g. now rewrite List.map_map.
Qed.

Lemma plain_headers_export (rows : list string) :
  plain_headers (export_header :: rows) = export_tokens.
Proof. vm_compute. reflexivity. Qed.

Lemma export_row_cells (f : ForecastResult.t) (pt : ForecastPoint.t) (p v c d : string) :
  ForecastResult.partNumber f = Some p ->
  ForecastResult.vendor f = Some v ->
  ForecastResult.country f = Some c ->
  ForecastPoint.date pt = Some d ->
  csv_safe p = true -> csv_safe v = true -> csv_safe c = true -> csv_safe d = true ->
  trim d = d ->
  lacks newline (export_row f pt) = true
  /\ map (fun x => strip_quotes (trim x)) (split comma (export_row f pt))
     = [p; v; c; d;
        NumberToString (ForecastPoint.predictedPrice pt);
        NumberToString (ForecastPoint.predictedLeadTime pt);
        NumberToString (ForecastPoint.confidenceIntervalUpper pt);
        NumberToString (ForecastPoint.confidenceIntervalLower pt)].
Proof.
  intros Ep Ev Ec Ed Hp Hv Hc Hd Ht. unfold export_row. rewrite Ep, Ev, Ec, Ed.
  cbn [template join_cell].
  destruct (csv_safe_lacks _ Hp) as (P1 & P2 & P3).
  destruct (csv_safe_lacks _ Hv) as (V1 & V2 & V3).
  destruct (csv_safe_lacks _ Hc) as (C1 & C2 & C3).
  destruct (csv_safe_lacks _ Hd) as (D1 & D2 & D3).
  pose proof (fun x => numeric_lacks _ (numeric_NumberToString x)) as N.
  split.
  - apply lacks_join; [reflexivity|].
    repeat constructor; rewrite ?lacks_quoted by reflexivity; try assumption; apply N.
  - change "," with (String comma EmptyString).
    rewrite split_join; [|discriminate|].
    2:{ repeat constructor; rewrite ?lacks_quoted by reflexivity; try assumption; apply N. }
    cbn [map].
    rewrite !trim_quoted, !strip_quotes_quoted, !NumberToString_cell, Ht.
    now rewrite (strip_quotes_lacks _ D2).
Qed.

Lemma export_object (a b c d e f g h : string) :
  let obj := assign export_tokens [a; b; c; d; e; f; g; h] ∅ in
  obj !! "part number" = Some a /\ obj !! "partnumber" = None
  /\ obj !! "vendor" = Some b /\ obj !! "country" = Some c /\ obj !! "date" = Some d
  /\ obj !! "predicted price" = Some e /\ obj !! "predicted lead time" = Some f
  /\ obj !! "confidence upper" = Some g /\ obj !! "confidence lower" = Some h.
Proof. vm_compute. repeat split. Qed.

(** One line of the export gives back the row of its point. *)
Lemma export_row_decoded (f : ForecastResult.t) (pt : ForecastPoint.t) :
  exportable f -> point_carried pt ->
  lacks newline (export_row f pt) = true
  /\ rawPoint_of (row_object export_tokens (export_row f pt)) = raw_of f pt.
Proof.
  intros (p & v & c & Ep & Ev & Ec & Hne & Hp & Hv & Hc & _ & _)
         (d & Ed & Hd & Ht & Rp & Rl & Ru & Rw).
  destruct (export_row_cells f pt p v c d Ep Ev Ec Ed Hp Hv Hc Hd Ht) as [Hnl Hcells].
  split; [exact Hnl|].
  unfold row_object. rewrite Hcells.
  destruct (export_object p v c d
              (NumberToString (ForecastPoint.predictedPrice pt))
              (NumberToString (ForecastPoint.predictedLeadTime pt))
              (NumberToString (ForecastPoint.confidenceIntervalUpper pt))
              (NumberToString (ForecastPoint.confidenceIntervalLower pt)))
    as (L1 & L2 & L3 & L4 & L5 & L6 & L7 & L8 & L9).
  unfold rawPoint_of, raw_of.
  rewrite L1, L2, L3, L4, L5, L6, L7, L8, L9.
  pose proof (is_empty_false _ Hne) as Ip.
  cbn [or_else]. rewrite Ip.
  rewrite !or_default_some by apply NumberToString_not_empty.
  now rewrite Rp, Rl, Ru, Rw, Ep, Ev, Ec, Ed.
Qed.

Lemma export_row_quoted (f : ForecastResult.t) (pt : ForecastPoint.t) :
  exists s, export_row f pt = String dquote s.
Proof. unfold export_row, quoted. eexists. reflexivity. Qed.

(** The rows that [parseForecastCSV] makes of the export. *)
Lemma rawPoints_export (f : ForecastResult.t) (fs : list ForecastResult.t) :
  List.Forall exportable (f :: fs) ->
  split newline
    (text_of_lines
       (export_header
          :: flat_map (fun f => map (export_row f) (ForecastResult.forecast f)) (f :: fs)))
  = export_header
      :: flat_map (fun f => map (export_row f) (ForecastResult.forecast f)) (f :: fs)
  /\ rawPoints
       (text_of_lines
          (export_header
             :: flat_map (fun f => map (export_row f) (ForecastResult.forecast f))
                         (f :: fs)))
     = flat_map (fun f => map (raw_of f) (ForecastResult.forecast f)) (f :: fs).
Proof.
  intros H. set (l := f :: fs) in *. clearbody l. clear f fs.
  assert (Hdec : forall g pt, In g l -> In pt (ForecastResult.forecast g) ->
            lacks newline (export_row g pt) = true
            /\ rawPoint_of (row_object export_tokens (export_row g pt)) = raw_of g pt).
  { intros g pt Hg Hpt. rewrite List.Forall_forall in H.
    apply export_row_decoded; [now apply H|].
    destruct (H g Hg) as (p & v & c & _ & _ & _ & _ & _ & _ & _ & _ & Hpts).
    rewrite List.Forall_forall in Hpts. now apply Hpts. }
  assert (Hsplit : split newline
            (text_of_lines
               (export_header
                  :: flat_map (fun f => map (export_row f) (ForecastResult.forecast f)) l))
          = export_header
              :: flat_map (fun f => map (export_row f) (ForecastResult.forecast f)) l).
  { apply split_text_of_lines; [reflexivity|].
    apply List.Forall_forall. intros s Hs.
    apply List.in_flat_map in Hs as (g & Hg & Hs).
    apply List.in_map_iff in Hs as (pt & <- & Hpt).
    exact (proj1 (Hdec g pt Hg Hpt)). }
  split; [exact Hsplit|].
  unfold rawPoints. rewrite Hsplit, plain_headers_export.
  assert (Hlines : data_lines
            (export_header
               :: flat_map (fun f => map (export_row f) (ForecastResult.forecast f)) l)
          = flat_map (fun f => map (export_row f) (ForecastResult.forecast f)) l).
  { unfold data_lines. cbn [tail]. apply filter_all, List.Forall_forall.
    intros s Hs. apply List.in_flat_map in Hs as (g & _ & Hs).
    apply List.in_map_iff in Hs as (pt & <- & _).
    destruct (export_row_quoted g pt) as [s ->]. now rewrite trim_quote_not_empty. }
  rewrite Hlines, map_flat_map.
  clear Hsplit Hlines H. induction l as [|g l IH]; [reflexivity|].
  cbn [flat_map]. f_equal.
  - rewrite List.map_map. apply List.map_ext_in. intros pt Hpt.
    apply (proj2 (Hdec g pt (or_introl eq_refl) Hpt)).
  - apply IH. intros g' pt Hg'. apply Hdec. now right.
Qed.

(** ** The groups of the rows of an export *)

Lemma group_key_raw_of (f : ForecastResult.t) (pt : ForecastPoint.t) :
  group_key (raw_of f pt) = result_key f.
Proof. reflexivity. Qed.

Lemma point_of_raw_of (f : ForecastResult.t) (pt : ForecastPoint.t) :
  point_of (raw_of f pt) = pt.
Proof. now destruct pt. Qed.

Lemma first_occurrences_repeat {X Y : Type} `{EqDecision Y} (k : Y) (l1 : list X)
  (l2 : list Y) :
  List.filter (fun y => negb (bool_decide (y = k)))
    (first_occurrences (map (fun _ => k) l1 ++ l2))
  = List.filter (fun y => negb (bool_decide (y = k))) (first_occurrences l2).
Proof.
  induction l1 as [|x l1 IH]; [reflexivity|].
  cbn [map List.app first_occurrences List.filter].
  rewrite bool_decide_eq_true_2 by reflexivity. cbn [negb].
  now rewrite filter_idem.
Qed.

Lemma keys_of_export (fs : list ForecastResult.t) :
  List.Forall (fun f => ForecastResult.forecast f <> []) fs ->
  List.NoDup (map result_key fs) ->
  first_occurrences
    (map group_key (flat_map (fun f => map (raw_of f) (ForecastResult.forecast f)) fs))
  = map result_key fs.
Proof.
  induction fs as [|f fs IH]; intros Hne Hnd; [reflexivity|].
  inversion Hne as [|? ? Hf Hfs]; subst. inversion Hnd as [|? ? Hk Hnd']; subst.
  cbn [flat_map map]. rewrite List.map_app, List.map_map.
  destruct (ForecastResult.forecast f) as [|pt pts]; [contradiction|].
  cbn [map List.app first_occurrences]. rewrite group_key_raw_of. f_equal.
  rewrite (List.map_ext (fun x => group_key (raw_of f x)) (fun _ => result_key f))
    by (intros; apply group_key_raw_of).
  rewrite first_occurrences_repeat, (IH Hfs Hnd').
  apply filter_all, List.Forall_forall. intros k Hin.
  apply negb_true_iff, bool_decide_eq_false. intros ->. contradiction.
Qed.

Lemma rows_of_key_app (k : string) (a b : list RawPoint.t) :
  rows_of_key k (a ++ b) = rows_of_key k a ++ rows_of_key k b.
Proof. unfold rows_of_key. apply List.filter_app. Qed.

Lemma rows_of_export (fs : list ForecastResult.t) (f : ForecastResult.t) :
  List.NoDup (map result_key fs) -> In f fs ->
  rows_of_key (result_key f)
    (flat_map (fun f => map (raw_of f) (ForecastResult.forecast f)) fs)
  = map (raw_of f) (ForecastResult.forecast f).
Proof.
  assert (Other : forall g l, result_key g <> result_key f ->
            rows_of_key (result_key f) (map (raw_of g) l) = []).
  { intros g l Hg. unfold rows_of_key. apply filter_none, List.Forall_forall.
    intros q Hq. apply List.in_map_iff in Hq as (pt & <- & _).
    rewrite group_key_raw_of. now apply String.eqb_neq. }
  assert (Same : forall g l, result_key g = result_key f ->
            rows_of_key (result_key f) (map (raw_of g) l) = map (raw_of g) l).
  { intros g l Hg. unfold rows_of_key. apply filter_all, List.Forall_forall.
    intros q Hq. apply List.in_map_iff in Hq as (pt & <- & _).
    rewrite group_key_raw_of. now apply String.eqb_eq. }
  assert (None_ : forall l, ~ In (result_key f) (map result_key l) ->
            rows_of_key (result_key f)
              (flat_map (fun f => map (raw_of f) (ForecastResult.forecast f)) l) = []).
  { induction l as [|g l IH]; intros Hn; [reflexivity|].
    cbn [flat_map]. rewrite rows_of_key_app, Other, IH; [reflexivity| |].
    - intros Hin. apply Hn. now right.
    - intros E. apply Hn. left. exact E. }
  induction fs as [|g fs IH]; intros Hnd Hin; [contradiction|].
  inversion Hnd as [|? ? Hk Hnd']; subst.
  cbn [flat_map]. rewrite rows_of_key_app.
  destruct Hin as [->|Hin].
  - rewrite Same by reflexivity. rewrite None_ by exact Hk. apply List.app_nil_r.
  - rewrite Other, (IH Hnd' Hin); [reflexivity|].
    intros E. apply Hk. rewrite E. now apply List.in_map.
Qed.

Lemma group_of_export (fs : list ForecastResult.t) (f : ForecastResult.t) :
  List.NoDup (map result_key fs) -> In f fs -> ForecastResult.forecast f <> [] ->
  summarize
    (group_of (result_key f)
       (flat_map (fun f => map (raw_of f) (ForecastResult.forecast f)) fs))
  = reimported f.
Proof.
  intros Hnd Hin Hne. unfold group_of, reimported.
  rewrite (rows_of_export fs f Hnd Hin).
  rewrite List.map_map.
  rewrite (List.map_ext (fun x => point_of (raw_of f x)) (fun x => x))
    by (intros; apply point_of_raw_of).
  rewrite List.map_id.
  destruct (ForecastResult.forecast f) as [|pt pts] eqn:E; [contradiction|].
  reflexivity.
Qed.

(** X16. The export of the forecasts is read back by [parseForecastCSV]:
    when every forecast is one that the format carries and no two of them
    have the same key string, the decoder returns from the exported text the
    same forecasts in the same order, each with its key, its points and a
    summary computed afresh from the points.  Without any forecast nothing
    is exported. *)
Theorem exportForecasts_round_trip (allForecasts : list ForecastResult.t) :
  List.Forall exportable allForecasts ->
  List.NoDup (map result_key allForecasts) ->
  match exportForecasts allForecasts with
  | Some csvContent => parseForecastCSV csvContent = map reimported allForecasts
  | None => allForecasts = []
  end.
Proof.
  intros H Hnd. destruct allForecasts as [|f fs]; [reflexivity|].
  rewrite exportForecasts_lines.
  destruct (rawPoints_export f fs H) as [_ Hraw].
  rewrite parseForecastCSV_groups, Hraw, from_Set_first_occurrences.
  assert (Hne : List.Forall (fun f => ForecastResult.forecast f <> []) (f :: fs)).
  { eapply List.Forall_impl; [|exact H].
    now intros g (p & v & c & _ & _ & _ & _ & _ & _ & _ & Hg & _). }
  rewrite (keys_of_export (f :: fs) Hne Hnd), List.map_map.
  apply List.map_ext_in. intros g Hg.
  apply group_of_export; [exact Hnd|exact Hg|].
  rewrite List.Forall_forall in Hne. now apply Hne.
Qed.

Lemma exportForecasts_round_trip_witness :
  match exportForecasts two_forecasts with
  | Some csvContent => parseForecastCSV csvContent = map reimported two_forecasts
  | None => two_forecasts = []
  end.
Proof.
  apply (exportForecasts_round_trip two_forecasts).
  - repeat constructor.
    + exists "SKU-1001", "GlobalLogistics Inc", "USA".
      repeat match goal with |- _ /\ _ => split end;
        try reflexivity; try discriminate.
      repeat constructor.
      * exists "2024-01-01".
        repeat match goal with |- _ /\ _ => split end; vm_compute; reflexivity.
      * exists "2024-02-01".
        repeat match goal with |- _ /\ _ => split end; vm_compute; reflexivity.
    + exists "CHIP-M2", "TechSupply Co", "Vietnam".
      repeat match goal with |- _ /\ _ => split end;
        try reflexivity; try discriminate.
      repeat constructor.
      exists "2024-01-01".
      repeat match goal with |- _ /\ _ => split end; vm_compute; reflexivity.
  - vm_compute. repeat constructor; cbn; intuition discriminate.
Defined.


(** * What the engine is sent, and how the services fail *)

Lemma In_slice_last {X : Type} (n : nat) (l : list X) (x : X) :
  In x (slice_last n l) -> In x l.
Proof.
  unfold slice_last. intros H.
  rewrite <- (List.firstn_skipn (length l - n) l). apply List.in_or_app. now right.
Qed.

Lemma length_slice_last {X : Type} (n : nat) (l : list X) :
  length (slice_last n l) = Nat.min n (length l).
Proof. unfold slice_last. rewrite List.length_skipn. lia. Qed.

Section EngineInputs.

Variable getTime : string -> float.

Lemma In_contextData (data : list HistoricalData.t) (filters : FilterState.t)
  (d : HistoricalData.t) :
  In d (contextData getTime data filters) -> In d data /\ triple_of d = filters.
Proof.
  unfold contextData. intros H.
  apply (Permutation_in _ (sort_Permutation _ _)) in H.
  apply List.filter_In in H as [H M]. split; [exact H|now apply matches_triple].
Qed.

Lemma history_for_slice_last (data : list HistoricalData.t) (filters : FilterState.t)
  (least most : nat) :
  (least <= most)%nat ->
  (least <= length (contextData getTime data filters))%nat ->
  history_for data least most filters
    (slice_last most (contextData getTime data filters)).
Proof.
  intros Hlm Hlen. split.
  - rewrite length_slice_last. lia.
  - apply List.Forall_forall. intros d Hd.
    apply In_slice_last in Hd. now apply In_contextData.
Qed.

Lemma batchData_histories (data : list HistoricalData.t) (most : nat)
  (batch : list FilterState.t) :
  (1 <= most)%nat ->
  (forall combo, In combo batch -> In combo (combinations data)) ->
  List.Forall (fun item => history_for data 1 most (BatchItem.combo item)
                             (BatchItem.history item))
              (batchData getTime most data batch).
Proof.
  intros Hm Hin. unfold batchData. apply List.Forall_map, List.Forall_forall.
  intros combo Hc. cbn [BatchItem.combo BatchItem.history].
  apply history_for_slice_last; [exact Hm|].
  pose proof (contextData_nonempty getTime data combo (Hin combo Hc)). lia.
Qed.

Variable JSON_parse : string -> list ForecastResult.t + Failure.t.
Variable engine : nat -> BulkRequest.t -> Reply.

Lemma histories_of_bulk_loop (size most : nat) (ends_run : Failure.t -> bool)
  (after_loop : list ForecastResult.t -> Bulk (list ForecastResult.t))
  (after : list ForecastResult.t -> list ForecastResult.t + string)
  (data : list HistoricalData.t) (model : string) :
  (0 < size)%nat -> (1 <= most)%nat ->
  (forall results, after_loop results = terminal (after results)) ->
  List.Forall
    (fun e =>
       BulkRequest.model (fst e) = model
       /\ List.Forall (fun item => history_for data 1 most (BatchItem.combo item)
                                     (BatchItem.history item))
                      (BulkRequest.batchData (fst e)))
    (Trace.exchanges
       (run_bulk engine 0
          (bulk_loop getTime JSON_parse size most ends_run after_loop data
             (combinations data) model (length (combinations data)) 0 []))).
Proof.
  intros Hs Hm Hafter.
  destruct (bulk_summary getTime JSON_parse size most ends_run after_loop after
              data (combinations data) model engine Hs Hafter _ eq_refl)
    as ((rest & Hrest) & _ & _ & Hreq & _).
  apply List.Forall_forall. intros e He.
  rewrite List.Forall_forall in Hreq. destruct (Hreq e He) as [Hmodel Hdata].
  split; [exact Hmodel|]. rewrite Hdata.
  apply batchData_histories; [exact Hm|].
  intros combo Hc. rewrite <- Hrest. apply List.in_or_app. left.
  apply List.in_concat. eexists. split; [|exact Hc].
  unfold batches. now apply (List.in_map (fun e => map BatchItem.combo
                                               (BulkRequest.batchData (fst e)))).
Qed.

(** X17. In a bulk run over the combinations of the data, as
    [handleGenerateAllForecasts] starts it, every request names the chosen
    model and every item of every request carries a history of its own
    combination: records of the data that all have the key of the item, at
    least one and at most 6 of them (12 in the second version). *)
Theorem bulk_histories (data : list HistoricalData.t) (model : string) :
  List.Forall
    (fun e =>
       BulkRequest.model (fst e) = model
       /\ List.Forall (fun item => history_for data 1 6 (BatchItem.combo item)
                                     (BatchItem.history item))
                      (BulkRequest.batchData (fst e)))
    (Trace.exchanges
       (run_bulk engine 0
          (getBulkForecastsFromAI getTime JSON_parse data (combinations data) model)))
  /\ List.Forall
       (fun e =>
          BulkRequest.model (fst e) = model
          /\ List.Forall (fun item => history_for data 1 12 (BatchItem.combo item)
                                        (BatchItem.history item))
                         (BulkRequest.batchData (fst e)))
       (Trace.exchanges
          (run_bulk engine 0
             (getBulkForecastsFromAI_ensemble getTime JSON_parse data
                (combinations data) model))).
Proof.
  split.
  - unfold getBulkForecastsFromAI.
    eapply (histories_of_bulk_loop 10 6 fatal _
              (fun results =>
                 if (length results =? 0)%nat && (0 <? length (combinations data))%nat
                 then inr "Bulk Analysis Failed: The AI engine was unable to process any of the requested data batches."
                 else inl results)); [lia|lia|].
    intros results.
    now destruct ((length results =? 0)%nat && (0 <? length (combinations data))%nat).
  - unfold getBulkForecastsFromAI_ensemble.
    eapply (histories_of_bulk_loop 8 12 (fun _ => false) Resolve inl); [lia|lia|reflexivity].
Qed.

End EngineInputs.

Section ServiceFailures.

Variable getTime : string -> float.
Variable JSON_parse : string -> ForecastResult.t + string.
Variable JSON_parse_benchmarks : string -> list BenchmarkResult.t + string.

Lemma handleAIError_fails_categorized {Rq A : Type} (engine : nat -> Rq -> Reply)
  (n : nat) (request : Rq) (err : Failure.t) (message : string) :
  snd (run engine n (@handleAIError Rq Reply A err)) = inr message -> categorized message.
Proof.
  destruct (@handleAIError_throws Rq Reply A err) as (m & E & _).
  pose proof (handleAIError_categorized err m E) as C.
  rewrite E. cbn [run snd]. now intros [= <-].
Qed.

Lemma on_reply_categorized (engine : nat -> Request.t -> Reply) (n : nat)
  (emptyMessage : string) (filters : FilterState.t) (reply : Reply) (message : string) :
  snd (run engine n (on_reply JSON_parse emptyMessage filters reply)) = inr message ->
  categorized message.
Proof.
  unfold on_reply. destruct reply as [[txt|]|err];
    try apply (handleAIError_fails_categorized engine n (Request.mk "" None [])).
  destruct (is_empty txt);
    [apply (handleAIError_fails_categorized engine n (Request.mk "" None []))|].
  destruct (JSON_parse txt);
    [discriminate|apply (handleAIError_fails_categorized engine n (Request.mk "" None []))].
Qed.

Lemma guarded_categorized (engine : nat -> Request.t -> Reply)
  (context : list HistoricalData.t) (request : Request.t) (emptyMessage : string)
  (filters : FilterState.t) :
  fails_categorized
    (run engine 0
       (guarded context
          (GenerateContent request (on_reply JSON_parse emptyMessage filters)))).
Proof.
  unfold fails_categorized, guarded. intros message.
  destruct (length context =? 0)%nat; [cbn [run fst]; congruence|].
  destruct (length context <? 3)%nat; [cbn [run fst]; congruence|].
  cbn [run fst snd]. intros _. apply on_reply_categorized.
Qed.

(** X18. Once a request has been made, neither version of
    [getForecastFromAI] nor of [getBenchmarkAnalysis] fails with anything
    but one of the five messages of [handleAIError], whatever the engine
    answers: a rejection, an empty text and a text that does not parse all
    leave through it. *)
Theorem service_failures_categorized (engine : nat -> Request.t -> Reply)
  (benchmark_engine : nat -> BenchmarkRequest.t -> Reply)
  (data : list HistoricalData.t) (filters : FilterState.t) (model : string)
  (negotiated : list NegotiatedRate.t) (forecasts : list ForecastResult.t)
  (level : ConfidenceLevel) :
  fails_categorized (run engine 0 (getForecastFromAI getTime JSON_parse data filters model))
  /\ fails_categorized
       (run engine 0 (getForecastFromAI_grounded getTime JSON_parse data filters model))
  /\ fails_categorized
       (run benchmark_engine 0
          (getBenchmarkAnalysis JSON_parse_benchmarks negotiated forecasts level))
  /\ fails_categorized
       (run benchmark_engine 0
          (getBenchmarkAnalysis_boundary JSON_parse_benchmarks negotiated forecasts level)).
Proof.
  split; [|split; [|split]].
  - unfold getForecastFromAI. apply guarded_categorized.
  - unfold getForecastFromAI_grounded. cbv zeta. apply guarded_categorized.
  - unfold fails_categorized, getBenchmarkAnalysis. intros message.
    destruct (length negotiated =? 0)%nat; [cbn [run fst]; congruence|].
    cbn [run fst snd]. intros _.
    set (request := BenchmarkRequest.mk _ _ _ _).
    destruct (benchmark_engine 0%nat request) as [text|err];
      [|apply (handleAIError_fails_categorized benchmark_engine 1 request)].
    destruct (truthy text);
      [|apply (handleAIError_fails_categorized benchmark_engine 1 request)].
    destruct (JSON_parse_benchmarks (or_default text EmptyString));
      [discriminate|apply (handleAIError_fails_categorized benchmark_engine 1 request)].
  - unfold fails_categorized, getBenchmarkAnalysis_boundary. intros message.
    cbn [run fst snd]. intros _.
    set (request := BenchmarkRequest.mk _ _ _ _).
    destruct (benchmark_engine 0%nat request) as [text|err];
      [|apply (handleAIError_fails_categorized benchmark_engine 1 request)].
    destruct (JSON_parse_benchmarks (or_default text "[]"));
      [discriminate|apply (handleAIError_fails_categorized benchmark_engine 1 request)].
Qed.

End ServiceFailures.


(** * Cleansing and the choices offered; what a forecast request carries *)

Lemma In_cleansed (data : list HistoricalData.t) (d : HistoricalData.t) :
  In d (Cleansed.cleansed (cleanseOutliers data)) -> In d data.
Proof.
  destruct (Nat.lt_ge_cases (length data) 4) as [H|H].
  - now rewrite (cleanseOutliers_small data H).
  - rewrite (cleanseOutliers_large data H). cbn [Cleansed.cleansed].
    intros Hd. now apply List.filter_In in Hd.
Qed.

Lemma options_narrow (field f1 f2 : HistoricalData.t -> option string)
  (v1 v2 : option string) (data : list HistoricalData.t) (p : option string) :
  In p (sort SortCompare
          (from_Set (map field
             (if truthy v2
              then List.filter (fun d => strict_eq (f2 d) v2)
                     (if truthy v1
                      then List.filter (fun d => strict_eq (f1 d) v1)
                             (Cleansed.cleansed (cleanseOutliers data))
                      else Cleansed.cleansed (cleanseOutliers data))
              else if truthy v1
                   then List.filter (fun d => strict_eq (f1 d) v1)
                          (Cleansed.cleansed (cleanseOutliers data))
                   else Cleansed.cleansed (cleanseOutliers data))))) ->
  In p (sort SortCompare
          (from_Set (map field
             (if truthy v2
              then List.filter (fun d => strict_eq (f2 d) v2)
                     (if truthy v1
                      then List.filter (fun d => strict_eq (f1 d) v1) data
                      else data)
              else if truthy v1
                   then List.filter (fun d => strict_eq (f1 d) v1) data
                   else data)))).
Proof.
  intros H.
  apply (options_spec field f1 f2 v1 v2) in H as (d & Hd & E & H1 & H2).
  apply (options_spec field f1 f2 v1 v2). exists d.
  split; [now apply In_cleansed|]. auto.
Qed.

(** X19. Cleansing never widens the choice: every combination of the
    cleansed data is a combination of the data, and every entry of an
    option list of the filter bar over the cleansed data is an entry of the
    same list over the data. *)
Theorem cleansing_narrows_choices (data : list HistoricalData.t)
  (filters : FilterState.t) :
  (forall t, In t (combinations (Cleansed.cleansed (cleanseOutliers data))) ->
             In t (combinations data))
  /\ (forall p, In p (availableParts (Cleansed.cleansed (cleanseOutliers data)) filters) ->
                In p (availableParts data filters))
  /\ (forall v, In v (availableVendors (Cleansed.cleansed (cleanseOutliers data)) filters) ->
                In v (availableVendors data filters))
  /\ (forall c, In c (availableCountries (Cleansed.cleansed (cleanseOutliers data)) filters) ->
                In c (availableCountries data filters)).
Proof.
  split; [|split; [|split]].
  - intros t H. apply In_combinations in H as (d & Hd & E).
    apply In_combinations. exists d. split; [now apply In_cleansed|exact E].
  - intros p. apply (options_narrow HistoricalData.partNumber HistoricalData.vendor
                       HistoricalData.country).
  - intros v. apply (options_narrow HistoricalData.vendor HistoricalData.partNumber
                       HistoricalData.country).
  - intros c. apply (options_narrow HistoricalData.country HistoricalData.partNumber
                       HistoricalData.vendor).
Qed.

Section RequestContext.

Variable getTime : string -> float.
Variable JSON_parse : string -> ForecastResult.t + string.
Variable engine : nat -> Request.t -> Reply.

Lemma guarded_request (context : list HistoricalData.t) (request : Request.t)
  (k : Reply -> Async Request.t Reply ForecastResult.t) (P : Request.t -> Prop) :
  (forall reply, fst (run engine 1 (k reply)) = []) ->
  ((3 <= length context)%nat -> P request) ->
  List.Forall P (fst (run engine 0 (guarded context (GenerateContent request k)))).
Proof.
  intros Hk HP. unfold guarded.
  destruct (Nat.eqb_spec (length context) 0); [constructor|].
  destruct (Nat.ltb_spec (length context) 3); [constructor|].
  cbn [run fst]. rewrite Hk. repeat constructor. now apply HP.
Qed.

(** X21. Whatever [getForecastFromAI] sends to the engine names the chosen
    model and carries records of the data that all have the key of the
    filters, at least 3 and at most 24 of them (36 in the second
    version). *)
Theorem forecast_request_context (data : list HistoricalData.t)
  (filters : FilterState.t) (model : string) :
  List.Forall (fun request =>
      Request.model request = model
      /\ history_for data 3 24 filters (Request.context request))
    (fst (run engine 0 (getForecastFromAI getTime JSON_parse data filters model)))
  /\ List.Forall (fun request =>
        Request.model request = model
        /\ history_for data 3 36 filters (Request.context request))
      (fst (run engine 0
              (getForecastFromAI_grounded getTime JSON_parse data filters model))).
Proof.
  split.
  - unfold getForecastFromAI. apply guarded_request.
    + intros reply. apply on_reply_run.
    + intros H. cbn [Request.model Request.context]. split; [reflexivity|].
      apply history_for_slice_last; [lia|exact H].
  - unfold getForecastFromAI_grounded. cbv zeta. apply guarded_request.
    + intros reply. apply on_reply_run.
    + intros H. cbn [Request.model Request.context]. split; [reflexivity|].
      apply history_for_slice_last; [lia|exact H].
Qed.

End RequestContext.


(** * The effect that clears stale filters *)

Lemma Array_includes_In (a : list (option string)) (v : option string) :
  Array_includes a v = true <-> In v a.
Proof.
  unfold Array_includes. rewrite List.existsb_exists. split.
  - intros (x & Hx & E). unfold strict_eq in E. apply bool_decide_eq_true in E.
    now subst x.
  - intros H. exists v. split; [exact H|]. unfold strict_eq.
    now apply bool_decide_eq_true.
Qed.

Lemma passes_cleared (before after field : option string) :
  (after = before \/ after = Some EmptyString) ->
  passes before field -> passes after field.
Proof.
  unfold passes. intros [->| ->] H; [exact H|]. intros E. discriminate E.
Qed.

(** Clearing filters only lengthens the option lists. *)
Lemma options_widen (data : list HistoricalData.t) (before after : FilterState.t) :
  cleared before after ->
  (forall p, In p (availableParts data before) -> In p (availableParts data after))
  /\ (forall v, In v (availableVendors data before) -> In v (availableVendors data after))
  /\ (forall c, In c (availableCountries data before)
                -> In c (availableCountries data after)).
Proof.
  intros (Hp & Hv & Hc). split; [|split].
  - intros p H.
    apply (options_spec HistoricalData.partNumber HistoricalData.vendor
             HistoricalData.country) in H as (d & Hd & E & H1 & H2).
    apply (options_spec HistoricalData.partNumber HistoricalData.vendor
             HistoricalData.country).
    exists d. split; [exact Hd|]. split; [exact E|].
    split; [exact (passes_cleared _ _ _ Hv H1)|exact (passes_cleared _ _ _ Hc H2)].
  - intros v H.
    apply (options_spec HistoricalData.vendor HistoricalData.partNumber
             HistoricalData.country) in H as (d & Hd & E & H1 & H2).
    apply (options_spec HistoricalData.vendor HistoricalData.partNumber
             HistoricalData.country).
    exists d. split; [exact Hd|]. split; [exact E|].
    split; [exact (passes_cleared _ _ _ Hp H1)|exact (passes_cleared _ _ _ Hc H2)].
  - intros c H.
    apply (options_spec HistoricalData.country HistoricalData.partNumber
             HistoricalData.vendor) in H as (d & Hd & E & H1 & H2).
    apply (options_spec HistoricalData.country HistoricalData.partNumber
             HistoricalData.vendor).
    exists d. split; [exact Hd|]. split; [exact E|].
    split; [exact (passes_cleared _ _ _ Hp H1)|exact (passes_cleared _ _ _ Hv H2)].
Qed.

Lemma clear_stale_fields (parts vendors countries : list (option string))
  (prev : FilterState.t) :
  FilterState.partNumber (clear_stale parts vendors countries prev)
  = (if truthy (FilterState.partNumber prev)
        && negb (Array_includes parts (FilterState.partNumber prev))
     then Some EmptyString else FilterState.partNumber prev)
  /\ FilterState.vendor (clear_stale parts vendors countries prev)
     = (if truthy (FilterState.vendor prev)
           && negb (Array_includes vendors (FilterState.vendor prev))
        then Some EmptyString else FilterState.vendor prev)
  /\ FilterState.country (clear_stale parts vendors countries prev)
     = (if truthy (FilterState.country prev)
           && negb (Array_includes countries (FilterState.country prev))
        then Some EmptyString else FilterState.country prev).
Proof.
  unfold clear_stale.
  destruct (truthy (FilterState.partNumber prev)
            && negb (Array_includes parts (FilterState.partNumber prev)));
    cbn [FilterState.partNumber FilterState.vendor FilterState.country];
    destruct (truthy (FilterState.vendor prev)
              && negb (Array_includes vendors (FilterState.vendor prev)));
    cbn [FilterState.partNumber FilterState.vendor FilterState.country];
    destruct (truthy (FilterState.country prev)
              && negb (Array_includes countries (FilterState.country prev)));
    cbn [FilterState.partNumber FilterState.vendor FilterState.country];
    repeat split; reflexivity.
Qed.

Lemma clear_stale_kept (parts vendors countries : list (option string))
  (prev : FilterState.t) :
  (truthy (FilterState.partNumber prev) = true -> In (FilterState.partNumber prev) parts) ->
  (truthy (FilterState.vendor prev) = true -> In (FilterState.vendor prev) vendors) ->
  (truthy (FilterState.country prev) = true -> In (FilterState.country prev) countries) ->
  clear_stale parts vendors countries prev = prev.
Proof.
  intros Hp Hv Hc.
  destruct (clear_stale_fields parts vendors countries prev) as (Ep & Ev & Ec).
  assert (K : forall l x, (truthy x = true -> In x l) ->
                (if truthy x && negb (Array_includes l x) then Some EmptyString else x) = x).
  { intros l x H. destruct (truthy x) eqn:T; [|reflexivity].
    rewrite (proj2 (Array_includes_In l x) (H eq_refl)). reflexivity. }
  rewrite (K _ _ Hp) in Ep. rewrite (K _ _ Hv) in Ev. rewrite (K _ _ Hc) in Ec.
  destruct (clear_stale parts vendors countries prev) as [p v c], prev as [p0 v0 c0].
  cbn in Ep, Ev, Ec. now subst.
Qed.

Lemma stale_field (l : list (option string)) (x : option string) :
  let y := if truthy x && negb (Array_includes l x) then Some EmptyString else x in
  (y = x \/ y = Some EmptyString) /\ (truthy y = true -> y = x /\ In x l).
Proof.
  cbv zeta. destruct (truthy x) eqn:T; cbn [andb].
  - destruct (Array_includes l x) eqn:I; cbn [negb].
    + split; [now left|]. intros _. split; [reflexivity|now apply Array_includes_In].
    + split; [now right|]. intros E. discriminate E.
  - split; [now left|]. intros E. congruence.
Qed.

(** X22. The effect that clears stale filters only clears: each filter is
    afterwards what it was or empty.  When there is data, every filter that
    is still set is afterwards an entry of its option list as the new
    filters determine it, so running the effect again changes nothing. *)
Theorem stale_filter_effect_settles (data : list HistoricalData.t)
  (filters : FilterState.t) :
  cleared filters (stale_filter_effect data filters)
  /\ (data <> [] -> offered data (stale_filter_effect data filters))
  /\ stale_filter_effect data (stale_filter_effect data filters)
     = stale_filter_effect data filters.
Proof.
  unfold stale_filter_effect at 1 2 4.
  destruct data as [|d0 data].
  { cbn [length Nat.eqb]. split; [repeat split; now left|].
    split; [intros H; contradiction|reflexivity]. }
  set (data' := d0 :: data). replace (length data' =? 0)%nat with false by reflexivity.
  set (after := clear_stale _ _ _ filters).
  destruct (clear_stale_fields (availableParts data' filters)
              (availableVendors data' filters) (availableCountries data' filters)
              filters) as (Ep & Ev & Ec).
  fold after in Ep, Ev, Ec.
  destruct (stale_field (availableParts data' filters) (FilterState.partNumber filters))
    as [Cp Kp].
  destruct (stale_field (availableVendors data' filters) (FilterState.vendor filters))
    as [Cv Kv].
  destruct (stale_field (availableCountries data' filters) (FilterState.country filters))
    as [Cc Kc].
  rewrite <- Ep in Cp, Kp. rewrite <- Ev in Cv, Kv. rewrite <- Ec in Cc, Kc.
  assert (Hcl : cleared filters after) by (repeat split; assumption).
  destruct (options_widen data' filters after Hcl) as (Wp & Wv & Wc).
  assert (Hoff : offered data' after).
  { split; [|split]; intros T.
    - destruct (Kp T) as [E H]. rewrite E. now apply Wp.
    - destruct (Kv T) as [E H]. rewrite E. now apply Wv.
    - destruct (Kc T) as [E H]. rewrite E. now apply Wc. }
  split; [exact Hcl|]. split; [intros _; exact Hoff|].
  unfold stale_filter_effect. replace (length data' =? 0)%nat with false by reflexivity.
  destruct Hoff as (Op & Ov & Oc). now apply clear_stale_kept.
Qed.
